(** * WordPress Archive Vue: the query codec, the page store and the
      fetch controller of [archive.vue], embedded and verified.

    The component keeps a query object in step with the address bar,
    requests pages of posts, stores them by page number and derives the
    view flags.  The methods are embedded below under their own names;
    the platform functions they call ([URLSearchParams], [JSON.stringify],
    number to string conversion, [Vue.set] on an array) are modelled in
    the module [Js]. *)

From Stdlib Require Import ZArith List String Ascii Bool Lia.
From Stdlib Require Import DecimalString DecimalZ DecimalFacts.
Import ListNotations.

Open Scope string_scope.
Open Scope Z_scope.

(** Code that leaves the model (a numeric text that is neither a safe
    decimal integer nor a plain decimal, a page field that is not an
    integer) yields [None]. *)
Notation "x <- a ;; b" :=
  (match a with Some x => b | None => None end)
  (at level 61, a at next level, right associativity).

(* ================================================================== *)
(** ** Platform model *)
(* ================================================================== *)

Module Js.

(** *** Objects

    A JS object used as a record of parameters: its own enumerable keys
    in the order [Object.keys] gives them, which is insertion order for
    keys that are not array indices (parameter names never are). *)
Definition obj (A : Type) : Type := list (string * A).

Section Obj.
Context {A : Type}.

Fixpoint get (k : string) (o : obj A) : option A :=
  match o with
  | [] => None
  | (k', v) :: o' => if String.eqb k' k then Some v else get k o'
  end.

Definition hasOwnProperty (k : string) (o : obj A) : bool :=
  match get k o with Some _ => true | None => false end.

(** [Vue.set(o, k, v)], and [o[k] = v] for a key other than
    [__proto__]: an existing key keeps its place, a new key goes
    last. *)
Fixpoint set (k : string) (v : A) (o : obj A) : obj A :=
  match o with
  | [] => [(k, v)]
  | (k', v') :: o' =>
      if String.eqb k' k then (k', v) :: o' else (k', v') :: set k v o'
  end.

(** [delete o[k]]. *)
Definition delete (k : string) (o : obj A) : obj A :=
  filter (fun kv => negb (String.eqb (fst kv) k)) o.

Definition keys (o : obj A) : list string := map fst o.

(** [o[k] = v] on an object made by [{}]: the key [__proto__] is the
    accessor of [Object.prototype], which sets the prototype of [o] and
    gives it no own key. *)
Definition assign (k : string) (v : A) (o : obj A) : obj A :=
  if String.eqb k "__proto__" then o else set k v o.

(** Whether [o.hasOwnProperty(...)] can be called: the method is found
    on the prototype unless [o] has an own key of that name, whose value
    (a query value) is no function. *)
Definition has_method (o : obj A) : bool :=
  negb (hasOwnProperty "hasOwnProperty" o).
End Obj.

(** [a.includes(x)] on an array of strings. *)
Definition includes (x : string) (l : list string) : bool :=
  existsb (String.eqb x) l.

(** *** Numbers and strings

    The numbers of the component are page numbers, page sizes, totals
    and term ids: integers.  An integer is a [Z]; its text is its
    decimal notation, which is what a template literal produces for
    every integer up to [MAX_SAFE_INTEGER] in absolute value.  The
    address bar can bring numbers that are not integers: these are held
    by their decimal expansion, below. *)
Definition MAX_SAFE_INTEGER : Z := 9007199254740991.

Definition safe_integer (z : Z) : bool :=
  Z.abs z <=? MAX_SAFE_INTEGER.

Definition number_to_string (z : Z) : string :=
  NilZero.string_of_int (Z.to_int z).

Definition code (c : ascii) : N := N_of_ascii c.

Definition between (lo hi : N) (c : ascii) : bool :=
  ((lo <=? code c) && (code c <=? hi))%N.

Definition is_digit (c : ascii) : bool := between 48 57 c.

(** A visible ASCII character no numeric text starts with: numeric
    texts start with white space, a digit, a sign, a dot or the [I] of
    [Infinity]. *)
Definition starts_no_number (c : ascii) : bool :=
  between 33 126 c && negb (is_digit c)
  && negb (Ascii.eqb c "+") && negb (Ascii.eqb c "-")
  && negb (Ascii.eqb c ".") && negb (Ascii.eqb c "I").

(** *** Numbers that are not integers

    A number with digits after the point is held by its decimal
    expansion: the integer part with its sign, and the digits after the
    point.  The expansion stands for a number, and is the text a
    template literal gives it, when it is the shortest one of the
    number, has digits after the point, at most 15 significant digits,
    which is few enough for the expansion to determine the number and
    the number its expansion, and at most five zeros after the point
    before them, smaller numbers being written with an exponent. *)
Definition whole_digits (u : Decimal.uint) : bool :=
  match u with
  | Decimal.Nil => false
  | Decimal.D0 Decimal.Nil => true
  | Decimal.D0 _ => false
  | _ => true
  end.

Definition ends_in_digit (places : Decimal.uint) : bool :=
  match Decimal.rev places with
  | Decimal.Nil => false
  | Decimal.D0 _ => false
  | _ => true
  end.

Definition magnitude (whole : Decimal.int) : Decimal.uint :=
  match whole with
  | Decimal.Pos u => u
  | Decimal.Neg u => u
  end.

Definition plain_decimal (whole : Decimal.int) (places : Decimal.uint)
  : bool :=
  whole_digits (magnitude whole) && ends_in_digit places
  && match magnitude whole with
     | Decimal.D0 Decimal.Nil =>
         (Decimal.nb_digits (Decimal.nzhead places) <=? 15)%nat
         && (Decimal.nb_digits places
             - Decimal.nb_digits (Decimal.nzhead places) <=? 5)%nat
     | u => (Decimal.nb_digits u + Decimal.nb_digits places <=? 15)%nat
     end.

Definition decimal_to_string (whole : Decimal.int) (places : Decimal.uint)
  : string :=
  NilZero.string_of_int whole
  ++ String "." (NilEmpty.string_of_uint places).

(** The greatest integer below a number that is not one. *)
Definition decimal_floor (whole : Decimal.int) : Z :=
  match whole with
  | Decimal.Pos u => Z.of_uint u
  | Decimal.Neg u => - Z.of_uint u - 1
  end.

(** What [Number(s)] is for a string [s], as far as the model has a
    value for it. *)
Inductive numeric : Type :=
| IsInt (z : Z)
| IsDec (whole : Decimal.int) (places : Decimal.uint)
| IsNaN
| Unmodelled.

(** The grammar of the texts [Number] reads as a number: white space,
    then nothing, or a literal with a radix prefix, or an optionally
    signed [Infinity] or decimal literal with an optional exponent, then
    white space to the end. *)
Definition is_ascii_space (c : ascii) : bool :=
  between 9 13 c || (code c =? 32)%N.

(** The first byte of a white space character of more than one byte. *)
Definition is_space_lead (c : ascii) : bool :=
  (code c =? 194)%N || (code c =? 225)%N || (code c =? 226)%N
  || (code c =? 227)%N || (code c =? 239)%N.

(** U+1680, U+2000 to U+200A, U+2028, U+2029, U+202F, U+205F, U+3000 and
    U+FEFF, as their three bytes. *)
Definition wide_space (c1 c2 c3 : ascii) : bool :=
  ((code c1 =? 225) && (code c2 =? 154) && (code c3 =? 128))%N
  || ((code c1 =? 226)%N && (code c2 =? 128)%N
      && (between 128 138 c3 || (code c3 =? 168)%N || (code c3 =? 169)%N
          || (code c3 =? 175)%N))
  || ((code c1 =? 226) && (code c2 =? 129) && (code c3 =? 159))%N
  || ((code c1 =? 227) && (code c2 =? 128) && (code c3 =? 128))%N
  || ((code c1 =? 239) && (code c2 =? 187) && (code c3 =? 191))%N.

Fixpoint skip_space (s : string) : string :=
  match s with
  | EmptyString => s
  | String c r =>
      if is_ascii_space c then skip_space r
      else if negb (is_space_lead c) then s
      else
        match r with
        | String c2 r2 =>
            if ((code c =? 194) && (code c2 =? 160))%N then skip_space r2
            else
              match r2 with
              | String c3 r3 =>
                  if wide_space c c2 c3 then skip_space r3 else s
              | EmptyString => s
              end
        | EmptyString => s
        end
  end.

Definition is_empty (s : string) : bool :=
  match s with EmptyString => true | _ => false end.

Definition all_space (s : string) : bool := is_empty (skip_space s).

Fixpoint skip_while (f : ascii -> bool) (s : string) : string :=
  match s with
  | EmptyString => s
  | String c r => if f c then skip_while f r else s
  end.

Definition starts_with (f : ascii -> bool) (s : string) : bool :=
  match s with
  | String c _ => f c
  | EmptyString => false
  end.

Definition skip_sign (s : string) : string :=
  match s with
  | String c r => if Ascii.eqb c "+" || Ascii.eqb c "-" then r else s
  | EmptyString => s
  end.

Fixpoint strip_prefix (p s : string) : option string :=
  match p with
  | EmptyString => Some s
  | String a p' =>
      match s with
      | String b s' => if Ascii.eqb a b then strip_prefix p' s' else None
      | EmptyString => None
      end
  end.

(** What may follow the mantissa: an exponent or none, then white
    space. *)
Definition exponent_part (s : string) : bool :=
  match s with
  | EmptyString => true
  | String c r =>
      if Ascii.eqb c "e" || Ascii.eqb c "E" then
        starts_with is_digit (skip_sign r)
        && all_space (skip_while is_digit (skip_sign r))
      else all_space s
  end.

Definition unsigned_decimal (s : string) : bool :=
  match strip_prefix "Infinity" s with
  | Some r => all_space r
  | None =>
      match s with
      | EmptyString => false
      | String c r =>
          if Ascii.eqb c "." then
            starts_with is_digit r && exponent_part (skip_while is_digit r)
          else if is_digit c then
            match skip_while is_digit r with
            | EmptyString => true
            | String c' r' =>
                if Ascii.eqb c' "." then exponent_part (skip_while is_digit r')
                else exponent_part (String c' r')
            end
          else false
      end
  end.

Definition is_hex_digit (c : ascii) : bool :=
  is_digit c || between 97 102 c || between 65 70 c.

Definition radix_digits (f : ascii -> bool) (s : string) : bool :=
  starts_with f s && all_space (skip_while f s).

Definition radix_literal (s : string) : bool :=
  match s with
  | EmptyString => false
  | String c r =>
      if negb (Ascii.eqb c "0") then false
      else
        match r with
        | EmptyString => false
        | String x d =>
            if Ascii.eqb x "x" || Ascii.eqb x "X" then radix_digits is_hex_digit d
            else if Ascii.eqb x "o" || Ascii.eqb x "O" then
              radix_digits (between 48 55) d
            else if Ascii.eqb x "b" || Ascii.eqb x "B" then
              radix_digits (between 48 49) d
            else false
        end
  end.

(** *** Splitting and joining *)

(** [s.split(sep)] for a one character separator. *)
Fixpoint split (sep : ascii) (s : string) : list string :=
  match s with
  | EmptyString => [EmptyString]
  | String c r =>
      if Ascii.eqb c sep then EmptyString :: split sep r
      else match split sep r with
           | x :: xs => String c x :: xs
           | [] => [String c EmptyString]
           end
  end.

(** [l.join(sep)]. *)
Definition join (sep : string) (l : list string) : string :=
  String.concat sep l.

(** The text before the first [sep] and, when there is one, the text
    after it. *)
Fixpoint break (sep : ascii) (s : string) : string * option string :=
  match s with
  | EmptyString => (EmptyString, None)
  | String c r =>
      if Ascii.eqb c sep then (EmptyString, Some r)
      else let (a, b) := break sep r in (String c a, b)
  end.

Fixpoint contains (c : ascii) (s : string) : bool :=
  match s with
  | EmptyString => false
  | String c' r => Ascii.eqb c' c || contains c r
  end.

(** Whether [Number(s)] is a number: [isNaN(s)] is the negation. *)
Definition numeric_text (s : string) : bool :=
  let t := skip_space s in
  is_empty t || radix_literal t || unsigned_decimal (skip_sign t).

(** An optionally negated run of digits, a point and a run of
    digits. *)
Definition read_decimal (s : string)
  : option (Decimal.int * Decimal.uint) :=
  match break "." s with
  | (a, Some b) =>
      match NilZero.int_of_string a, NilEmpty.uint_of_string b with
      | Some whole, Some places => Some (whole, places)
      | _, _ => None
      end
  | (_, None) => None
  end.

(** What [Number(s)] is for a string [s]: [NaN] when [s] is outside the
    grammar; the integer, for an optionally negated run of decimal
    digits that is a safe integer, and for the empty string, which is
    0; the number of the expansion, for a plain decimal.  The other
    numeric texts (exponents, radix prefixes, [Infinity], padded or
    plus signed texts, expansions that are not plain, integers that are
    not safe) are numbers the model has no value for: [Unmodelled]. *)
Definition string_to_number (s : string) : numeric :=
  match s with
  | EmptyString => IsInt 0
  | String c _ =>
      match NilZero.int_of_string s with
      | Some d =>
          if safe_integer (Z.of_int d) then IsInt (Z.of_int d)
          else Unmodelled
      | None =>
          match read_decimal s with
          | Some (whole, places) =>
              if plain_decimal whole places then IsDec whole places
              else Unmodelled
          | None => if numeric_text s then Unmodelled else IsNaN
          end
      end
  end.

(** A key that is an array index: the decimal notation, without
    leading zeros, of an integer from 0 to 4294967294.  [Object.keys]
    lists such keys first and in numeric order, whenever they were set;
    the lists of the model are in insertion order, so such keys are left
    out of the model. *)
Definition index_like (k : string) : bool :=
  starts_with is_digit k && is_empty (skip_while is_digit k)
  && (String.eqb k "0" || negb (starts_with (Ascii.eqb "0") k))
  && match NilZero.int_of_string k with
     | Some d => Z.of_int d <=? 4294967294
     | None => false
     end.

(** [key.replace('[]', '')]: the first occurrence only. *)
Fixpoint replace_brackets (s : string) : string :=
  match s with
  | EmptyString => EmptyString
  | String c r =>
      match r with
      | String c' r' =>
          if Ascii.eqb c "[" && Ascii.eqb c' "]" then r'
          else String c (replace_brackets r)
      | EmptyString => s
      end
  end.

(** Whether ["[]"] occurs in [s]. *)
Fixpoint has_brackets (s : string) : bool :=
  match s with
  | EmptyString => false
  | String c r =>
      match r with
      | String c' _ =>
          (Ascii.eqb c "[" && Ascii.eqb c' "]") || has_brackets r
      | EmptyString => false
      end
  end.

(** *** URLSearchParams

    The constructor on a string: one leading [?] is dropped, the rest is
    cut at every [&], empty pieces are skipped, each piece is cut at its
    first [=], and in name and value [+] becomes a space and [%XX] the
    byte [XX].  Strings stand for their UTF-8 bytes. *)
Definition hex_value (c : ascii) : option N :=
  if between 48 57 c then Some (code c - 48)%N
  else if between 97 102 c then Some (code c - 87)%N
  else if between 65 70 c then Some (code c - 55)%N
  else None.

Fixpoint plus_to_space (s : string) : string :=
  match s with
  | EmptyString => EmptyString
  | String c r =>
      String (if Ascii.eqb c "+" then " "%char else c) (plus_to_space r)
  end.

Fixpoint percent_decode (s : string) : string :=
  match s with
  | EmptyString => EmptyString
  | String c r =>
      if Ascii.eqb c "%" then
        match r with
        | String h1 (String h2 r') =>
            match hex_value h1, hex_value h2 with
            | Some a, Some b =>
                String (ascii_of_N (16 * a + b)) (percent_decode r')
            | _, _ => String c (percent_decode r)
            end
        | _ => String c (percent_decode r)
        end
      else String c (percent_decode r)
  end.

Definition form_decode (s : string) : string :=
  percent_decode (plus_to_space s).

Definition parse_pair (piece : string) : string * string :=
  let (name, value) := break "=" piece in
  (form_decode name,
   form_decode (match value with Some v => v | None => EmptyString end)).

Definition strip_question (s : string) : string :=
  match s with
  | String c r => if Ascii.eqb c "?" then r else s
  | EmptyString => s
  end.

Definition URLSearchParams (init : string) : list (string * string) :=
  map parse_pair
      (filter (fun p => negb (is_empty p)) (split "&" (strip_question init))).

(** [params.getAll(name)]. *)
Definition getAll (name : string) (params : list (string * string))
  : list string :=
  map snd (filter (fun p => String.eqb (fst p) name) params).

(** *** The address bar

    [window.location.search] after
    [history.replaceState(null, null, location.pathname + state)].  The
    URL parser drops the control characters and spaces at the end of its
    input and every tab and newline in it; the query starts after the
    first [?], unless a [#] comes first, and ends before the next [#];
    the bytes of its query set are written as [%XX].  The getter gives
    the empty string for no query and for an empty one.  The path ends
    in no control character or space, and the document is in UTF-8. *)
Fixpoint trim_end (s : string) : string :=
  match s with
  | EmptyString => EmptyString
  | String c r =>
      let r' := trim_end r in
      if is_empty r' && (code c <=? 32)%N then EmptyString else String c r'
  end.

Definition is_tab_or_newline (c : ascii) : bool :=
  (code c =? 9)%N || (code c =? 10)%N || (code c =? 13)%N.

Fixpoint remove_tab_newline (s : string) : string :=
  match s with
  | EmptyString => EmptyString
  | String c r =>
      if is_tab_or_newline c then remove_tab_newline r
      else String c (remove_tab_newline r)
  end.

(** What follows the first [?] of the input, when no [#] comes
    before. *)
Fixpoint after_path (s : string) : option string :=
  match s with
  | EmptyString => None
  | String c r =>
      if Ascii.eqb c "?" then Some r
      else if Ascii.eqb c "#" then None
      else after_path r
  end.

Fixpoint before_hash (s : string) : string :=
  match s with
  | EmptyString => EmptyString
  | String c r => if Ascii.eqb c "#" then EmptyString else String c (before_hash r)
  end.

(** The query percent-encode set, and the one of the special schemes
    (http, https and the like), which has the apostrophe too. *)
Definition in_query_set (special : bool) (c : ascii) : bool :=
  (code c <=? 32)%N || (code c =? 34)%N || (code c =? 35)%N
  || (code c =? 60)%N || (code c =? 62)%N || (126 <? code c)%N
  || (special && (code c =? 39)%N).

Definition hex_upper (n : N) : ascii :=
  if (n <? 10)%N then ascii_of_N (48 + n) else ascii_of_N (55 + n).

Definition percent_encode_char (special : bool) (c : ascii) : string :=
  if in_query_set special c
  then String "%" (String (hex_upper (code c / 16))
                          (String (hex_upper (code c mod 16)) EmptyString))
  else String c EmptyString.

Fixpoint percent_encode (special : bool) (s : string) : string :=
  match s with
  | EmptyString => EmptyString
  | String c r => percent_encode_char special c ++ percent_encode special r
  end.

Definition location_search (special : bool) (state : string) : string :=
  match after_path (remove_tab_newline (trim_end state)) with
  | None => EmptyString
  | Some rest =>
      let query_ := percent_encode special (before_hash rest) in
      if is_empty query_ then EmptyString else String "?" query_
  end.

(** *** JSON.stringify on strings *)
Definition dquote : ascii := ascii_of_N 34.
Definition backslash : ascii := ascii_of_N 92.

Definition hex_digit (n : N) : ascii :=
  if (n <? 10)%N then ascii_of_N (48 + n) else ascii_of_N (87 + n).

Definition json_escape_char (c : ascii) : string :=
  let n := code c in
  if (n =? 34)%N then String backslash (String dquote EmptyString)
  else if (n =? 92)%N then String backslash (String backslash EmptyString)
  else if (n =? 8)%N then String backslash "b"
  else if (n =? 12)%N then String backslash "f"
  else if (n =? 10)%N then String backslash "n"
  else if (n =? 13)%N then String backslash "r"
  else if (n =? 9)%N then String backslash "t"
  else if (n <? 32)%N then
    String backslash
      ("u00" ++ String (hex_digit (n / 16)) (String (hex_digit (n mod 16)) EmptyString))
  else String c EmptyString.

Fixpoint json_escape (s : string) : string :=
  match s with
  | EmptyString => EmptyString
  | String c r => json_escape_char c ++ json_escape r
  end.

Definition json_string (s : string) : string :=
  String dquote (json_escape s ++ String dquote EmptyString).

(** *** Arrays with holes

    The page store is an array indexed by page number whose index 0 is
    never written.  [Vue.set(arr, i, v)] lengthens the array to [i]
    when it is shorter and then splices [v] in at [i]. *)
Section Sparse.
Context {A : Type}.

Definition at_index (i : Z) (l : list (option A)) : option A :=
  if i <? 0 then None
  else match nth_error l (Z.to_nat i) with
       | Some (Some a) => Some a
       | _ => None
       end.

Fixpoint splice (n : nat) (v : A) (l : list (option A))
  : list (option A) :=
  match n, l with
  | O, [] => [Some v]
  | O, _ :: l' => Some v :: l'
  | S n', [] => None :: splice n' v []
  | S n', x :: l' => x :: splice n' v l'
  end.

(** Only called with [0 <= i]. *)
Definition set_index (i : Z) (v : A) (l : list (option A))
  : list (option A) :=
  splice (Z.to_nat i) v l.
End Sparse.

End Js.


(* ================================================================== *)
(** ** Data model *)
(* ================================================================== *)

(** A query value is a scalar (a number or a string) or an array of
    scalars.  A number is an integer, [Num], or one with digits after
    the point, [Dec], which stands for a number when it is
    [Js.plain_decimal]. *)
Inductive scalar : Type :=
| Num (z : Z)
| Str (s : string)
| Dec (whole : Decimal.int) (places : Decimal.uint).

Inductive value : Type :=
| Scalar (a : scalar)
| Array (l : list scalar).

Definition Query : Type := Js.obj value.

Definition scalar_eqb (a b : scalar) : bool :=
  match a, b with
  | Num x, Num y => x =? y
  | Str x, Str y => String.eqb x y
  | Dec i f, Dec i' f' => Decimal.int_beq i i' && Decimal.uint_beq f f'
  | _, _ => false
  end.

(** The text a template literal gives a scalar. *)
Definition scalar_text (a : scalar) : string :=
  match a with
  | Num z => Js.number_to_string z
  | Str s => s
  | Dec whole places => Js.decimal_to_string whole places
  end.

(** [JSON.stringify] on a query whose values are scalars or arrays of
    scalars. *)
Definition json_scalar (a : scalar) : string :=
  match a with
  | Num z => Js.number_to_string z
  | Str s => Js.json_string s
  | Dec whole places => Js.decimal_to_string whole places
  end.

Definition json_value (v : value) : string :=
  match v with
  | Scalar a => json_scalar a
  | Array l => "[" ++ Js.join "," (map json_scalar l) ++ "]"
  end.

Definition JSON_stringify (q : Query) : string :=
  "{" ++ Js.join ","
           (map (fun kv => Js.json_string (fst kv) ++ ":" ++ json_value (snd kv)) q)
      ++ "}".

(* ================================================================== *)
(** ** Query codec: [buildUrlQuery] and [buildJsonQuery] *)
(* ================================================================== *)

(** [.filter(k => (k))] on the mapped keys: [false] and the empty string
    are dropped. *)
Fixpoint truthy (l : list (option string)) : list string :=
  match l with
  | [] => []
  | None :: l' => truthy l'
  | Some s :: l' => if Js.is_empty s then truthy l' else s :: truthy l'
  end.

(** What the callback of [Object.keys(query).map] returns for one key:
    [None] stands for [false]. *)
Definition url_piece (omit : list string) (rev : Js.obj string)
           (kv : string * value) : option string :=
  let (k, v) := kv in
  if Js.includes k omit then None
  else
    let map_ := match Js.get k rev with Some m => m | None => k end in
    Some match v with
         | Array l =>
             Js.join "&" (map (fun a => map_ ++ "[]=" ++ scalar_text a) l)
         | Scalar a => map_ ++ "=" ++ scalar_text a
         end.

(** [omit = false] is [[]] and [rev = false] is the empty object: both
    guards of the source then fail for every key. *)
Definition buildUrlQuery (query : Query) (omit : list string)
           (rev : Js.obj string) : string :=
  let q := Js.join "&" (truthy (map (url_piece omit rev) query)) in
  if Js.is_empty q then EmptyString else "?" ++ q.

(** [(isNaN(value)) ? value : +value]. *)
Definition to_scalar (value_ : string) : option scalar :=
  match Js.string_to_number value_ with
  | Js.IsNaN => Some (Str value_)
  | Js.IsInt z => Some (Num z)
  | Js.IsDec whole places => Some (Dec whole places)
  | Js.Unmodelled => None
  end.

Fixpoint to_scalars (l : list string) : option (list scalar) :=
  match l with
  | [] => Some []
  | x :: l' =>
      a <- to_scalar x ;;
      r <- to_scalars l' ;;
      Some (a :: r)
  end.

(** The value of a callback or of a loop, or the [TypeError] it
    throws. *)
Inductive Mapped (A : Type) : Type :=
| Value (a : A)
| TypeError.
Arguments Value {A} a.
Arguments TypeError {A}.

(** The callback of [params.forEach], run over the pairs [rest] of
    [params] in order, on the object [q] it fills.  The call
    [q.hasOwnProperty(k)] throws once [q] has an own key
    [hasOwnProperty], and [q[k] = ...] gives [q] no own key when [k] is
    [__proto__].  A key that is an array index leaves the model. *)
Fixpoint forEach_param (params rest : list (string * string)) (q : Query)
  : option (Mapped Query) :=
  match rest with
  | [] => Some (Value q)
  | (key, _) :: rest' =>
      let k := Js.replace_brackets key in
      if negb (Js.has_method q) then Some TypeError
      else if Js.hasOwnProperty k q then forEach_param params rest' q
      else if Js.index_like k then None
      else
        vs <- to_scalars (Js.getAll key params) ;;
        forEach_param params rest' (Js.assign k (Array vs) q)
  end.

(** The reverse mapping of the history map, one entry at a time, with
    the same call and the same assignment. *)
Fixpoint reverse_map (hmap : Js.obj string) (q : Query)
  : option (Mapped Query) :=
  match hmap with
  | [] => Some (Value q)
  | (key, target) :: hmap' =>
      if negb (Js.has_method q) then Some TypeError
      else
        match Js.get target q with
        | Some v =>
            if Js.index_like key then None
            else reverse_map hmap' (Js.delete target (Js.assign key v q))
        | None => reverse_map hmap' q
        end
  end.

(** The result of [buildJsonQuery]: [false] for the empty string, an
    object otherwise, unless a [TypeError] is thrown on the way. *)
Inductive JsonQuery : Type :=
| JFalse
| JObject (q : Query)
| JTypeError.

Definition buildJsonQuery (history_map : Js.obj string) (query : string)
  : option JsonQuery :=
  if Js.is_empty query then Some JFalse
  else
    let params := Js.URLSearchParams query in
    filled <- forEach_param params params [] ;;
    match filled with
    | TypeError => Some JTypeError
    | Value q =>
        mapped <- reverse_map history_map q ;;
        Some match mapped with
             | TypeError => JTypeError
             | Value q' => JObject q'
             end
    end.


(* ================================================================== *)
(** ** Terms, pages and the component state *)
(* ================================================================== *)

(** A filter, as the [terms] map of [maps()] builds it. *)
Module Filter.
Record t : Type := mk {
  id : Z;
  name : string;
  slug : string;
  parent : string;
  active : bool;
  checked : bool
}.

Definition set_checked (b : bool) (f : t) : t :=
  mk (id f) (name f) (slug f) (parent f) (active f) b.

(** [this.$set(event.data, 'checked', !event.data.checked)] *)
Definition flip (f : t) : t := set_checked (negb (checked f)) f.
End Filter.

(** A taxonomy.  Its [checked] property is absent until the first
    interaction sets it. *)
Module Taxonomy.
Record t : Type := mk {
  name : string;
  slug : string;
  checked : option bool;
  filters : list Filter.t
}.

Definition set_checked (b : bool) (x : t) : t :=
  mk (name x) (slug x) (Some b) (filters x).

Definition set_filters (fs : list Filter.t) (x : t) : t :=
  mk (name x) (slug x) (checked x) fs.

(** [tax.filters.filter(t => t.checked).length === tax.filters.length] *)
Definition all_checked (x : t) : bool :=
  (List.length (List.filter Filter.checked (filters x))
   =? List.length (filters x))%nat.

(** The flag of the taxonomy, set from its filters as [click] does. *)
Definition recheck (x : t) : t := set_checked (all_checked x) x.
End Taxonomy.

(** The pagination headers; each holds a number, or the header text
    when that text is not numeric. *)
Module Headers.
Record t : Type := mk {
  pages : scalar;
  total : scalar;
  link : scalar
}.
End Headers.

(** The [posts] property of a page: the mapped items, or [false] after a
    payload that was not an array. *)
Inductive Posts (item : Type) : Type :=
| NoPosts
| PostList (l : list item).
Arguments NoPosts {item}.
Arguments PostList {item} l.

Module Page.
Record t (item : Type) : Type := mk {
  posts : Posts item;
  query : Query;
  show : bool;
  headers : option Headers.t
}.
Arguments mk {item}.
Arguments posts {item}.
Arguments query {item}.
Arguments show {item}.
Arguments headers {item}.

Definition set_show {item} (b : bool) (p : t item) : t item :=
  mk (posts p) (query p) b (headers p).

Definition set_posts {item} (ps : Posts item) (p : t item) : t item :=
  mk ps (query p) (show p) (headers p).

Definition set_headers {item} (h : Headers.t) (p : t item) : t item :=
  mk (posts p) (query p) (show p) (Some h).
End Page.

(** What [response.json()] resolves to: an array of items, or another
    JSON value, kept as its text. *)
Inductive Json (raw : Type) : Type :=
| JArray (l : list raw)
| JOther (text : string).
Arguments JArray {raw} l.
Arguments JOther {raw} text.

Module Response.
Record t (raw : Type) : Type := mk {
  ok : bool;
  x_wp_total : option string;
  x_wp_totalpages : option string;
  link : option string;
  body : option (Json raw)     (* [None]: [response.json()] rejects *)
}.
Arguments mk {raw}.
Arguments ok {raw}.
Arguments x_wp_total {raw}.
Arguments x_wp_totalpages {raw}.
Arguments link {raw}.
Arguments body {raw}.
End Response.

(** The outcome of [fetch(url)]. *)
Inductive Fetched (raw : Type) : Type :=
| Rejected
| Resolved (r : Response.t raw).
Arguments Rejected {raw}.
Arguments Resolved {raw} r.

(** What [this.error] is called with. *)
Inductive Failure : Type :=
| Exception                                   (* a rejection or a throw *)
| BadPayload (error : string) (query : Query). (* [{error: data, query: query}] *)

(** The result of a synchronous method: it returns, or it throws a
    [TypeError] and leaves the state as it was at the throw. *)
Inductive completion (A : Type) : Type :=
| Returns (a : A)
| Throws (a : A).
Arguments Returns {A} a.
Arguments Throws {A} a.

Section Archive.

(** An item as the API sends it and as the view shows it. *)
Variables raw item : Type.

(** The configuration part of [data]: never written by the methods. *)
Record Config : Type := {
  type : string;
  params : list string;
  endpoints : Js.obj string;
  domain : string;
  lang_path : string;
  maps : string -> option (raw -> item);
  history_omit : list string;
  history_map : Js.obj string;
  history_filterParams : bool
}.

(** The mutable part of [data], with the two collaborators the methods
    act on: the address bar ([address], the query strings given to
    [window.history.replaceState], latest first) and the error handler
    ([reported], the arguments of [this.error], latest first). *)
Record State : Type := {
  init : bool;
  terms : list Taxonomy.t;
  query : Query;
  headers : Headers.t;
  posts : list (option (Page.t item));
  address : list string;
  reported : list Failure
}.

Definition set_init (b : bool) (s : State) : State :=
  Build_State b (terms s) (query s) (headers s) (posts s) (address s) (reported s).

Definition set_terms (ts : list Taxonomy.t) (s : State) : State :=
  Build_State (init s) ts (query s) (headers s) (posts s) (address s) (reported s).

Definition set_query (q : Query) (s : State) : State :=
  Build_State (init s) (terms s) q (headers s) (posts s) (address s) (reported s).

Definition set_headers (h : Headers.t) (s : State) : State :=
  Build_State (init s) (terms s) (query s) h (posts s) (address s) (reported s).

Definition set_posts (ps : list (option (Page.t item))) (s : State) : State :=
  Build_State (init s) (terms s) (query s) (headers s) ps (address s) (reported s).

Definition push_address (a : string) (s : State) : State :=
  Build_State (init s) (terms s) (query s) (headers s) (posts s)
              (a :: address s) (reported s).

(** [this.error(response)]. *)
Definition error (f : Failure) (s : State) : State :=
  Build_State (init s) (terms s) (query s) (headers s) (posts s)
              (address s) (f :: reported s).

(** [this.query.page] when it is a number. *)
Definition page_of (q : Query) : option Z :=
  match Js.get "page" q with
  | Some (Scalar (Num p)) => Some p
  | _ => None
  end.

(** The data of a fresh component. *)
Definition default_query : Query :=
  [("page", Scalar (Num 1)); ("per_page", Scalar (Num 5))].

Definition default_headers : Headers.t :=
  Headers.mk (Num 0) (Num 0)
    (Str ("rel=" ++ String Js.dquote ("next" ++ String Js.dquote ";"))).

Definition initial : State :=
  Build_State false [] default_query default_headers [] [] [].

(* ------------------------------------------------------------------ *)
(** *** Computed properties *)

(** Truth of a scalar: a number with digits after the point is not
    0. *)
Definition truthy_scalar (a : scalar) : bool :=
  match a with
  | Num z => negb (z =? 0)
  | Str s => negb (Js.is_empty s)
  | Dec _ _ => true
  end.

(** [number < a] for an integer [number]: a header that is a string is
    one [isNaN] kept as a string, and comparing with it is false; an
    integer is below a number that is not one when it is at most the
    integer below that number. *)
Definition less_than (number : Z) (a : scalar) : bool :=
  match a with
  | Num z => number <? z
  | Str _ => false
  | Dec whole _ => number <=? Js.decimal_floor whole
  end.

(** Truth of [page.posts.length]; [false.length] is [undefined]. *)
Definition has_posts (ps : Posts item) : bool :=
  match ps with
  | NoPosts => false
  | PostList l => negb (List.length l =? 0)%nat
  end.

(** [loading].  Reading [page.posts] of an absent page throws. *)
Definition loading (s : State) : option (completion bool) :=
  if (List.length (posts s) =? 0)%nat then Some (Returns false)
  else
    number <- page_of (query s) ;;
    if negb (init s) then Some (Returns false)
    else match Js.at_index number (posts s) with
         | None => Some (Throws false)
         | Some page =>
             Some (Returns (negb (has_posts (Page.posts page)) && Page.show page))
         end.

(** [none] *)
Definition none (s : State) : bool :=
  negb (truthy_scalar (Headers.pages (headers s)))
  && negb (truthy_scalar (Headers.total (headers s))).

(** [next] *)
Definition next (s : State) : option (completion bool) :=
  if (List.length (posts s) =? 0)%nat then Some (Returns false)
  else
    number <- page_of (query s) ;;
    if negb (less_than number (Headers.pages (headers s)))
    then Some (Returns false)
    else match Js.at_index number (posts s) with
         | None => Some (Throws false)
         | Some page =>
             Some (Returns (has_posts (Page.posts page) && Page.show page))
         end.

(** [previous] *)
Definition previous (s : State) : option bool :=
  number <- page_of (query s) ;;
  Some (1 <? number).

(** [postsFlat]: the absent entries are skipped by [page && page.show]. *)
Definition postsFlat (s : State) : list item :=
  flat_map
    (fun e => match e with
              | Some page =>
                  if Page.show page
                  then match Page.posts page with
                       | PostList l => l
                       | NoPosts => []
                       end
                  else []
              | None => []
              end)
    (posts s).

(** [totalFilters] *)
Definition totalFilters (s : State) : nat :=
  fold_left
    (fun acc cur =>
       (acc + List.length (List.filter Filter.checked (Taxonomy.filters cur)))%nat)
    (terms s) 0%nat.

(** What the callback of [this.posts.map] in [totalVisible] returns:
    the [length] of [false] is [undefined], here [None]. *)
Definition visible_length (e : option (Page.t item)) : option nat :=
  match e with
  | Some page =>
      if Page.show page
      then match Page.posts page with
           | PostList l => Some (List.length l)
           | NoPosts => None
           end
      else Some 0%nat
  | None => Some 0%nat
  end.

(** [acc + cur]: a sum with [undefined] is [NaN], here [None], and
    stays [NaN]. *)
Definition add_number (acc cur : option nat) : option nat :=
  match acc, cur with
  | Some a, Some c => Some (a + c)%nat
  | _, _ => None
  end.

(** [totalVisible]: a number, or [NaN] ([None]) when a shown page holds
    [false] for its posts. *)
Definition totalVisible (s : State) : option nat :=
  fold_left add_number (map visible_length (posts s)) (Some 0%nat).

(* ------------------------------------------------------------------ *)
(** *** The fetch controller

    A run of [queue] is followed from its first turn to its last: each
    awaited chain is taken as one step, and no other handler runs
    between two turns.  Two runs whose requests overlap in time are not
    described. *)

Variable cfg : Config.

(** The network: what [fetch(url)] settles to. *)
Variable net : string -> Fetched raw.

(** [Object.keys(query).map(p => { if (this.params.includes(p)) ... })] *)
Definition safe_params (query_ : Query) : Query :=
  List.filter (fun kv => Js.includes (fst kv) (params cfg)) query_.

(** [replaceState] *)
Definition replaceState (query_ : Query) (s : State) : State :=
  let history :=
    if history_filterParams cfg then safe_params query_ else query_ in
  let state := buildUrlQuery history (history_omit cfg) (history_map cfg) in
  push_address state s.

(** The url [wpQuery] requests; a missing endpoint joins as the empty
    string. *)
Definition request_url (query_ : Query) : string :=
  Js.join EmptyString
    [domain cfg;
     lang_path cfg;
     match Js.get (type cfg) (endpoints cfg) with
     | Some e => e
     | None => EmptyString
     end;
     buildUrlQuery (safe_params query_) [] []].

(** [wpQuery]: stores the page entry, then returns the request, given
    here by its url. *)
Definition wpQuery (query_ : Query) (s : State) : option (State * string) :=
  target <- page_of query_ ;;
  number <- page_of (query s) ;;
  Some (set_posts
          (Js.set_index target
             (Page.mk (PostList []) query_ (target <=? number) None)
             (posts s))
          s,
        request_url query_).

(** [(isNaN(header)) ? header : (parseInt(header) || 0)]; an absent
    header is [null], which is not [NaN] and parses to [NaN]. *)
Definition header_value (header : option string) : option scalar :=
  match header with
  | None => Some (Num 0)
  | Some text =>
      match Js.string_to_number text with
      | Js.IsNaN => Some (Str text)
      | Js.IsInt z => Some (Num z)
      | Js.IsDec whole places => Some (Dec whole places)
      | Js.Unmodelled => None
      end
  end.

(** The loop of [response] over the keys [total], [pages], [link]. *)
Definition read_headers (r : Response.t raw) : option Headers.t :=
  total <- header_value (Response.x_wp_total r) ;;
  pages <- header_value (Response.x_wp_totalpages r) ;;
  link <- header_value (Response.link r) ;;
  Some (Headers.mk pages total link).

(** [response]: the headers are read and stored under [response.ok]
    only.  The body it returns is taken from the response by [queue]. *)
Definition response (r : Response.t raw) (s : State) : option State :=
  if Response.ok r then
    headers_ <- read_headers r ;;
    Some (set_headers headers_ s)
  else Some s.

(** [process] *)
Definition process (data : Json raw) (query_ : Query)
           (headers_ : Headers.t) (s : State) : option (completion State) :=
  target <- page_of query_ ;;
  match data, maps cfg (type cfg) with
  | JArray _, None => Some (Throws s)
  | _, _ =>
      let posts_ :=
        match data, maps cfg (type cfg) with
        | JArray l, Some f => PostList (map f l)
        | _, _ => NoPosts
        end in
      match Js.at_index target (posts s) with
      | None => Some (Throws s)
      | Some page =>
          let s1 :=
            set_posts
              (Js.set_index target
                 (Page.set_headers headers_ (Page.set_posts posts_ page))
                 (posts s))
              s in
          let s2 :=
            match data with
            | JArray _ => s1
            | JOther text => error (BadPayload text query_) s1
            end in
          Some (Returns (set_init true s2))
      end
  end.

(** [havePage && pageQueryMatches] *)
Definition have_matching_page (Obj1 : Query) (target : Z) (s : State) : bool :=
  match Js.at_index target (posts s) with
  | Some page =>
      let Obj2 := Js.delete "page" (Page.query page) in
      String.eqb (JSON_stringify Obj1) (JSON_stringify Obj2)
  | None => false
  end.

(** The awaited chain of a turn: [wpQuery], [response], the handler of
    the data, and [.catch(this.error)] for a rejection or a throw on the
    way. *)
Definition chain (current : bool) (query_ : Query) (s : State)
  : option State :=
  sent <- wpQuery query_ s ;;
  let (s1, url) := sent in
  match net url with
  | Rejected => Some (error Exception s1)
  | Resolved r =>
      s2 <- response r s1 ;;
      match Response.body r with
      | None => Some (error Exception s2)
      | Some data =>
          let headers_ := headers s2 in
          let s3 := if current then replaceState query_ s2 else s2 in
          done <- process data query_ headers_ s3 ;;
          Some match done with
               | Returns s4 => s4
               | Throws s4 => error Exception s4
               end
      end
  end.

(** One turn of the loop of [queue], for the offset [queries[i]].  The
    awaited chain runs to its end before the next turn. *)
Definition queue_turn (Obj1 : Query) (offset : Z) (s : State)
  : option State :=
  page <- page_of (query s) ;;
  let pages := Headers.pages (headers s) in
  let query_ := Js.set "page" (Scalar (Num (page + offset))) (query s) in
  if page + offset <=? 0 then Some s
  else if have_matching_page Obj1 (page + offset) s then Some s
  else
    let current := (page + offset =? page) in
    let next_ := less_than page pages && (page <? page + offset) in
    let previous_ := (1 <? page) && (page + offset <? page) in
    if current || next_ || previous_ then chain current query_ s
    else Some s.

Fixpoint queue_loop (Obj1 : Query) (queries : list Z) (s : State)
  : option State :=
  match queries with
  | [] => Some s
  | offset :: rest =>
      s' <- queue_turn Obj1 offset s ;;
      queue_loop Obj1 rest s'
  end.

(** [queue] *)
Definition queue (queries : list Z) (s : State) : option State :=
  let Obj1 := Js.delete "page" (query s) in
  queue_loop Obj1 queries s.

(** [wp] *)
Definition wp (s : State) : option State := queue [0; 1] s.

(** [getState], on the text of [window.location.search].  A
    [TypeError] of [buildJsonQuery] is thrown on.  A query with an own
    key [hasOwnProperty] is not described by the model, so an address
    that would set one leaves it. *)
Definition getState (search : string) (s : State)
  : option (completion State) :=
  decoded <- buildJsonQuery (history_map cfg) search ;;
  match decoded with
  | JFalse => Some (Returns s)
  | JTypeError => Some (Throws s)
  | JObject q =>
      if Js.hasOwnProperty "hasOwnProperty" q then None
      else
        Some (Returns
                (set_query
                   (fold_left (fun acc kv => Js.set (fst kv) (snd kv) acc)
                              q (query s))
                   s))
  end.

(* ------------------------------------------------------------------ *)
(** *** Filters *)

(** [if (value) this.$set(this.posts[index], 'show', false)] *)
Definition hide (e : option (Page.t item)) : option (Page.t item) :=
  match e with
  | Some page => Some (Page.set_show false page)
  | None => None
  end.

(** [updateQuery]: the body of the promise.  Its continuation
    [.then(this.wp)] runs once the calling handler has returned; it is
    [wp] on the state the handler leaves. *)
Definition updateQuery (taxonomy : string) (terms_ : value) (s : State)
  : State :=
  let q := Js.set "page" (Scalar (Num 1)) (Js.set taxonomy terms_ (query s)) in
  set_posts (map hide (posts s)) (set_query q s).

(** [this.terms.find(t => t.slug === taxonomy)], as an index. *)
Fixpoint find_taxonomy (taxonomy : string) (ts : list Taxonomy.t)
  : option nat :=
  match ts with
  | [] => None
  | x :: ts' =>
      if String.eqb (Taxonomy.slug x) taxonomy then Some O
      else option_map S (find_taxonomy taxonomy ts')
  end.

(** Writing through a reference to an object of a list. *)
Fixpoint update_nth {A : Type} (n : nat) (f : A -> A) (l : list A) : list A :=
  match n, l with
  | _, [] => []
  | O, x :: l' => f x :: l'
  | S n', x :: l' => x :: update_nth n' f l'
  end.

(** [filter].  [terms.includes] is missing on a number, and on a string
    it is the substring test, after which [terms.filter] is missing. *)
Definition filter (taxonomy : string) (term : Z) (s : State)
  : completion State :=
  match Js.get taxonomy (query s) with
  | None => Returns (updateQuery taxonomy (Array [Num term]) s)
  | Some (Array l) =>
      let terms_ :=
        if existsb (scalar_eqb (Num term)) l
        then List.filter (fun el => negb (scalar_eqb el (Num term))) l
        else (l ++ [Num term])%list in
      Returns (updateQuery taxonomy (Array terms_) s)
  | Some (Scalar (Num _)) => Throws s
  | Some (Scalar (Dec _ _)) => Throws s
  | Some (Scalar (Str text)) =>
      match String.index 0 (Js.number_to_string term) text with
      | Some _ => Throws s
      | None =>
          Returns (updateQuery taxonomy
                     (Scalar (Str (text ++ Js.number_to_string term))) s)
      end
  end.

(** [filterAll] *)
Definition filterAll (taxonomy : string) (s : State) : completion State :=
  match find_taxonomy taxonomy (terms s) with
  | None => Throws s
  | Some i =>
      match nth_error (terms s) i with
      | None => Throws s
      | Some tax =>
          let checked :=
            match Taxonomy.checked tax with
            | Some b => negb b
            | None => negb (Taxonomy.all_checked tax)
            end in
          let ids := map (fun term => Num (Filter.id term)) (Taxonomy.filters tax) in
          let tax' :=
            Taxonomy.set_filters
              (map (Filter.set_checked checked) (Taxonomy.filters tax))
              (Taxonomy.set_checked checked tax) in
          let s1 := set_terms (update_nth i (fun _ => tax') (terms s)) s in
          Returns (updateQuery taxonomy (Array (if checked then ids else [])) s1)
      end
  end.

(** The [data] of a click event: a filter object of the store, given by
    its place, or an object of the caller's own with the two documented
    properties ([id] is 0 when it is left out). *)
Inductive EventData : Type :=
| Stored (tax_index filter_index : nat)
| Literal (parent : string) (id : Z).

Definition stored_filter (ti fi : nat) (s : State) : option Filter.t :=
  match nth_error (terms s) ti with
  | Some tax => nth_error (Taxonomy.filters tax) fi
  | None => None
  end.

Definition flip_checked (ti fi : nat) (s : State) : State :=
  set_terms
    (update_nth ti
       (fun tax =>
          Taxonomy.set_filters
            (update_nth fi Filter.flip (Taxonomy.filters tax)) tax)
       (terms s))
    s.

(** The part of [click] after the filter's own flag is flipped. *)
Definition check_parent (taxonomy : string) (term : Z) (s : State)
  : completion State :=
  match find_taxonomy taxonomy (terms s) with
  | None => Throws s
  | Some i =>
      filter taxonomy term
        (set_terms (update_nth i Taxonomy.recheck (terms s)) s)
  end.

(** [click] *)
Definition click (data : EventData) (s : State) : completion State :=
  match data with
  | Literal taxonomy term =>
      if term =? 0 then filterAll taxonomy s
      else check_parent taxonomy term s
  | Stored ti fi =>
      match stored_filter ti fi s with
      | None => Throws s
      | Some f =>
          let taxonomy := Filter.parent f in
          let term := Filter.id f in
          if term =? 0 then filterAll taxonomy s
          else check_parent taxonomy term (flip_checked ti fi s)
      end
  end.

(** [toggle] *)
Definition toggle (parent : string) (s : State) : completion State :=
  filterAll parent s.

(** [reset]: the body of the loop at [index], then the loop. *)
Definition reset_at (index : nat) (s : State) : State :=
  match nth_error (terms s) index with
  | None => s
  | Some tax =>
      let s1 := updateQuery (Taxonomy.slug tax) (Array []) s in
      set_terms
        (update_nth index
           (fun x =>
              Taxonomy.set_filters
                (map (Filter.set_checked false) (Taxonomy.filters x))
                (Taxonomy.set_checked false x))
           (terms s1))
        s1
  end.

Definition reset (s : State) : State :=
  fold_left (fun acc index => reset_at index acc)
            (seq 0 (List.length (terms s))) s.

(** [paginate], for the amount [change] of the clicked element.  A throw
    is the rejection of the promise it returns. *)
Definition paginate (change : Z) (s : State) : option (completion State) :=
  number <- page_of (query s) ;;
  let page := number + change in
  let s1 := set_query (Js.set "page" (Scalar (Num page)) (query s)) s in
  match Js.at_index page (posts s1) with
  | None => Some (Throws s1)
  | Some entry =>
      let s2 :=
        set_posts (Js.set_index page (Page.set_show true entry) (posts s1)) s1 in
      s3 <- queue [0; change] s2 ;;
      Some (Returns s3)
  end.

End Archive.

Arguments init {item} s.
Arguments terms {item} s.
Arguments query {item} s.
Arguments headers {item} s.
Arguments posts {item} s.
Arguments address {item} s.
Arguments reported {item} s.
Arguments initial {item}.
Arguments loading {item} s.
Arguments next {item} s.
Arguments updateQuery {item} taxonomy terms_ s.
Arguments filter {item} taxonomy term s.
Arguments filterAll {item} taxonomy s.
Arguments click {item} data s.
Arguments toggle {item} parent s.
Arguments reset {item} s.
Arguments reset_at {item} index s.
Arguments stored_filter {item} ti fi s.
Arguments response {raw item} r s.
Arguments read_headers {raw} r.
Arguments hide {item} e.
Arguments queue {raw item} cfg net queries s.
Arguments queue_loop {raw item} cfg net Obj1 queries s.
Arguments queue_turn {raw item} cfg net Obj1 offset s.
Arguments chain {raw item} cfg net current query_ s.
Arguments type {raw item} c.
Arguments params {raw item} c.
Arguments endpoints {raw item} c.
Arguments domain {raw item} c.
Arguments lang_path {raw item} c.
Arguments maps {raw item} c.
Arguments history_omit {raw item} c.
Arguments history_map {raw item} c.
Arguments history_filterParams {raw item} c.
Arguments set_init {item} b s.
Arguments set_terms {item} ts s.
Arguments set_query {item} q s.
Arguments set_headers {item} h s.
Arguments set_posts {item} ps s.
Arguments push_address {item} a s.
Arguments error {item} f s.
Arguments safe_params {raw item} cfg query_.
Arguments flip_checked {item} ti fi s.
Arguments check_parent {item} taxonomy term s.
Arguments previous {item} s.
Arguments none {item} s.
Arguments has_posts {item} ps.
Arguments postsFlat {item} s.
Arguments totalVisible {item} s.
Arguments visible_length {item} e.
Arguments totalFilters {item} s.
Arguments getState {raw item} cfg search s.
Arguments wp {raw item} cfg net s.
Arguments wpQuery {raw item} cfg query_ s.
Arguments process {raw item} cfg data query_ headers_ s.
Arguments replaceState {raw item} cfg query_ s.
Arguments request_url {raw item} cfg query_.
Arguments paginate {raw item} cfg net change s.
Arguments have_matching_page {item} Obj1 target s.

(** The configuration a fresh component starts with, for a given map of
    the [posts] endpoint and an English document. *)
Definition default_params : list string :=
  ["context"; "page"; "per_page"; "search"; "after"; "author";
   "author_exclude"; "before"; "exclude"; "include"; "offset"; "order";
   "orderby"; "slug"; "status"; "tax_relation"; "categories";
   "categories_exclude"; "tags"; "tags_exclude"; "sticky"].

Definition default_config {raw item : Type} (posts_map : raw -> item)
  : Config raw item :=
  {| type := "posts";
     params := default_params;
     endpoints := [("terms", "/wp-json/api/v1/terms");
                   ("posts", "/wp-json/wp/v2/posts")];
     domain := EmptyString;
     lang_path := EmptyString;
     maps := fun endpoint =>
               if String.eqb endpoint "posts" then Some posts_map else None;
     history_omit := ["page"; "per_page"];
     history_map := [];
     history_filterParams := false |}.

(* ================================================================== *)
(** ** Vocabulary of the statements *)
(* ================================================================== *)

(** The state a synchronous method leaves, whether it returned or threw. *)
Definition state_of {A : Type} (c : completion A) : A :=
  match c with
  | Returns a => a
  | Throws a => a
  end.

(** Every successful response carries headers the model can read. *)
Definition readable {raw : Type} (net : string -> Fetched raw) : Prop :=
  forall url r,
    net url = Resolved r -> Response.ok r = true -> read_headers r <> None.

(** The entry [wpQuery] stores for the page [target] while the current
    page of the query [q] is [number]: shown when [target <= number],
    with [q] at page [target] as its query. *)
Definition stored_for {item : Type} (target number : Z) (q : Query)
           (page : Page.t item) : Prop :=
  Page.show page = (target <=? number)
  /\ Page.query page = Js.set "page" (Scalar (Num target)) q.

(** What a change of filters leaves of an entry of the store: a hole
    stays a hole, and a page is not shown any more and holds what it
    held, its posts, the query it was fetched with and its headers. *)
Definition hidden_page {item : Type} (before after : option (Page.t item))
  : Prop :=
  match before, after with
  | None, None => True
  | Some page, Some page' =>
      Page.show page' = false
      /\ Page.posts page' = Page.posts page
      /\ Page.query page' = Page.query page
      /\ Page.headers page' = Page.headers page
  | _, _ => False
  end.

(** A text [URLSearchParams] reads as it is written: no separator of
    pairs, no plus sign and no percent sign in it. *)
Definition url_plain (s : string) : bool :=
  negb (Js.contains "&" s) && negb (Js.contains "+" s)
  && negb (Js.contains "%" s).

(** A key that survives the codec: plain, without an equals sign and
    without a pair of brackets of its own; not one of the two keys the
    object under construction takes for its own method and for its
    prototype, and not an array index. *)
Definition plain_key (k : string) : bool :=
  url_plain k && negb (Js.contains "=" k) && negb (Js.has_brackets k)
  && negb (String.eqb k "hasOwnProperty") && negb (String.eqb k "__proto__")
  && negb (Js.index_like k).

(** A scalar whose text [Number] reads back as the scalar: a safe
    integer, a plain decimal, or a string that is not the text of a
    number. *)
Definition reads_as_itself (a : scalar) : bool :=
  match a with
  | Num z => Js.safe_integer z
  | Dec whole places => Js.plain_decimal whole places
  | Str s =>
      match Js.string_to_number s with
      | Js.IsNaN => true
      | _ => false
      end
  end.

(** A scalar the codec gives back as it was: its text is plain and
    reads as the scalar. *)
Definition plain_scalar (a : scalar) : bool :=
  url_plain (scalar_text a) && reads_as_itself a.

(** The scalars of a value: a scalar is written as a list of one. *)
Definition elements (v : value) : list scalar :=
  match v with
  | Scalar a => [a]
  | Array l => l
  end.

(** The key the encoder writes for an entry. *)
Definition raw_key (kv : string * value) : string :=
  match snd kv with
  | Scalar _ => fst kv
  | Array _ => (fst kv ++ "[]")%string
  end.

(** The pairs [URLSearchParams] holds for an entry of the query. *)
Definition entry_pairs (kv : string * value) : list (string * string) :=
  map (fun a => (raw_key kv, scalar_text a)) (elements (snd kv)).

Definition has_elements (kv : string * value) : bool :=
  match elements (snd kv) with
  | [] => false
  | _ :: _ => true
  end.

(** An entry whose key and scalars are plain. *)
Definition plain_entry (kv : string * value) : bool :=
  plain_key (fst kv) && forallb plain_scalar (elements (snd kv)).

(** An entry the address can hold as it is written: a plain key, and
    scalars whose texts are plain, whatever [Number] makes of them. *)
Definition url_entry (kv : string * value) : bool :=
  plain_key (fst kv)
  && forallb (fun a => url_plain (scalar_text a)) (elements (snd kv)).

(** What the decoder reads for an entry the encoder wrote: the list of
    what [Number] makes of the texts of its scalars, a number for a
    numeric text and the text itself for any other. *)
Definition reread_entry (kv : string * value) : option (string * value) :=
  l <- to_scalars (map scalar_text (elements (snd kv))) ;;
  Some (fst kv, Array l).

Fixpoint reread (q : Query) : option Query :=
  match q with
  | [] => Some []
  | kv :: q' =>
      e <- reread_entry kv ;;
      r <- reread q' ;;
      Some (e :: r)
  end.

(** What the decoder makes of a query the encoder wrote: every value is
    a list, a scalar has become a list of one, and the keys of empty
    lists are gone. *)
Definition decoded_entry (kv : string * value) : string * value :=
  (fst kv, Array (elements (snd kv))).

Definition decoded (q : Query) : Query :=
  map decoded_entry (List.filter has_elements q).

(** Every value is a list that is not empty. *)
Definition filled_list (kv : string * value) : bool :=
  match snd kv with
  | Array (_ :: _) => true
  | _ => false
  end.

(** The text of a pair in a query string. *)
Definition pair_text (p : string * string) : string :=
  (fst p ++ String "=" (snd p))%string.

(** The array [filter] computes from the value [old] the query holds
    for a taxonomy, when that value is absent or an array. *)
Definition toggled (term : Z) (old : option value) : option (list scalar) :=
  match old with
  | None => Some [Num term]
  | Some (Array l) =>
      Some (if existsb (scalar_eqb (Num term)) l
            then List.filter (fun el => negb (scalar_eqb el (Num term))) l
            else (l ++ [Num term])%list)
  | Some (Scalar _) => None
  end.

(** The taxonomy a click event names. *)
Definition event_taxonomy {item : Type} (data : EventData) (s : State item)
  : option string :=
  match data with
  | Literal parent _ => Some parent
  | Stored ti fi => option_map Filter.parent (stored_filter ti fi s)
  end.


(** The taxonomy is one of the terms, and the query holds no scalar for
    it: the conditions under which a change of its filters returns. *)
Definition can_toggle {item : Type} (taxonomy : string) (s : State item)
  : Prop :=
  find_taxonomy taxonomy (terms s) <> None
  /\ forall a, Js.get taxonomy (query s) <> Some (Scalar a).

(** What [toggle] is about to set every filter of a taxonomy to. *)
Definition toggle_direction (tax : Taxonomy.t) : bool :=
  match Taxonomy.checked tax with
  | Some b => negb b
  | None => negb (Taxonomy.all_checked tax)
  end.

(** The terms of the demonstration: one taxonomy with two filters, as
    the [terms] map builds them for a query without filters. *)
Definition demo_terms : list Taxonomy.t :=
  [Taxonomy.mk "Categories" "categories" None
     [Filter.mk 7 "News" "news" "categories" false false;
      Filter.mk 9 "Events" "events" "categories" false false]].

(** A component that starts with a category filter in its address. *)
Definition filtered : State string :=
  set_query [("page", Scalar (Num 1)); ("per_page", Scalar (Num 5));
             ("categories", Array [Num 7])]
            initial.

(** A component configured to open on page 2, once its terms have
    arrived. *)
Definition opened_on_page_2 : State string :=
  set_terms demo_terms
    (set_query [("page", Scalar (Num 2)); ("per_page", Scalar (Num 5))]
               initial).


(** A fresh component once its terms have arrived. *)
Definition started : State string := set_terms demo_terms initial.

(** The query string [replaceState] gives the address bar for a query. *)
Definition history_state {raw item : Type} (cfg : Config raw item)
           (query_ : Query) : string :=
  buildUrlQuery
    (if history_filterParams cfg then safe_params cfg query_ else query_)
    (history_omit cfg) (history_map cfg).

(** A small installation to run the methods on: items are their
    titles, the map of the [posts] endpoint keeps them as they are. *)
Definition demo_config : Config string string :=
  default_config (fun title => title).

(** A server with three pages of posts ... *)
Definition demo_link : string :=
  "<http://localhost:8080/wp-json/wp/v2/posts?page=2>; rel=next".

Definition demo_response : Response.t string :=
  Response.mk true (Some "12") (Some "3") (Some demo_link)
              (Some (JArray ["first"; "second"])).

Definition serving (url : string) : Fetched string := Resolved demo_response.


(* ================================================================== *)
(** ** The terms endpoint: [fetch] and the [terms] map *)
(* ================================================================== *)

(** A term and a taxonomy as the terms endpoint sends them, with the
    properties the [terms] map reads; a term id is a number. *)
Module RawTerm.
Record t : Type := mk {
  term_id : Z;
  name : string;
  slug : string
}.
End RawTerm.

Module RawTaxonomy.
Record t : Type := mk {
  labels_archives : string;
  name : string;
  terms : list RawTerm.t
}.
End RawTaxonomy.

(** [d.map(callback)], left at the first throw. *)
Fixpoint map_all {A B : Type} (callback : A -> Mapped B) (d : list A)
  : Mapped (list B) :=
  match d with
  | [] => Value []
  | x :: d' =>
      match callback x with
      | TypeError => TypeError
      | Value y =>
          match map_all callback d' with
          | TypeError => TypeError
          | Value ys => Value (y :: ys)
          end
      end
  end.

(** [this.query.hasOwnProperty(name) && this.query[name].includes(id)]:
    membership in an array, the substring test on a string, and a
    [TypeError] on a number, which has no [includes]. *)
Definition query_includes (q : Query) (name : string) (term_id : Z)
  : Mapped bool :=
  match Js.get name q with
  | None => Value false
  | Some (Array l) => Value (existsb (scalar_eqb (Num term_id)) l)
  | Some (Scalar (Num _)) => TypeError
  | Some (Scalar (Dec _ _)) => TypeError
  | Some (Scalar (Str text)) =>
      Value match String.index 0 (Js.number_to_string term_id) text with
            | Some _ => true
            | None => false
            end
  end.

(** The callback of [terms.terms.map] in the [terms] map. *)
Definition filter_of (q : Query) (parent : string) (filters : RawTerm.t)
  : Mapped Filter.t :=
  match query_includes q parent (RawTerm.term_id filters) with
  | TypeError => TypeError
  | Value b =>
      Value (Filter.mk (RawTerm.term_id filters) (RawTerm.name filters)
                       (RawTerm.slug filters) parent b b)
  end.

(** The [terms] map of [maps()], for the query [q] of the component at
    the time of the call.  The taxonomy it builds has no [checked]
    property. *)
Definition terms_map (q : Query) (terms_ : RawTaxonomy.t)
  : Mapped Taxonomy.t :=
  match map_all (filter_of q (RawTaxonomy.name terms_))
                (RawTaxonomy.terms terms_) with
  | TypeError => TypeError
  | Value filters =>
      Value (Taxonomy.mk (RawTaxonomy.labels_archives terms_)
                         (RawTaxonomy.name terms_) None filters)
  end.

(** The url [fetch('terms')] requests; a missing endpoint is written
    [undefined] by the template literal. *)
Definition terms_url {raw item : Type} (cfg : Config raw item) : string :=
  (domain cfg ++ lang_path cfg
   ++ match Js.get "terms" (endpoints cfg) with
      | Some e => e
      | None => "undefined"
      end)%string.

(** [fetch('terms')], with the [terms] map above.  When the terms are
    there already they are returned as they are; otherwise [Returns] is
    the promise fulfilled and [Throws] the promise rejected, which is
    left to the caller.  The handlers of the promise are taken as one
    step. *)
Definition fetch_terms {raw item : Type} (cfg : Config raw item)
           (net : string -> Fetched RawTaxonomy.t) (s : State item)
  : completion (State item) :=
  if negb (List.length (terms s) =? 0)%nat then Returns s
  else
    match net (terms_url cfg) with
    | Rejected => Throws s
    | Resolved r =>
        match Response.body r with
        | Some (JArray d) =>
            match map_all (terms_map (query s)) d with
            | Value ts => Returns (set_terms ts s)
            | TypeError => Throws s
            end
        | Some (JOther _) => Throws s
        | None => Throws s
        end
    end.

(* ================================================================== *)
(** ** The demonstration app: [change] *)
(* ================================================================== *)

(** [change] of the demonstration: the flag of the filter is flipped,
    then [click] is called with the same filter. *)
Definition change {item : Type} (ti fi : nat) (s : State item)
  : completion (State item) :=
  click (Stored ti fi) (flip_checked ti fi s).

(* ================================================================== *)
(** ** Vocabulary of the further properties *)
(* ================================================================== *)

(** The entries [buildUrlQuery] does not omit. *)
Definition kept (omit : list string) (q : Query) : Query :=
  List.filter (fun kv => negb (Js.includes (fst kv) omit)) q.

(** An entry under the name the rename map gives its key. *)
Definition renamed (rev : Js.obj string) (kv : string * value)
  : string * value :=
  (match Js.get (fst kv) rev with Some m => m | None => fst kv end, snd kv).

(** The query [replaceState] hands to [buildUrlQuery]. *)
Definition history_query {raw item : Type} (cfg : Config raw item)
           (query_ : Query) : Query :=
  if history_filterParams cfg then safe_params cfg query_ else query_.

(** The term ids the query holds for a taxonomy: its list, and nothing
    when the key is absent or holds a scalar. *)
Definition term_list (taxonomy : string) (q : Query) : list scalar :=
  match Js.get taxonomy q with
  | Some (Array l) => l
  | _ => []
  end.


(** Whether the query holds the term id under the taxonomy. *)
Definition selected (taxonomy : string) (term : Z) (q : Query) : bool :=
  existsb (scalar_eqb (Num term)) (term_list taxonomy q).

(** The flag of every filter of the taxonomy says whether the query
    holds its id. *)
Definition mirrors (q : Query) (tax : Taxonomy.t) : bool :=
  forallb (fun f => Bool.eqb (Filter.checked f)
                             (selected (Taxonomy.slug tax) (Filter.id f) q))
          (Taxonomy.filters tax).

Fixpoint distinct_numbers (l : list Z) : bool :=
  match l with
  | [] => true
  | x :: l' => negb (existsb (Z.eqb x) l') && distinct_numbers l'
  end.

Fixpoint distinct_names (l : list string) : bool :=
  match l with
  | [] => true
  | x :: l' => negb (existsb (String.eqb x) l') && distinct_names l'
  end.

(** The list is the listing of an object, in the order of
    [Object.keys]: no key comes twice and none is an array index. *)
Definition object_listing {A : Type} (o : Js.obj A) : bool :=
  distinct_names (Js.keys o)
  && forallb (fun k => negb (Js.index_like k)) (Js.keys o).

Fixpoint all_chars (f : ascii -> bool) (s : string) : bool :=
  match s with
  | EmptyString => true
  | String c r => f c && all_chars f r
  end.

(** A text the URL parser keeps in the query: no [#], which would
    start the fragment, and no control character. *)
Definition printable (t : string) : bool :=
  all_chars (fun c => negb (Ascii.eqb c "#") && (32 <=? Js.code c)%N) t.

(** A text the address bar gives back as it was written, once its
    escapes are read: plain, kept in the query, and not ending in a
    space. *)
Definition address_text (t : string) : bool :=
  url_plain t && printable t && String.eqb (Js.trim_end t) t.

(** An entry the address bar gives back: plain, with a key kept in the
    query and such texts for its scalars. *)
Definition address_entry (kv : string * value) : bool :=
  plain_entry kv && printable (fst kv)
  && forallb (fun a => address_text (scalar_text a)) (elements (snd kv)).

(** A taxonomy as the [terms] map builds it from a payload of distinct
    term ids: every filter names the taxonomy as its parent, no two
    filters share an id, and the slug is not the key of the page
    number. *)
Definition well_formed (tax : Taxonomy.t) : bool :=
  negb (String.eqb (Taxonomy.slug tax) "page")
  && forallb (String.eqb (Taxonomy.slug tax))
             (map Filter.parent (Taxonomy.filters tax))
  && distinct_numbers (map Filter.id (Taxonomy.filters tax)).

(** The query holds no scalar under the key. *)
Definition list_or_absent (taxonomy : string) (q : Query) : bool :=
  match Js.get taxonomy q with
  | Some (Scalar _) => false
  | _ => true
  end.

(** The terms and the query of a component are in step: the taxonomies
    are well formed and have distinct slugs, the query holds lists under
    their slugs, and every filter flag mirrors the query. *)
Definition in_step (ts : list Taxonomy.t) (q : Query) : bool :=
  forallb well_formed ts
  && distinct_names (map Taxonomy.slug ts)
  && forallb (fun tax => list_or_absent (Taxonomy.slug tax) q) ts
  && forallb (mirrors q) ts.

(** A taxonomy with every filter and its own flag set to [b], as
    [filterAll] and [reset] leave it. *)
Definition all_set (b : bool) (x : Taxonomy.t) : Taxonomy.t :=
  Taxonomy.set_filters
    (map (Filter.set_checked b) (Taxonomy.filters x))
    (Taxonomy.set_checked b x).

(** The ids of the filters of a taxonomy, as [filterAll] collects
    them. *)
Definition filter_ids (x : Taxonomy.t) : list scalar :=
  map (fun term => Num (Filter.id term)) (Taxonomy.filters x).

(** A shown page holds [false] for its posts. *)
Definition shows_failure {item : Type} (e : option (Page.t item)) : bool :=
  match e with
  | Some page =>
      Page.show page
      && match Page.posts page with NoPosts => true | PostList _ => false end
  | None => false
  end.


(** The terms endpoint of the demonstration. *)
Definition demo_payload : list RawTaxonomy.t :=
  [RawTaxonomy.mk "Categories" "categories"
     [RawTerm.mk 7 "News" "news"; RawTerm.mk 9 "Events" "events"];
   RawTaxonomy.mk "Tags" "tags" [RawTerm.mk 3 "Parks" "parks"]].

Definition terms_server (url : string) : Fetched RawTaxonomy.t :=
  Resolved (Response.mk true None None None (Some (JArray demo_payload))).

(** A server that sends no items for any page. *)
Definition empty_server (url : string) : Fetched string :=
  Resolved (Response.mk true (Some "0") (Some "0") None (Some (JArray []))).

(** A network that is down. *)
Definition offline (url : string) : Fetched string := Rejected.



(* ================================================================== *)
(** ** Properties of the query codec *)
(* ================================================================== *)

(** From here on [++] is the append of lists; the append of strings is
    written [(_ ++ _)%string]. *)
Open Scope list_scope.






(* ================================================================== *)
(** ** Objects and arrays with holes *)
(* ================================================================== *)

Section ObjFacts.
Context {A : Type}.

Lemma get_set_same (k : string) (v : A) (o : Js.obj A) :
  Js.get k (Js.set k v o) = Some v.
Proof.
  induction o as [|[k' v'] o IH]; simpl.
  - now rewrite String.eqb_refl.
  - destruct (String.eqb k' k) eqn:E; simpl; rewrite E; auto.
Qed.

Lemma get_set_other (k k' : string) (v : A) (o : Js.obj A) :
  k <> k' -> Js.get k' (Js.set k v o) = Js.get k' o.
Proof.
  intros Hne. induction o as [|[k0 v0] o IH]; simpl.
  - destruct (String.eqb_spec k k'); [contradiction|reflexivity].
  - destruct (String.eqb_spec k0 k) as [->|Hk]; simpl.
    + destruct (String.eqb_spec k k'); [contradiction|reflexivity].
    + now rewrite IH.
Qed.

(** Writing the value a key already has changes nothing. *)
Lemma set_same_value (k : string) (v : A) (o : Js.obj A) :
  Js.get k o = Some v -> Js.set k v o = o.
Proof.
  induction o as [|[k' v'] o IH]; simpl; [discriminate|].
  destruct (String.eqb_spec k' k) as [->|Hk].
  - now intros [= ->].
  - intros H. now rewrite IH.
Qed.

(** A new key goes last. *)
Lemma set_fresh (k : string) (v : A) (o : Js.obj A) :
  Js.get k o = None -> Js.set k v o = o ++ [(k, v)].
Proof.
  induction o as [|[k' v'] o IH]; simpl; [reflexivity|].
  destruct (String.eqb k' k); [discriminate|].
  intros H. now rewrite IH.
Qed.

Lemma get_app_fresh (k : string) (o o' : Js.obj A) :
  Js.get k o = None -> Js.get k (o ++ o') = Js.get k o'.
Proof.
  induction o as [|[k' v'] o IH]; simpl; [reflexivity|].
  destruct (String.eqb k' k); [discriminate|auto].
Qed.

Lemma at_index_nil (i : Z) : Js.at_index i (@nil (option A)) = None.
Proof.
  unfold Js.at_index. destruct (i <? 0); [reflexivity|].
  now destruct (Z.to_nat i).
Qed.

Lemma nth_error_splice_same (n : nat) (v : A) (l : list (option A)) :
  nth_error (Js.splice n v l) n = Some (Some v).
Proof.
  revert l. induction n as [|n IH]; intros [|x l]; simpl; auto.
Qed.

Lemma nth_error_splice_other (n m : nat) (v : A) (l : list (option A)) :
  n <> m ->
  match nth_error (Js.splice n v l) m with
  | Some (Some a) => Some a
  | _ => None
  end
  = match nth_error l m with
    | Some (Some a) => Some a
    | _ => None
    end.
Proof.
  revert m l. induction n as [|n IH]; intros [|m] [|x l] Hne; simpl;
    try reflexivity; try contradiction.
  - now destruct m.
  - rewrite (IH m []) by congruence. now destruct m.
  - apply IH. congruence.
Qed.

Lemma at_index_set_same (i : Z) (v : A) (l : list (option A)) :
  0 <= i -> Js.at_index i (Js.set_index i v l) = Some v.
Proof.
  intros Hi. unfold Js.at_index, Js.set_index.
  destruct (Z.ltb_spec i 0); [lia|].
  now rewrite nth_error_splice_same.
Qed.

Lemma at_index_set_other (i j : Z) (v : A) (l : list (option A)) :
  0 <= i -> i <> j -> Js.at_index j (Js.set_index i v l) = Js.at_index j l.
Proof.
  intros Hi Hne. unfold Js.at_index, Js.set_index.
  destruct (Z.ltb_spec j 0); [reflexivity|].
  apply nth_error_splice_other. lia.
Qed.

End ObjFacts.

Lemma page_of_set (p : Z) (q : Query) :
  page_of (Js.set "page" (Scalar (Num p)) q) = Some p.
Proof. unfold page_of. now rewrite get_set_same. Qed.

Lemma set_page_same (p : Z) (q : Query) :
  page_of q = Some p -> Js.set "page" (Scalar (Num p)) q = q.
Proof.
  unfold page_of. intros H. apply set_same_value.
  destruct (Js.get "page" q) as [[[z| |]|]|]; try discriminate.
  now injection H as ->.
Qed.

(* ================================================================== *)
(** ** The fetch controller, turn by turn *)
(* ================================================================== *)

Section FetchFacts.
Context {raw item : Type}.
Variable cfg : Config raw item.
Variable net : string -> Fetched raw.

Implicit Types s : State item.

Lemma response_not_ok (r : Response.t raw) s :
  Response.ok r = false -> response r s = Some s.
Proof. intros H. unfold response. now rewrite H. Qed.

Lemma response_ok (r : Response.t raw) s s' :
  Response.ok r = true -> response r s = Some s' ->
  exists h, read_headers r = Some h /\ s' = set_headers h s.
Proof.
  intros H. unfold response. rewrite H.
  destruct (read_headers r) as [h|]; [|discriminate].
  intros [= <-]. now exists h.
Qed.

Lemma response_frame (r : Response.t raw) s s' :
  response r s = Some s' ->
  query s' = query s /\ terms s' = terms s /\ posts s' = posts s
  /\ address s' = address s /\ reported s' = reported s /\ init s' = init s.
Proof.
  unfold response. destruct (Response.ok r).
  - destruct (read_headers r); [|discriminate]. now intros [= <-].
  - now intros [= <-].
Qed.

Lemma response_total (r : Response.t raw) s :
  (Response.ok r = true -> read_headers r <> None) ->
  exists s', response r s = Some s'.
Proof.
  intros H. unfold response. destruct (Response.ok r); [|eauto].
  destruct (read_headers r); [eauto|]. now destruct H.
Qed.

(** What [process] does once [wpQuery] has stored the entry [page]. *)
Lemma process_stored (data : Json raw) (q : Query) (h : Headers.t) s
      (target : Z) (page : Page.t item) :
  page_of q = Some target ->
  Js.at_index target (posts s) = Some page ->
  process cfg data q h s
  = Some match data, maps cfg (type cfg) with
         | JArray _, None => Throws s
         | JArray l, Some f =>
             Returns
               (set_init true
                  (set_posts
                     (Js.set_index target
                        (Page.set_headers h (Page.set_posts (PostList (map f l)) page))
                        (posts s))
                     s))
         | JOther text, _ =>
             Returns
               (set_init true
                  (error (BadPayload text q)
                     (set_posts
                        (Js.set_index target
                           (Page.set_headers h (Page.set_posts NoPosts page))
                           (posts s))
                        s)))
         end.
Proof.
  intros Hq Hp. unfold process. rewrite Hq.
  destruct data as [l|text], (maps cfg (type cfg)) as [f|];
    try reflexivity; now rewrite Hp.
Qed.

(** The chain once the page of its query is known: the entry is stored,
    then the answer is handled. *)
Lemma chain_unfold (current : bool) (q : Query) (target number : Z) s :
  page_of q = Some target ->
  page_of (query s) = Some number ->
  chain cfg net current q s
  = let entry := Page.mk (PostList []) q (target <=? number) None in
    let s1 := set_posts (Js.set_index target entry (posts s)) s in
    match net (request_url cfg q) with
    | Rejected => Some (error Exception s1)
    | Resolved r =>
        s2 <- response r s1 ;;
        match Response.body r with
        | None => Some (error Exception s2)
        | Some data =>
            let s3 := if current then replaceState cfg q s2 else s2 in
            done <- process cfg data q (headers s2) s3 ;;
            Some match done with
                 | Returns s4 => s4
                 | Throws s4 => error Exception s4
                 end
        end
    end.
Proof.
  intros Hq Hp. unfold chain, wpQuery. now rewrite Hq, Hp.
Qed.

Lemma queue_turn_unfold (Obj1 : Query) (offset number : Z) s :
  page_of (query s) = Some number ->
  queue_turn cfg net Obj1 offset s
  = let target := number + offset in
    let q := Js.set "page" (Scalar (Num target)) (query s) in
    if target <=? 0 then Some s
    else if have_matching_page Obj1 target s then Some s
    else if (target =? number)
            || (less_than number (Headers.pages (headers s)) && (number <? target))
            || ((1 <? number) && (target <? number))
         then chain cfg net (target =? number) q s
         else Some s.
Proof.
  intros Hp. unfold queue_turn. now rewrite Hp.
Qed.

(** Everything a chain leaves behind: the query and the terms are
    untouched, the entry of its page is the one [wpQuery] stored, up to
    its posts and headers, the other entries are untouched, and the
    headers of the state change only to those of a successful response. *)
Lemma chain_effect (current : bool) (q : Query) (target number : Z) s s' :
  page_of q = Some target -> 0 <= target ->
  page_of (query s) = Some number ->
  chain cfg net current q s = Some s' ->
  query s' = query s
  /\ terms s' = terms s
  /\ (exists page, Js.at_index target (posts s') = Some page
                   /\ Page.show page = (target <=? number)
                   /\ Page.query page = q)
  /\ (forall n, n <> target -> Js.at_index n (posts s') = Js.at_index n (posts s))
  /\ Some (headers s')
     = match net (request_url cfg q) with
       | Resolved r =>
           if Response.ok r then read_headers r else Some (headers s)
       | Rejected => Some (headers s)
       end.
Proof.
  intros Hq Ht Hp. rewrite (chain_unfold _ _ _ _ _ Hq Hp). cbv zeta.
  set (entry := Page.mk (PostList []) q (target <=? number) None).
  set (s1 := set_posts (Js.set_index target entry (posts s)) s).
  assert (Hentry : forall s2, posts s2 = posts s1 ->
                              Js.at_index target (posts s2) = Some entry).
  { intros s2 ->. apply at_index_set_same, Ht. }
  assert (Hother : forall s2 n, posts s2 = posts s1 -> n <> target ->
                                Js.at_index n (posts s2) = Js.at_index n (posts s)).
  { intros s2 n -> Hn. apply at_index_set_other; auto. }
  assert (Hq1 : query s1 = query s) by reflexivity.
  assert (Ht1 : terms s1 = terms s) by reflexivity.
  assert (Hh1 : headers s1 = headers s) by reflexivity.
  clearbody s1.
  assert (Hkept : forall s4, posts s4 = posts s1 ->
            (exists page, Js.at_index target (posts s4) = Some page
                          /\ Page.show page = (target <=? number)
                          /\ Page.query page = q)
            /\ (forall n, n <> target ->
                          Js.at_index n (posts s4) = Js.at_index n (posts s))).
  { intros s4 H4. split.
    - exists entry. split; [now apply Hentry|now split].
    - intros n Hn. now apply Hother. }
  destruct (net (request_url cfg q)) as [|r] eqn:Hnet.
  - intros [= <-]. cbn [query terms headers posts error].
    destruct (Hkept s1 eq_refl). repeat split; auto; congruence.
  - destruct (response r s1) as [s2|] eqn:Hr; [|discriminate].
    destruct (response_frame _ _ _ Hr) as (Hq2 & Ht2 & Hp2 & _).
    assert (Hh2 : Some (headers s2)
                  = if Response.ok r then read_headers r else Some (headers s)).
    { destruct (Response.ok r) eqn:Hok.
      - destruct (response_ok _ _ _ Hok Hr) as (h & Hh & ->).
        now rewrite Hh.
      - rewrite response_not_ok in Hr by assumption.
        injection Hr as <-. now rewrite Hh1. }
    destruct (Response.body r) as [data|].
    + set (s3 := if current then replaceState cfg q s2 else s2).
      assert (Hs3 : query s3 = query s /\ terms s3 = terms s
                    /\ posts s3 = posts s1 /\ headers s3 = headers s2).
      { unfold s3. destruct current; cbn; repeat split; congruence. }
      clearbody s3. destruct Hs3 as (Hq3 & Ht3 & Hp3 & Hh3).
      rewrite (process_stored data q (headers s2) s3 target entry Hq)
        by (now apply Hentry).
      assert (Hset : forall e',
                 Page.show e' = Page.show entry ->
                 Page.query e' = Page.query entry ->
                 (exists page,
                     Js.at_index target (Js.set_index target e' (posts s3))
                     = Some page
                     /\ Page.show page = (target <=? number)
                     /\ Page.query page = q)
                 /\ (forall n, n <> target ->
                               Js.at_index n (Js.set_index target e' (posts s3))
                               = Js.at_index n (posts s))).
      { intros e' He1 He2. split.
        - exists e'. rewrite at_index_set_same by assumption. now repeat split.
        - intros n Hn. rewrite at_index_set_other by auto.
          now apply Hother. }
      rewrite <- Hh3 in Hh2.
      destruct data as [l|text], (maps cfg (type cfg)) as [f|];
        intros [= <-]; cbn [query terms headers posts set_init set_posts error];
        (split; [exact Hq3|]); (split; [exact Ht3|]).
      * destruct (Hset (Page.set_headers (headers s2)
                          (Page.set_posts (PostList (map f l)) entry))
                       eq_refl eq_refl).
        now repeat split.
      * destruct (Hkept s3 Hp3). now repeat split.
      * destruct (Hset (Page.set_headers (headers s2)
                          (Page.set_posts NoPosts entry))
                       eq_refl eq_refl).
        now repeat split.
      * destruct (Hset (Page.set_headers (headers s2)
                          (Page.set_posts NoPosts entry))
                       eq_refl eq_refl).
        now repeat split.
    + intros [= <-]. cbn [query terms headers posts error].
      destruct (Hkept s2 Hp2). repeat split; auto; congruence.
Qed.

Lemma chain_total (current : bool) (q : Query) (target number : Z) s :
  readable net ->
  page_of q = Some target -> 0 <= target ->
  page_of (query s) = Some number ->
  exists s', chain cfg net current q s = Some s'.
Proof.
  intros Hnet Hq Ht Hp. rewrite (chain_unfold _ _ _ _ _ Hq Hp). cbv zeta.
  set (entry := Page.mk (PostList []) q (target <=? number) None).
  set (s1 := set_posts (Js.set_index target entry (posts s)) s).
  destruct (net (request_url cfg q)) as [|r] eqn:Hr; [eauto|].
  destruct (response_total r s1 (Hnet _ r Hr)) as [s2 H2]. rewrite H2.
  destruct (response_frame _ _ _ H2) as (_ & _ & Hp2 & _).
  destruct (Response.body r) as [data|]; [|eauto].
  erewrite process_stored with (page := entry); eauto.
  destruct current; cbn; rewrite Hp2; apply at_index_set_same, Ht.
Qed.

(** One turn: a skipped turn changes nothing, a turn that requests its
    page has the effect of the chain. *)
Lemma queue_turn_effect (Obj1 : Query) (offset number : Z) s s' :
  page_of (query s) = Some number ->
  queue_turn cfg net Obj1 offset s = Some s' ->
  query s' = query s
  /\ terms s' = terms s
  /\ (forall n,
         Js.at_index n (posts s') = Js.at_index n (posts s)
         \/ exists page, Js.at_index n (posts s') = Some page
                         /\ stored_for n number (query s) page)
  /\ (headers s' = headers s
      \/ exists url r, net url = Resolved r /\ Response.ok r = true
                       /\ read_headers r = Some (headers s')).
Proof.
  intros Hp. rewrite (queue_turn_unfold _ _ _ _ Hp). cbv zeta.
  assert (Hskip : Some s = Some s' ->
                  query s' = query s /\ terms s' = terms s
                  /\ (forall n,
                         Js.at_index n (posts s') = Js.at_index n (posts s)
                         \/ exists page, Js.at_index n (posts s') = Some page
                                         /\ stored_for n number (query s) page)
                  /\ (headers s' = headers s
                      \/ exists url r, net url = Resolved r /\ Response.ok r = true
                                       /\ read_headers r = Some (headers s'))).
  { intros [= <-]. repeat split; auto. }
  destruct (Z.leb_spec (number + offset) 0) as [|Hpos]; [exact Hskip|].
  destruct (have_matching_page Obj1 (number + offset) s); [exact Hskip|].
  match goal with |- context [if ?c then _ else _] => destruct c end;
    [|exact Hskip].
  intros Hc.
  destruct (chain_effect _ _ (number + offset) number _ _
              (page_of_set _ _) (Z.lt_le_incl _ _ Hpos) Hp Hc)
    as (Hq & Ht & (page & Hpage & Hshow & Hquery) & Hother & Hh).
  repeat split; auto.
  - intros n. destruct (Z.eq_dec n (number + offset)) as [->|Hn].
    + right. exists page. now repeat split.
    + left. now apply Hother.
  - destruct (net (request_url cfg _)) as [|r] eqn:Hr.
    + left. congruence.
    + destruct (Response.ok r) eqn:Hok.
      * right. eexists _, r. repeat split; eauto.
      * left. congruence.
Qed.

Lemma queue_turn_total (Obj1 : Query) (offset number : Z) s :
  readable net ->
  page_of (query s) = Some number ->
  exists s', queue_turn cfg net Obj1 offset s = Some s'.
Proof.
  intros Hnet Hp. rewrite (queue_turn_unfold _ _ _ _ Hp). cbv zeta.
  destruct (Z.leb_spec (number + offset) 0) as [|Hpos]; [eauto|].
  destruct (have_matching_page Obj1 (number + offset) s); [eauto|].
  match goal with |- context [if ?c then _ else _] => destruct c end;
    [|eauto].
  eapply chain_total; eauto using page_of_set. lia.
Qed.

(** A whole run. *)
Lemma queue_loop_effect (Obj1 : Query) (queries : list Z) (number : Z) :
  forall s s',
    page_of (query s) = Some number ->
    queue_loop cfg net Obj1 queries s = Some s' ->
    query s' = query s
    /\ terms s' = terms s
    /\ (forall n,
           Js.at_index n (posts s') = Js.at_index n (posts s)
           \/ exists page, Js.at_index n (posts s') = Some page
                           /\ stored_for n number (query s) page)
    /\ (headers s' = headers s
        \/ exists url r, net url = Resolved r /\ Response.ok r = true
                         /\ read_headers r = Some (headers s')).
Proof.
  induction queries as [|offset rest IH]; intros s s' Hp; simpl.
  - intros [= <-]. repeat split; auto.
  - destruct (queue_turn cfg net Obj1 offset s) as [s1|] eqn:H1; [|discriminate].
    intros Hrest.
    destruct (queue_turn_effect _ _ _ _ _ Hp H1) as (Hq1 & Ht1 & Hposts1 & Hh1).
    assert (Hp1 : page_of (query s1) = Some number) by congruence.
    destruct (IH _ _ Hp1 Hrest) as (Hq & Ht & Hposts & Hh).
    split; [congruence|]. split; [congruence|]. split.
    + intros n. destruct (Hposts n) as [E|(page & E & Hs)].
      * rewrite E. apply Hposts1.
      * right. exists page. split; [exact E|]. now rewrite <- Hq1.
    + destruct Hh as [E|Hh]; [|now right].
      rewrite E. exact Hh1.
Qed.

Lemma queue_loop_total (Obj1 : Query) (queries : list Z) (number : Z) :
  readable net ->
  forall s, page_of (query s) = Some number ->
            exists s', queue_loop cfg net Obj1 queries s = Some s'.
Proof.
  intros Hnet. induction queries as [|offset rest IH]; intros s Hp; simpl.
  - eauto.
  - destruct (queue_turn_total Obj1 offset number s Hnet Hp) as [s1 H1].
    rewrite H1. apply IH.
    destruct (queue_turn_effect _ _ _ _ _ Hp H1) as (Hq1 & _). congruence.
Qed.

End FetchFacts.

(* ================================================================== *)
(** ** Pagination headers *)
(* ================================================================== *)



(* ================================================================== *)
(** ** The pages a fetch run stores *)
(* ================================================================== *)

Section FirstRun.
Context {raw item : Type}.
Variable cfg : Config raw item.
Variable net : string -> Fetched raw.


End FirstRun.


Lemma serving_readable : readable serving.
Proof. intros url r [= <-] _. discriminate. Qed.


(* ================================================================== *)
(** ** Filters: what a change of filters does to the state *)
(* ================================================================== *)

Section UpdateNth.
Context {A : Type}.

Lemma nth_error_update_nth_same (n : nat) (f : A -> A) (l : list A) (x : A) :
  nth_error l n = Some x -> nth_error (update_nth n f l) n = Some (f x).
Proof.
  revert l. induction n as [|n IH]; intros [|y l]; simpl; try discriminate.
  - now intros [= ->].
  - apply IH.
Qed.

Lemma map_update_nth_frame {B : Type} (g : A -> B) (n : nat) (f : A -> A)
      (l : list A) :
  (forall x, g (f x) = g x) -> map g (update_nth n f l) = map g l.
Proof.
  intros H. revert l. induction n as [|n IH]; intros [|y l]; simpl; auto.
  - now rewrite H.
  - now rewrite IH.
Qed.



Lemma update_nth_same (n : nat) (f : A -> A) (l : list A) :
  (forall x, nth_error l n = Some x -> f x = x) -> update_nth n f l = l.
Proof.
  revert l. induction n as [|n IH]; intros [|y l] H; simpl; auto.
  - now rewrite H.
  - now rewrite IH.
Qed.

End UpdateNth.

Lemma find_taxonomy_slugs (taxonomy : string) (ts ts' : list Taxonomy.t) :
  map Taxonomy.slug ts' = map Taxonomy.slug ts ->
  find_taxonomy taxonomy ts' = find_taxonomy taxonomy ts.
Proof.
  revert ts'. induction ts as [|x ts IH]; intros [|x' ts']; simpl;
    try discriminate; auto.
  intros [= Hx Hts]. rewrite Hx. now rewrite (IH _ Hts).
Qed.

Lemma find_taxonomy_nth (taxonomy : string) (ts : list Taxonomy.t) (i : nat) :
  find_taxonomy taxonomy ts = Some i ->
  exists tax, nth_error ts i = Some tax /\ Taxonomy.slug tax = taxonomy.
Proof.
  revert i. induction ts as [|x ts IH]; intros i; simpl; [discriminate|].
  destruct (String.eqb_spec (Taxonomy.slug x) taxonomy) as [E|_].
  - intros [= <-]. now exists x.
  - destruct (find_taxonomy taxonomy ts) as [j|]; [|discriminate].
    intros [= <-]. now apply IH.
Qed.

Lemma hide_hide {item : Type} (l : list (option (Page.t item))) :
  map hide (map hide l) = map hide l.
Proof.
  rewrite map_map. apply map_ext. now intros [page|].
Qed.

Section FilterFacts.
Context {item : Type}.
Implicit Types s : State item.

Lemma updateQuery_query (taxonomy : string) (v : value) s :
  query (updateQuery taxonomy v s)
  = Js.set "page" (Scalar (Num 1)) (Js.set taxonomy v (query s)).
Proof. reflexivity. Qed.

Lemma updateQuery_page (taxonomy : string) (v : value) s :
  page_of (query (updateQuery taxonomy v s)) = Some 1.
Proof. apply page_of_set. Qed.


Lemma filter_returns (taxonomy : string) (term : Z) s (l : list scalar) :
  toggled term (Js.get taxonomy (query s)) = Some l ->
  filter taxonomy term s = Returns (updateQuery taxonomy (Array l) s).
Proof.
  unfold filter, toggled.
  destruct (Js.get taxonomy (query s)) as [[a|l0]|]; try discriminate;
    now intros [= <-].
Qed.

Lemma check_parent_returns (taxonomy : string) (term : Z) s (i : nat)
      (l : list scalar) :
  find_taxonomy taxonomy (terms s) = Some i ->
  toggled term (Js.get taxonomy (query s)) = Some l ->
  check_parent taxonomy term s
  = Returns
      (updateQuery taxonomy (Array l)
         (set_terms
            (update_nth i
               Taxonomy.recheck
               (terms s))
            s)).
Proof.
  intros Hi Hl. unfold check_parent. rewrite Hi.
  now apply filter_returns.
Qed.

Lemma filterAll_returns (taxonomy : string) s (i : nat) :
  find_taxonomy taxonomy (terms s) = Some i ->
  exists tax terms_ ts,
    nth_error (terms s) i = Some tax
    /\ terms_ = (if match Taxonomy.checked tax with
                    | Some b => negb b
                    | None => negb (Taxonomy.all_checked tax)
                    end
                 then map (fun term => Num (Filter.id term)) (Taxonomy.filters tax)
                 else [])
    /\ filterAll taxonomy s
       = Returns (updateQuery taxonomy (Array terms_) (set_terms ts s)).
Proof.
  intros Hi. destruct (find_taxonomy_nth _ _ _ Hi) as (tax & Hn & _).
  unfold filterAll. rewrite Hi, Hn.
  eexists tax, _, _. repeat split.
Qed.

Lemma flip_checked_slugs (ti fi : nat) s :
  map Taxonomy.slug (terms (flip_checked ti fi s)) = map Taxonomy.slug (terms s).
Proof. apply map_update_nth_frame. reflexivity. Qed.

End FilterFacts.

Section ClickFacts.
Context {item : Type}.
Implicit Types s : State item.

Lemma toggled_total (term : Z) (old : option value) :
  (forall a, old <> Some (Scalar a)) -> exists l, toggled term old = Some l.
Proof.
  intros H. destruct old as [[a|l]|]; simpl; eauto. now destruct (H a).
Qed.

(** Whatever a click that returns does, it ends in [updateQuery] for the
    taxonomy of the event, on a state that differs from the first one in
    its terms only. *)
Lemma click_shape (data : EventData) s (taxonomy : string) :
  event_taxonomy data s = Some taxonomy ->
  can_toggle taxonomy s ->
  exists v ts,
    click data s = Returns (updateQuery taxonomy v (set_terms ts s)).
Proof.
  intros Hev [Hfind Hval].
  destruct (find_taxonomy taxonomy (terms s)) as [i|] eqn:Hi; [|now destruct Hfind].
  destruct data as [ti fi|parent term]; simpl in Hev.
  - unfold click. destruct (stored_filter ti fi s) as [f|]; [|discriminate].
    injection Hev as Hev. rewrite Hev.
    destruct (Filter.id f =? 0).
    + destruct (filterAll_returns taxonomy s i Hi) as (tax & terms_ & ts & _ & _ & E).
      eauto.
    + destruct (toggled_total (Filter.id f) _ Hval) as [l Hl].
      erewrite check_parent_returns with (i := i) (l := l).
      * do 2 eexists. reflexivity.
      * rewrite <- Hi. apply find_taxonomy_slugs, flip_checked_slugs.
      * exact Hl.
  - injection Hev as ->. unfold click. destruct (term =? 0).
    + destruct (filterAll_returns taxonomy s i Hi) as (tax & terms_ & ts & _ & _ & E).
      eauto.
    + destruct (toggled_total term _ Hval) as [l Hl].
      rewrite (check_parent_returns taxonomy term s i l Hi Hl). eauto.
Qed.

Lemma reset_at_effect (index : nat) s0 s :
  page_of (query s) = Some 1 /\ posts s = map hide (posts s0) ->
  page_of (query (reset_at index s)) = Some 1
  /\ posts (reset_at index s) = map hide (posts s0).
Proof.
  intros [Hp Hposts]. unfold reset_at.
  destruct (nth_error (terms s) index) as [tax|]; [|now split].
  cbn [query posts set_terms updateQuery set_posts set_query].
  split; [apply page_of_set|]. rewrite Hposts. apply hide_hide.
Qed.

Lemma reset_loop_effect (indices : list nat) s0 s :
  page_of (query s) = Some 1 /\ posts s = map hide (posts s0) ->
  page_of (query (fold_left (fun acc index => reset_at index acc) indices s)) = Some 1
  /\ posts (fold_left (fun acc index => reset_at index acc) indices s)
     = map hide (posts s0).
Proof.
  revert s. induction indices as [|index indices IH]; intros s H; simpl; auto.
  apply IH. now apply reset_at_effect.
Qed.

End ClickFacts.

(** Hiding the entries of a store one by one. *)
Lemma hide_all {item : Type} (l : list (option (Page.t item))) :
  Forall2 hidden_page l (map hide l).
Proof.
  induction l as [|[page|] l IH]; cbn [map hide]; constructor; try exact IH.
  - cbn. auto.
  - exact I.
Qed.

(** C4 (as the code has it). A click on a filter, when the query has no
    key [hasOwnProperty] of its own to shadow the method [filter] calls
    on it, a toggle of a whole taxonomy and a reset of at least one
    taxonomy leave the page of the query at 1 and every stored page
    hidden: the store has the entries it had, index by index, each page
    with [show] at [false].  No entry
    is removed from the store: each keeps its posts, the query it was
    fetched with and its headers, whether or not that query still agrees
    with the new filters. *)
Theorem filter_change_hides_pages :
  forall (item : Type) (s : State item),
    (forall (data : EventData) (taxonomy : string),
        event_taxonomy data s = Some taxonomy ->
        can_toggle taxonomy s ->
        Js.has_method (query s) = true ->
        exists s', click data s = Returns s'
                   /\ page_of (query s') = Some 1
                   /\ Forall2 hidden_page (posts s) (posts s'))
    /\ (forall parent : string,
           find_taxonomy parent (terms s) <> None ->
           exists s', toggle parent s = Returns s'
                      /\ page_of (query s') = Some 1
                      /\ Forall2 hidden_page (posts s) (posts s'))
    /\ (terms s <> [] ->
        page_of (query (reset s)) = Some 1
        /\ Forall2 hidden_page (posts s) (posts (reset s))).
Proof.
  intros item s. split; [|split].
  - intros data taxonomy Hev Hcan _.
    destruct (click_shape data s taxonomy Hev Hcan) as (v & ts & E).
    eexists. split; [exact E|]. split; [apply updateQuery_page|].
    cbn [posts set_terms updateQuery set_posts set_query]. apply hide_all.
  - intros parent Hfind. unfold toggle.
    destruct (find_taxonomy parent (terms s)) as [i|] eqn:Hi; [|now destruct Hfind].
    destruct (filterAll_returns parent s i Hi) as (tax & terms_ & ts & _ & _ & E).
    eexists. split; [exact E|]. split; [apply updateQuery_page|].
    cbn [posts set_terms updateQuery set_posts set_query]. apply hide_all.
  - intros Hterms. unfold reset.
    destruct (terms s) as [|tax ts] eqn:Ht; [now destruct Hterms|].
    cbn [List.length seq fold_left].
    assert (H : page_of (query (fold_left (fun acc index => reset_at index acc)
                                          (seq 1 (List.length ts))
                                          (reset_at 0 s))) = Some 1
                /\ posts (fold_left (fun acc index => reset_at index acc)
                                    (seq 1 (List.length ts)) (reset_at 0 s))
                   = map hide (posts s)).
    { apply reset_loop_effect. unfold reset_at. rewrite Ht. cbn [nth_error].
      cbn [query posts set_terms updateQuery set_posts set_query].
      split; [apply page_of_set|reflexivity]. }
    destruct H as [Hpage Hposts]. split; [exact Hpage|].
    rewrite Hposts. apply hide_all.
Qed.

Lemma filter_change_hides_pages_witness :
  exists s1 s' page page',
    queue demo_config serving [0; 1] started = Some s1
    /\ Js.at_index 1 (posts s1) = Some page
    /\ Page.show page = true
    /\ Page.posts page = PostList ["first"; "second"]
    /\ click (Stored 0 0) s1 = Returns s'
    /\ page_of (query s') = Some 1
    /\ Forall2 hidden_page (posts s1) (posts s')
    /\ Js.at_index 1 (posts s') = Some page'
    /\ Page.show page' = false
    /\ Page.posts page' = PostList ["first"; "second"].
Proof.
  assert (H : exists s1, queue demo_config serving [0; 1] started = Some s1)
    by (vm_compute; eexists; reflexivity).
  destruct H as (s1 & E).
  assert (E' := E). vm_compute in E'. injection E' as E'.
  destruct (proj1 (filter_change_hides_pages string s1)
                  (Stored 0 0) "categories") as (s' & Hclick & Hpage & Hall).
  - now rewrite <- E'.
  - rewrite <- E'. split; [discriminate|]. intros a. discriminate.
  - now rewrite <- E'.
  - exists s1, s'.
    assert (Hclick' := Hclick). rewrite <- E' in Hclick'.
    vm_compute in Hclick'. injection Hclick' as Hs'.
    do 2 eexists.
    split; [exact E|].
    split; [rewrite <- E'; vm_compute; reflexivity|].
    split; [reflexivity|]. split; [reflexivity|].
    split; [exact Hclick|]. split; [exact Hpage|]. split; [exact Hall|].
    split; [rewrite <- Hs'; vm_compute; reflexivity|].
    split; reflexivity.
Defined.

(** The store after a change of filters still holds pages fetched for
    the old filters: here page 3, after the click and the fetch run that
    follows it. *)
Lemma stale_page_stays_in_store :
  exists s1 s2 s3 s4 page,
    queue demo_config serving [0; 1] started = Some s1
    /\ paginate demo_config serving 1 s1 = Some (Returns s2)
    /\ click (Stored 0 0) s2 = Returns s3
    /\ wp demo_config serving s3 = Some s4
    /\ page_of (query s4) = Some 1
    /\ Js.at_index 3 (posts s4) = Some page
    /\ Page.show page = false
    /\ Page.posts page = PostList ["first"; "second"]
    /\ Js.delete "page" (Page.query page) = [("per_page", Scalar (Num 5))]
    /\ Js.delete "page" (query s4)
       = [("per_page", Scalar (Num 5)); ("categories", Array [Num 7])]
    /\ have_matching_page (Js.delete "page" (query s4)) 3 s4 = false.
Proof.
  do 5 eexists.
  split; [vm_compute; reflexivity|].
  split; [vm_compute; reflexivity|].
  split; [vm_compute; reflexivity|].
  split; [vm_compute; reflexivity|].
  split; [reflexivity|].
  split; [vm_compute; reflexivity|].
  repeat split.
Qed.

Section SingleClick.
Context {item : Type}.
Implicit Types s : State item.



End SingleClick.




(* ================================================================== *)
(** ** Clicking a filter twice *)
(* ================================================================== *)


Section ClickTwice.
Context {item : Type}.
Implicit Types s : State item.








End ClickTwice.



(* ================================================================== *)
(** ** A failed request for the current page *)
(* ================================================================== *)

Section FailedRequest.
Context {raw item : Type}.
Variable cfg : Config raw item.
Variable net : string -> Fetched raw.

(** The run of the single offset 0 when the page is to be requested. *)
Lemma queue_current (s : State item) (number : Z) :
  page_of (query s) = Some number ->
  0 < number ->
  have_matching_page (Js.delete "page" (query s)) number s = false ->
  queue cfg net [0] s = chain cfg net true (query s) s.
Proof.
  intros Hp Hpos Hfresh. unfold queue. cbn [queue_loop].
  rewrite (queue_turn_unfold _ _ _ _ _ _ Hp). cbv zeta.
  rewrite Z.add_0_r, (set_page_same _ _ Hp), Hfresh, Z.eqb_refl.
  destruct (Z.leb_spec number 0); [lia|].
  cbn [orb]. now destruct (chain cfg net true (query s) s).
Qed.

End FailedRequest.





(* ================================================================== *)
(** ** The page number and the loading flag *)
(* ================================================================== *)

Section Paginate.
Context {raw item : Type}.
Variable cfg : Config raw item.
Variable net : string -> Fetched raw.

(** [paginate] writes the new page number before anything else and
    checks nothing: whatever the amount, the page of the query it leaves
    is the old one plus the amount. *)
Lemma paginate_page (change number : Z) (s : State item) :
  readable net ->
  page_of (query s) = Some number ->
  exists done,
    paginate cfg net change s = Some done
    /\ page_of (query (state_of done)) = Some (number + change).
Proof.
  intros Hread Hp. unfold paginate. rewrite Hp.
  set (s1 := set_query (Js.set "page" (Scalar (Num (number + change))) (query s)) s).
  assert (Hp1 : page_of (query s1) = Some (number + change)) by apply page_of_set.
  destruct (Js.at_index (number + change) (posts s1)) as [entry|].
  - set (s2 := set_posts _ s1).
    destruct (queue_loop_total cfg net (Js.delete "page" (query s2)) [0; change]
                (number + change) Hread s2 Hp1) as [s3 H3].
    unfold queue. rewrite H3. eexists. split; [reflexivity|].
    destruct (queue_loop_effect cfg net _ _ _ s2 _ Hp1 H3) as (Hq & _).
    cbn [state_of]. now rewrite Hq.
  - eexists. split; [reflexivity|exact Hp1].
Qed.

(** With the entry of the current page in the store, [loading] is the
    conjunction the view relies on. *)
Lemma loading_with_page (s : State item) (number : Z) (page : Page.t item) :
  page_of (query s) = Some number ->
  Js.at_index number (posts s) = Some page ->
  loading s
  = Some (Returns (init s && negb (has_posts (Page.posts page))
                   && Page.show page)).
Proof.
  intros Hp Hat. unfold loading. rewrite Hp, Hat.
  destruct (posts s) as [|e l] eqn:E.
  - now rewrite at_index_nil in Hat.
  - cbn [List.length Nat.eqb]. now destruct (init s).
Qed.

(** Without that entry, in a store that is not empty, [loading] is
    false before the first response and throws after it. *)
Lemma loading_without_page (s : State item) (number : Z) :
  posts s <> [] ->
  page_of (query s) = Some number ->
  Js.at_index number (posts s) = None ->
  loading s = Some (if init s then Throws false else Returns false).
Proof.
  intros Hne Hp Hat. unfold loading. rewrite Hp, Hat.
  destruct (posts s) as [|e l]; [contradiction|].
  cbn [List.length Nat.eqb]. now destruct (init s).
Qed.

End Paginate.

(** C3. What the code does at page 1 for the amount -1: [paginate] does
    not reject the request.  It writes 0 into the page of the query and
    then throws on the absent entry of page 0, so the promise is rejected
    and the query is left at page 0. *)
Theorem paginate_below_first_page :
  exists s1 s2,
    queue demo_config serving [0; 1] started = Some s1
    /\ page_of (query s1) = Some 1
    /\ paginate demo_config serving (-1) s1 = Some (Throws s2)
    /\ page_of (query s2) = Some 0.
Proof.
  do 2 eexists.
  split; [vm_compute; reflexivity|].
  split; [reflexivity|].
  split; [vm_compute; reflexivity|].
  reflexivity.
Qed.

(** C6. What the code does when the store is not empty and holds no
    entry for the page of the query: a component opened on page 2 has
    fetched pages 2 and 3, a click on a filter puts the query back on
    page 1, and [loading] then reads the posts of the entry of page 1,
    which is absent, and throws. *)
Theorem loading_throws_on_absent_page :
  exists s1 s2,
    queue demo_config serving [0; 1] opened_on_page_2 = Some s1
    /\ click (Stored 0 0) s1 = Returns s2
    /\ init s2 = true
    /\ List.length (posts s2) = 4%nat
    /\ page_of (query s2) = Some 1
    /\ Js.at_index 1 (posts s2) = None
    /\ loading s2 = Some (Throws false)
    /\ totalVisible s2 = Some 0%nat.
Proof.
  do 2 eexists.
  split; [vm_compute; reflexivity|].
  split; [vm_compute; reflexivity|].
  repeat split.
Qed.

(* ================================================================== *)
(** ** Strings: cutting what was joined *)
(* ================================================================== *)

Section StringFacts.

Lemma append_assoc (a b c : string) :
  ((a ++ b) ++ c = a ++ (b ++ c))%string.
Proof. induction a as [|x a IH]; simpl; [reflexivity|now rewrite IH]. Qed.

Lemma contains_append (c : ascii) (a b : string) :
  Js.contains c (a ++ b)%string = Js.contains c a || Js.contains c b.
Proof.
  induction a as [|x a IH]; simpl; [reflexivity|].
  now rewrite IH, orb_assoc.
Qed.

Lemma split_cons (sep c : ascii) (r : string) :
  Ascii.eqb c sep = false ->
  exists x xs, Js.split sep r = x :: xs
               /\ Js.split sep (String c r) = String c x :: xs.
Proof.
  intros Hc. simpl. rewrite Hc.
  destruct (Js.split sep r) as [|x xs] eqn:E.
  - exfalso. destruct r as [|c' r]; simpl in E; [discriminate|].
    destruct (Ascii.eqb c' sep); [discriminate|].
    destruct (Js.split sep r); discriminate.
  - now exists x, xs.
Qed.

(** Cutting at [sep] a text that starts with a piece free of [sep]. *)
Lemma split_append (sep : ascii) (a b : string) :
  Js.contains sep a = false ->
  Js.split sep (a ++ String sep b)%string = a :: Js.split sep b.
Proof.
  induction a as [|c a IH]; intros Ha.
  - simpl. now rewrite Ascii.eqb_refl.
  - simpl in Ha. apply orb_false_iff in Ha as [Hc Ha].
    change ((String c a ++ String sep b)%string)
      with (String c (a ++ String sep b)%string).
    destruct (split_cons sep c (a ++ String sep b)%string Hc) as (x & xs & E1 & E2).
    rewrite E2. rewrite (IH Ha) in E1. now injection E1 as <- <-.
Qed.

Lemma split_plain (sep : ascii) (a : string) :
  Js.contains sep a = false -> Js.split sep a = [a].
Proof.
  induction a as [|c a IH]; intros Ha; [reflexivity|].
  simpl in Ha. apply orb_false_iff in Ha as [Hc Ha].
  destruct (split_cons sep c a Hc) as (x & xs & E1 & E2).
  rewrite E2. rewrite (IH Ha) in E1. now injection E1 as <- <-.
Qed.

(** [split] undoes [join] on pieces free of the separator. *)
Lemma split_join (sep : ascii) (pieces : list string) :
  pieces <> [] ->
  Forall (fun p => Js.contains sep p = false) pieces ->
  Js.split sep (Js.join (String sep EmptyString) pieces) = pieces.
Proof.
  induction pieces as [|p pieces IH]; intros Hne Hall; [contradiction|].
  inversion Hall as [|? ? Hp Hrest]; subst.
  destruct pieces as [|p' pieces].
  - simpl. now apply split_plain.
  - change (Js.join (String sep EmptyString) (p :: p' :: pieces))
      with (p ++ String sep (Js.join (String sep EmptyString) (p' :: pieces)))%string.
    rewrite split_append by assumption.
    f_equal. apply IH; [discriminate|assumption].
Qed.

Lemma break_append (sep : ascii) (a b : string) :
  Js.contains sep a = false ->
  Js.break sep (a ++ String sep b)%string = (a, Some b).
Proof.
  induction a as [|c a IH]; intros Ha; simpl.
  - now rewrite Ascii.eqb_refl.
  - simpl in Ha. apply orb_false_iff in Ha as [Hc Ha].
    now rewrite Hc, (IH Ha).
Qed.

Lemma plus_to_space_plain (s : string) :
  Js.contains "+" s = false -> Js.plus_to_space s = s.
Proof.
  induction s as [|c s IH]; intros Hs; simpl; [reflexivity|].
  simpl in Hs. apply orb_false_iff in Hs as [Hc Hs].
  now rewrite Hc, (IH Hs).
Qed.

Lemma percent_decode_plain (s : string) :
  Js.contains "%" s = false -> Js.percent_decode s = s.
Proof.
  induction s as [|c s IH]; intros Hs; simpl; [reflexivity|].
  simpl in Hs. apply orb_false_iff in Hs as [Hc Hs].
  now rewrite Hc, (IH Hs).
Qed.

Lemma form_decode_plain (s : string) :
  Js.contains "+" s = false -> Js.contains "%" s = false ->
  Js.form_decode s = s.
Proof.
  intros Hplus Hpct. unfold Js.form_decode.
  now rewrite (plus_to_space_plain _ Hplus), (percent_decode_plain _ Hpct).
Qed.

(** The brackets the encoder adds to a key are the ones the decoder
    removes, when the key has none of its own. *)
Lemma replace_brackets_append (k : string) :
  Js.has_brackets k = false -> Js.replace_brackets (k ++ "[]")%string = k.
Proof.
  induction k as [|c k IH]; intros Hk; [reflexivity|].
  destruct k as [|c' k].
  - simpl. destruct (Ascii.eqb_spec c "["); simpl; [|reflexivity].
    reflexivity.
  - change (Js.has_brackets (String c (String c' k)))
      with ((Ascii.eqb c "[" && Ascii.eqb c' "]")
            || Js.has_brackets (String c' k)) in Hk.
    apply orb_false_iff in Hk as [Hcc Hk].
    change (Js.replace_brackets (String c (String c' k) ++ "[]")%string)
      with (if Ascii.eqb c "[" && Ascii.eqb c' "]" then (k ++ "[]")%string
            else String c (Js.replace_brackets (String c' k ++ "[]")%string)).
    now rewrite Hcc, (IH Hk).
Qed.

Lemma is_empty_append (a b : string) :
  Js.is_empty (a ++ b)%string = Js.is_empty a && Js.is_empty b.
Proof. now destruct a. Qed.

End StringFacts.

(* ================================================================== *)
(** ** Numbers and their texts *)
(* ================================================================== *)

Section NumberFacts.

Lemma digit_differs (x c : ascii) :
  Js.is_digit x = true -> Js.is_digit c = false -> Ascii.eqb x c = false.
Proof.
  intros Hx Hc. destruct (Ascii.eqb_spec x c) as [->|]; [|reflexivity].
  congruence.
Qed.

Lemma uint_text_digits (c : ascii) (d : Decimal.uint) :
  Js.is_digit c = false ->
  Js.contains c (NilEmpty.string_of_uint d) = false.
Proof.
  intros Hc. induction d; cbn [NilEmpty.string_of_uint Js.contains]; auto;
    rewrite IHd, orb_false_r; now apply digit_differs.
Qed.

(** The text of a number holds digits and at most a minus sign. *)
Lemma number_text_chars (c : ascii) (z : Z) :
  Js.is_digit c = false -> c <> "-"%char ->
  Js.contains c (Js.number_to_string z) = false.
Proof.
  intros Hc Hminus. unfold Js.number_to_string.
  assert (Hu : forall d, Js.contains c (NilZero.string_of_uint d) = false).
  { intros d. destruct d; try apply (uint_text_digits c _ Hc).
    cbn [NilZero.string_of_uint Js.contains].
    rewrite orb_false_r. now apply digit_differs. }
  destruct (Z.to_int z) as [d|d]; cbn [NilZero.string_of_int Js.contains].
  - apply Hu.
  - rewrite Hu, orb_false_r. destruct (Ascii.eqb_spec "-" c); congruence.
Qed.

Lemma number_text_plain (z : Z) : url_plain (Js.number_to_string z) = true.
Proof.
  unfold url_plain.
  now rewrite !number_text_chars by (reflexivity || discriminate).
Qed.

Lemma to_int_proper (z : Z) :
  Z.to_int z <> Decimal.Pos Decimal.Nil /\ Z.to_int z <> Decimal.Neg Decimal.Nil.
Proof.
  destruct z as [|p|p]; simpl; split; try discriminate;
    intros [= H]; now apply (DecimalPos.Unsigned.to_uint_nonnil p).
Qed.

(** Reading the text of a safe integer gives the integer back. *)
Lemma string_to_number_text (z : Z) :
  Js.safe_integer z = true ->
  Js.string_to_number (Js.number_to_string z) = Js.IsInt z.
Proof.
  intros Hsafe. unfold Js.string_to_number, Js.number_to_string.
  destruct (to_int_proper z) as [Hpos Hneg].
  assert (H := NilZero.isi (Z.to_int z) Hpos Hneg).
  destruct (NilZero.string_of_int (Z.to_int z)) as [|c r]; [discriminate|].
  now rewrite H, DecimalZ.of_to, Hsafe.
Qed.

(** No numeric text starts with such a character. *)
Lemma numeric_text_word (c : ascii) (r : string) :
  Js.starts_no_number c = true -> Js.numeric_text (String c r) = false.
Proof.
  intros Hc.
  destruct c as [[|] [|] [|] [|] [|] [|] [|] [|]]; try discriminate Hc;
    reflexivity.
Qed.

Lemma int_of_string_word (c : ascii) (r : string) :
  Js.starts_no_number c = true ->
  NilZero.int_of_string (String c r) = None.
Proof.
  intros Hc. unfold NilZero.int_of_string, NilZero.uint_of_string.
  cbn [NilEmpty.uint_of_string].
  destruct c as [[|] [|] [|] [|] [|] [|] [|] [|]]; try discriminate Hc;
    cbn; now destruct (NilEmpty.uint_of_string r).
Qed.

Lemma read_decimal_word (c : ascii) (r : string) :
  Js.starts_no_number c = true -> Js.read_decimal (String c r) = None.
Proof.
  intros Hc. unfold Js.read_decimal. cbn [Js.break].
  assert (Hdot : Ascii.eqb c "." = false).
  { unfold Js.starts_no_number in Hc.
    apply andb_true_iff in Hc as [Hc _]. apply andb_true_iff in Hc as [_ Hc].
    now apply negb_true_iff. }
  rewrite Hdot. destruct (Js.break "." r) as [a [b|]]; [|reflexivity].
  now rewrite int_of_string_word.
Qed.

(** A text that starts with such a character is not a number. *)
Lemma string_to_number_word (c : ascii) (r : string) :
  Js.starts_no_number c = true ->
  Js.string_to_number (String c r) = Js.IsNaN.
Proof.
  intros Hc. unfold Js.string_to_number.
  now rewrite int_of_string_word, read_decimal_word, numeric_text_word.
Qed.

(** *** The text of a number that is not an integer *)

Lemma uint_of_string_point (s : string) :
  Js.contains "." s = true -> NilEmpty.uint_of_string s = None.
Proof.
  induction s as [|c s IH]; intros H; [discriminate|].
  cbn [NilEmpty.uint_of_string]. cbn [Js.contains] in H.
  destruct (Ascii.eqb_spec c ".") as [->|_].
  - now destruct (NilEmpty.uint_of_string s).
  - cbn [orb] in H. now rewrite (IH H).
Qed.

Lemma int_of_string_point (s : string) :
  Js.contains "." s = true -> NilZero.int_of_string s = None.
Proof.
  intros H. destruct s as [|c s]; [reflexivity|].
  unfold NilZero.int_of_string, NilZero.uint_of_string.
  destruct (Ascii.eqb_spec c "-") as [->|_].
  - cbn [Js.contains Ascii.eqb Bool.eqb orb] in H.
    destruct s as [|c' s]; [reflexivity|].
    now rewrite (uint_of_string_point _ H).
  - now rewrite (uint_of_string_point _ H).
Qed.

Lemma whole_text_chars (c : ascii) (whole : Decimal.int) :
  Js.is_digit c = false -> c <> "-"%char ->
  Js.contains c (NilZero.string_of_int whole) = false.
Proof.
  intros Hc Hminus.
  assert (Hu : forall d, Js.contains c (NilZero.string_of_uint d) = false).
  { intros d. destruct d; try apply (uint_text_digits c _ Hc).
    cbn [NilZero.string_of_uint Js.contains].
    rewrite orb_false_r. now apply digit_differs. }
  destruct whole as [d|d]; cbn [NilZero.string_of_int Js.contains].
  - apply Hu.
  - rewrite Hu, orb_false_r. destruct (Ascii.eqb_spec "-" c); congruence.
Qed.

(** The text of a decimal holds digits, a point and at most a minus
    sign. *)
Lemma decimal_text_chars (c : ascii) (whole : Decimal.int)
      (places : Decimal.uint) :
  Js.is_digit c = false -> c <> "-"%char -> c <> "."%char ->
  Js.contains c (Js.decimal_to_string whole places) = false.
Proof.
  intros Hc Hminus Hpoint. unfold Js.decimal_to_string.
  rewrite contains_append, whole_text_chars by assumption.
  cbn [Js.contains orb]. rewrite uint_text_digits by assumption.
  rewrite orb_false_r. destruct (Ascii.eqb_spec "." c); congruence.
Qed.

Lemma decimal_text_plain (whole : Decimal.int) (places : Decimal.uint) :
  url_plain (Js.decimal_to_string whole places) = true.
Proof.
  unfold url_plain.
  now rewrite !decimal_text_chars by (reflexivity || discriminate).
Qed.

Lemma whole_digits_proper (whole : Decimal.int) :
  Js.whole_digits (Js.magnitude whole) = true ->
  whole <> Decimal.Pos Decimal.Nil /\ whole <> Decimal.Neg Decimal.Nil.
Proof. destruct whole as [[]|[]]; cbn; intros H; split; congruence. Qed.

(** Reading the text of a plain decimal gives the decimal back. *)
Lemma string_to_number_decimal (whole : Decimal.int) (places : Decimal.uint) :
  Js.plain_decimal whole places = true ->
  Js.string_to_number (Js.decimal_to_string whole places)
  = Js.IsDec whole places.
Proof.
  intros Hplain. assert (Hd := Hplain). unfold Js.plain_decimal in Hd.
  apply andb_true_iff in Hd as [Hd _]. apply andb_true_iff in Hd as [Hw _].
  destruct (whole_digits_proper whole Hw) as [Hpos Hneg].
  assert (Hpoint : Js.contains "." (Js.decimal_to_string whole places) = true).
  { unfold Js.decimal_to_string. rewrite contains_append.
    cbn [Js.contains Ascii.eqb Bool.eqb orb]. apply orb_true_r. }
  assert (Hread : Js.read_decimal (Js.decimal_to_string whole places)
                  = Some (whole, places)).
  { unfold Js.read_decimal, Js.decimal_to_string.
    rewrite break_append
      by (apply whole_text_chars; [reflexivity|discriminate]).
    now rewrite (NilZero.isi whole Hpos Hneg), NilEmpty.usu. }
  unfold Js.string_to_number.
  rewrite (int_of_string_point _ Hpoint), Hread, Hplain.
  unfold Js.decimal_to_string.
  destruct (NilZero.string_of_int whole ++ String "." _)%string eqn:E;
    [|reflexivity].
  destruct (NilZero.string_of_int whole); discriminate E.
Qed.

Lemma to_scalar_plain (a : scalar) :
  plain_scalar a = true -> to_scalar (scalar_text a) = Some a.
Proof.
  unfold plain_scalar. intros H. apply andb_true_iff in H as [_ H].
  destruct a as [z|s|whole places]; cbn [scalar_text reads_as_itself] in *;
    unfold to_scalar.
  - now rewrite string_to_number_text.
  - now destruct (Js.string_to_number s).
  - now rewrite string_to_number_decimal.
Qed.

Lemma to_scalars_plain (l : list scalar) :
  forallb plain_scalar l = true ->
  to_scalars (map scalar_text l) = Some l.
Proof.
  induction l as [|a l IH]; simpl; [reflexivity|].
  intros H. apply andb_true_iff in H as [Ha Hl].
  now rewrite (to_scalar_plain a Ha), (IH Hl).
Qed.

Lemma scalar_text_plain (a : scalar) :
  plain_scalar a = true -> url_plain (scalar_text a) = true.
Proof. unfold plain_scalar. intros H. now apply andb_true_iff in H as [H _]. Qed.

End NumberFacts.

(* ================================================================== *)
(** ** The round trip of the codec *)
(* ================================================================== *)

Section RoundTrip.

Lemma plain_entry_inv (kv : string * value) :
  plain_entry kv = true ->
  plain_key (fst kv) = true
  /\ forallb plain_scalar (elements (snd kv)) = true.
Proof. unfold plain_entry. intros H. now apply andb_true_iff in H. Qed.

Lemma plain_key_inv (k : string) :
  plain_key k = true ->
  Js.contains "&" k = false /\ Js.contains "+" k = false
  /\ Js.contains "%" k = false /\ Js.contains "=" k = false
  /\ Js.has_brackets k = false.
Proof.
  unfold plain_key, url_plain. intros H.
  repeat (apply andb_true_iff in H as [H ?]).
  repeat split; now apply negb_true_iff.
Qed.

(** A plain key is neither of the two keys an object takes for its own,
    and is not an array index. *)
Lemma plain_key_own (k : string) :
  plain_key k = true ->
  k <> "hasOwnProperty" /\ String.eqb k "__proto__" = false
  /\ Js.index_like k = false.
Proof.
  unfold plain_key. intros H.
  repeat (apply andb_true_iff in H as [H ?]).
  repeat split; try now apply negb_true_iff.
  apply String.eqb_neq. now apply negb_true_iff.
Qed.

Lemma url_entry_inv (kv : string * value) :
  url_entry kv = true ->
  plain_key (fst kv) = true
  /\ forallb (fun a => url_plain (scalar_text a)) (elements (snd kv)) = true.
Proof. unfold url_entry. intros H. now apply andb_true_iff in H. Qed.

Lemma plain_entry_url (kv : string * value) :
  plain_entry kv = true -> url_entry kv = true.
Proof.
  unfold plain_entry, url_entry. intros H.
  apply andb_true_iff in H as [Hk Hl]. rewrite Hk. cbn [andb].
  rewrite forallb_forall in *. intros a Ha.
  now apply scalar_text_plain, Hl.
Qed.

Lemma plain_entries_url (q : Query) :
  forallb plain_entry q = true -> forallb url_entry q = true.
Proof.
  rewrite !forallb_forall. intros H kv Hin. now apply plain_entry_url, H.
Qed.

Lemma forallb_filter {A : Type} (P f : A -> bool) (l : list A) :
  forallb P l = true -> forallb P (List.filter f l) = true.
Proof.
  rewrite !forallb_forall. intros H x Hin.
  apply filter_In in Hin as [Hin _]. now apply H.
Qed.

Lemma url_plain_inv (s : string) :
  url_plain s = true ->
  Js.contains "&" s = false /\ Js.contains "+" s = false
  /\ Js.contains "%" s = false.
Proof.
  unfold url_plain. intros H.
  repeat (apply andb_true_iff in H as [H ?]).
  repeat split; now apply negb_true_iff.
Qed.

Lemma plain_filter (f : string * value -> bool) (q : Query) :
  forallb plain_entry q = true ->
  forallb plain_entry (List.filter f q) = true.
Proof.
  rewrite !forallb_forall. intros H kv Hin.
  apply filter_In in Hin as [Hin _]. now apply H.
Qed.

Lemma keys_filter (f : string * value -> bool) (q : Query) :
  NoDup (Js.keys q) -> NoDup (Js.keys (List.filter f q)).
Proof.
  unfold Js.keys. induction q as [|kv q IH]; intros Hnd; [constructor|].
  cbn [map] in Hnd. inversion Hnd as [|? ? Hfresh Hnd']; subst.
  cbn [List.filter]. destruct (f kv); [|now apply IH].
  cbn [map]. constructor; [|now apply IH].
  intros Hin. apply Hfresh.
  apply in_map_iff in Hin as (kv' & E & Hin).
  apply filter_In in Hin as [Hin _].
  apply in_map_iff. now exists kv'.
Qed.

(** *** What the encoder writes *)

Lemma join_not_empty (sep p : string) (ps : list string) :
  Js.is_empty p = false -> Js.is_empty (Js.join sep (p :: ps)) = false.
Proof.
  intros Hp. destruct ps as [|p' ps]; [exact Hp|].
  change (Js.join sep (p :: p' :: ps))
    with (p ++ sep ++ Js.join sep (p' :: ps))%string.
  now rewrite is_empty_append, Hp.
Qed.

Lemma join_app (sep : string) (a b : list string) :
  a <> [] -> b <> [] ->
  Js.join sep (a ++ b) = (Js.join sep a ++ sep ++ Js.join sep b)%string.
Proof.
  intros Ha Hb. induction a as [|x a IH]; [contradiction|].
  destruct a as [|y a].
  - destruct b; [contradiction|reflexivity].
  - change (Js.join sep ((x :: y :: a) ++ b))
      with (x ++ sep ++ Js.join sep ((y :: a) ++ b))%string.
    rewrite IH by discriminate.
    change (Js.join sep (x :: y :: a))
      with (x ++ sep ++ Js.join sep (y :: a))%string.
    now rewrite !append_assoc.
Qed.

(** Joining the joined pieces of lists that are not empty is joining
    all their pieces. *)
Lemma join_join (sep : string) (ls : list (list string)) :
  Forall (fun l => l <> []) ls ->
  Js.join sep (map (Js.join sep) ls) = Js.join sep (List.concat ls).
Proof.
  induction ls as [|l ls IH]; intros Hall; [reflexivity|].
  inversion Hall as [|? ? Hl Hls]; subst.
  destruct ls as [|l' ls].
  - simpl. now rewrite List.app_nil_r.
  - change (Js.join sep (map (Js.join sep) (l :: l' :: ls)))
      with (Js.join sep l ++ sep ++ Js.join sep (map (Js.join sep) (l' :: ls)))%string.
    rewrite (IH Hls).
    change (List.concat (l :: l' :: ls)) with (l ++ List.concat (l' :: ls)).
    rewrite join_app; auto.
    inversion Hls as [|? ? Hl' _]; subst.
    simpl. destruct l'; [contradiction|discriminate].
Qed.

Lemma pair_text_not_empty (p : string * string) :
  Js.is_empty (pair_text p) = false.
Proof. unfold pair_text. now rewrite is_empty_append, andb_false_r. Qed.

(** The piece the encoder writes for an entry is the join of the texts
    of its pairs, whatever the entry. *)
Lemma url_piece_pairs (kv : string * value) :
  url_piece [] [] kv = Some (Js.join "&" (map pair_text (entry_pairs kv))).
Proof.
  destruct kv as [k [a|l]]; unfold url_piece, entry_pairs, raw_key, elements;
    cbn [Js.includes existsb Js.get fst snd].
  - reflexivity.
  - rewrite map_map. do 2 f_equal. apply map_ext. intros b.
    unfold pair_text. cbn [fst snd]. now rewrite append_assoc.
Qed.

Lemma entry_pairs_nil (kv : string * value) :
  has_elements kv = false -> entry_pairs kv = [].
Proof.
  unfold has_elements, entry_pairs.
  now destruct (elements (snd kv)).
Qed.

Lemma entry_pairs_cons (kv : string * value) :
  has_elements kv = true ->
  exists a l, elements (snd kv) = a :: l
              /\ entry_pairs kv
                 = (raw_key kv, scalar_text a)
                     :: map (fun b => (raw_key kv, scalar_text b)) l.
Proof.
  unfold has_elements, entry_pairs.
  destruct (elements (snd kv)) as [|a l]; [discriminate|].
  intros _. now exists a, l.
Qed.

Lemma truthy_pairs (q : Query) :
  truthy (map (url_piece [] []) q)
  = map (fun kv => Js.join "&" (map pair_text (entry_pairs kv)))
        (List.filter has_elements q).
Proof.
  induction q as [|kv q IH]; [reflexivity|].
  cbn [map List.filter]. rewrite url_piece_pairs. cbn [truthy]. rewrite IH.
  destruct (has_elements kv) eqn:E.
  - cbn [map]. destruct (entry_pairs_cons kv E) as (a & l & _ & ->).
    cbn [map]. now rewrite join_not_empty by apply pair_text_not_empty.
  - now rewrite (entry_pairs_nil kv E).
Qed.

Lemma flat_map_pairs (q : Query) :
  List.concat (map (fun kv => map pair_text (entry_pairs kv)) q)
  = map pair_text (flat_map entry_pairs q).
Proof.
  induction q as [|kv q IH]; cbn [flat_map map List.concat];
    [reflexivity|now rewrite map_app, IH].
Qed.

(** The string the encoder writes: nothing when no entry has an
    element, else the pairs of the entries that have some. *)
Lemma buildUrlQuery_pairs (q : Query) :
  buildUrlQuery q [] []
  = match List.filter has_elements q with
    | [] => EmptyString
    | _ :: _ =>
        String "?"
          (Js.join "&"
             (map pair_text (flat_map entry_pairs (List.filter has_elements q))))
    end.
Proof.
  unfold buildUrlQuery. rewrite truthy_pairs.
  set (q' := List.filter has_elements q).
  assert (Hq' : Forall (fun kv => has_elements kv = true) q').
  { apply Forall_forall. intros kv Hin. now apply filter_In in Hin as [_ H]. }
  clearbody q'.
  replace (map (fun kv => Js.join "&" (map pair_text (entry_pairs kv))) q')
    with (map (Js.join "&") (map (fun kv => map pair_text (entry_pairs kv)) q'))
    by now rewrite map_map.
  rewrite join_join.
  - rewrite flat_map_pairs. destruct q' as [|kv q']; [reflexivity|].
    inversion Hq' as [|? ? Hkv _]; subst.
    destruct (entry_pairs_cons kv Hkv) as (a & l & _ & E).
    cbn [flat_map]. rewrite E. cbn [app map].
    now rewrite join_not_empty by apply pair_text_not_empty.
  - apply Forall_forall. intros l Hl.
    apply in_map_iff in Hl as (kv & <- & Hin).
    rewrite Forall_forall in Hq'.
    destruct (entry_pairs_cons kv (Hq' kv Hin)) as (a & l & _ & ->).
    discriminate.
Qed.

(** *** What [URLSearchParams] reads *)

Lemma parse_pair_text (p : string * string) :
  Js.contains "=" (fst p) = false ->
  Js.contains "+" (fst p) = false -> Js.contains "%" (fst p) = false ->
  Js.contains "+" (snd p) = false -> Js.contains "%" (snd p) = false ->
  Js.parse_pair (pair_text p) = p.
Proof.
  destruct p as [k t]. cbn [fst snd]. intros Heq Hk1 Hk2 Ht1 Ht2.
  unfold Js.parse_pair, pair_text. cbn [fst snd].
  rewrite (break_append "=" k t Heq).
  now rewrite !form_decode_plain.
Qed.

Lemma URLSearchParams_text (ps : list (string * string)) :
  ps <> [] ->
  Forall (fun p => Js.contains "&" (pair_text p) = false
                   /\ Js.parse_pair (pair_text p) = p) ps ->
  Js.URLSearchParams (String "?" (Js.join "&" (map pair_text ps))) = ps.
Proof.
  intros Hne Hall. unfold Js.URLSearchParams.
  change (Js.strip_question (String "?" (Js.join "&" (map pair_text ps))))
    with (Js.join "&" (map pair_text ps)).
  rewrite split_join.
  - clear Hne. induction Hall as [|p ps [_ Hp] _ IH]; [reflexivity|].
    cbn [map List.filter]. rewrite pair_text_not_empty.
    cbn [negb map]. now rewrite Hp, IH.
  - destruct ps; [contradiction|discriminate].
  - apply Forall_forall. intros t Ht.
    apply in_map_iff in Ht as (p & <- & Hin).
    rewrite Forall_forall in Hall. now destruct (Hall p Hin).
Qed.

(** The brackets of a raw key are the only thing it adds to the key. *)
Lemma raw_key_chars (c : ascii) (kv : string * value) :
  Js.contains c "[]" = false ->
  Js.contains c (raw_key kv) = Js.contains c (fst kv).
Proof.
  intros Hc. unfold raw_key. destruct (snd kv); [reflexivity|].
  now rewrite contains_append, Hc, orb_false_r.
Qed.

Lemma entry_pairs_plain (q : Query) :
  forallb url_entry q = true ->
  Forall (fun p => Js.contains "&" (pair_text p) = false
                   /\ Js.parse_pair (pair_text p) = p)
         (flat_map entry_pairs q).
Proof.
  intros Hq. apply Forall_forall. intros [key text] Hin.
  apply in_flat_map in Hin as (kv & Hkv & Hin).
  rewrite forallb_forall in Hq.
  destruct (url_entry_inv kv (Hq _ Hkv)) as (Hk & Hl).
  unfold entry_pairs in Hin.
  apply in_map_iff in Hin as (b & [= <- <-] & Hb).
  rewrite forallb_forall in Hl.
  destruct (url_plain_inv _ (Hl b Hb)) as (Ht1 & Ht2 & Ht3).
  destruct (plain_key_inv _ Hk) as (Hk1 & Hk2 & Hk3 & Hk4 & _).
  split.
  - unfold pair_text. cbn [fst snd].
    rewrite contains_append, raw_key_chars by reflexivity.
    cbn [Js.contains]. now rewrite Hk1, Ht1.
  - apply parse_pair_text; cbn [fst snd]; auto;
      now rewrite raw_key_chars by reflexivity.
Qed.

(** *** What the decoder builds *)

Lemma replace_brackets_plain (k : string) :
  Js.has_brackets k = false -> Js.replace_brackets k = k.
Proof.
  induction k as [|c k IH]; intros Hk; [reflexivity|].
  destruct k as [|c' k]; [reflexivity|].
  change (Js.has_brackets (String c (String c' k)))
    with ((Ascii.eqb c "[" && Ascii.eqb c' "]")
          || Js.has_brackets (String c' k)) in Hk.
  apply orb_false_iff in Hk as [Hcc Hk].
  change (Js.replace_brackets (String c (String c' k)))
    with (if Ascii.eqb c "[" && Ascii.eqb c' "]" then k
          else String c (Js.replace_brackets (String c' k))).
  now rewrite Hcc, (IH Hk).
Qed.

(** The decoder finds the key of an entry in its raw key. *)
Lemma replace_brackets_raw_key (kv : string * value) :
  Js.has_brackets (fst kv) = false ->
  Js.replace_brackets (raw_key kv) = fst kv.
Proof.
  intros Hk. unfold raw_key. destruct (snd kv).
  - now apply replace_brackets_plain.
  - now apply replace_brackets_append.
Qed.

Lemma raw_key_inj (kv kv' : string * value) :
  Js.has_brackets (fst kv) = false -> Js.has_brackets (fst kv') = false ->
  raw_key kv = raw_key kv' -> fst kv = fst kv'.
Proof.
  intros Hk Hk' E.
  rewrite <- (replace_brackets_raw_key kv Hk),
          <- (replace_brackets_raw_key kv' Hk').
  now rewrite E.
Qed.

Lemma getAll_app (name : string) (a b : list (string * string)) :
  Js.getAll name (a ++ b) = Js.getAll name a ++ Js.getAll name b.
Proof. unfold Js.getAll. now rewrite filter_app, map_app. Qed.

Lemma getAll_own (kv : string * value) :
  Js.getAll (raw_key kv) (entry_pairs kv)
  = map scalar_text (elements (snd kv)).
Proof.
  unfold Js.getAll, entry_pairs.
  induction (elements (snd kv)) as [|a l IH]; [reflexivity|].
  cbn [map List.filter fst snd]. rewrite String.eqb_refl.
  cbn [map snd]. now rewrite IH.
Qed.

Lemma getAll_other (kv kv' : string * value) :
  raw_key kv' <> raw_key kv ->
  Js.getAll (raw_key kv) (entry_pairs kv') = [].
Proof.
  intros Hne. unfold Js.getAll, entry_pairs.
  induction (elements (snd kv')) as [|a l IH]; [reflexivity|].
  cbn [map List.filter fst snd].
  destruct (String.eqb_spec (raw_key kv') (raw_key kv));
    [contradiction|exact IH].
Qed.

Lemma getAll_absent (kv : string * value) (q : Query) :
  Js.has_brackets (fst kv) = false ->
  forallb url_entry q = true ->
  ~ In (fst kv) (Js.keys q) ->
  Js.getAll (raw_key kv) (flat_map entry_pairs q) = [].
Proof.
  intros Hk. induction q as [|kv' q IH]; intros Hq Hin; [reflexivity|].
  cbn [forallb] in Hq. apply andb_true_iff in Hq as [Hkv Hq].
  destruct (url_entry_inv kv' Hkv) as (Hk' & _).
  destruct (plain_key_inv _ Hk') as (_ & _ & _ & _ & Hb').
  cbn [flat_map]. rewrite getAll_app, IH; auto.
  - rewrite getAll_other; [reflexivity|].
    intros E. apply Hin. left. now apply raw_key_inj.
  - intros H. apply Hin. now right.
Qed.

(** All the values under the raw key of an entry are the texts of its
    scalars. *)
Lemma getAll_entry (q : Query) (kv : string * value) :
  NoDup (Js.keys q) ->
  forallb url_entry q = true ->
  In kv q ->
  Js.getAll (raw_key kv) (flat_map entry_pairs q)
  = map scalar_text (elements (snd kv)).
Proof.
  induction q as [|kv' q IH]; intros Hnd Hq Hin; [contradiction|].
  cbn [Js.keys map] in Hnd. inversion Hnd as [|? ? Hfresh Hnd']; subst.
  cbn [forallb] in Hq. apply andb_true_iff in Hq as [Hkv Hq].
  destruct (url_entry_inv kv' Hkv) as (Hk' & _).
  destruct (plain_key_inv _ Hk') as (_ & _ & _ & _ & Hb').
  cbn [flat_map]. rewrite getAll_app.
  destruct Hin as [<-|Hin].
  - rewrite getAll_own, getAll_absent; auto. apply List.app_nil_r.
  - assert (Hk : url_entry kv = true)
      by (rewrite forallb_forall in Hq; now apply Hq).
    destruct (url_entry_inv _ Hk) as (Hkk & _).
    destruct (plain_key_inv _ Hkk) as (_ & _ & _ & _ & Hb).
    rewrite getAll_other, (IH Hnd' Hq Hin); [reflexivity|].
    intros E. apply Hfresh. rewrite (raw_key_inj kv' kv Hb' Hb E).
    now apply in_map.
Qed.

(** Pairs whose key the object already has are passed over. *)
Lemma forEach_param_skip (params skipped rest : list (string * string))
      (done : Query) :
  Js.has_method done = true ->
  (forall p, In p skipped ->
             Js.hasOwnProperty (Js.replace_brackets (fst p)) done = true) ->
  forEach_param params (skipped ++ rest) done = forEach_param params rest done.
Proof.
  intros Hm. induction skipped as [|[key text] skipped IH]; intros H;
    [reflexivity|].
  cbn [app forEach_param]. rewrite Hm. cbn [negb].
  pose proof (H (key, text) (or_introl eq_refl)) as Hkey.
  cbn [fst] in Hkey. rewrite Hkey.
  apply IH. intros p Hp. apply H. now right.
Qed.

(** An object keeps its method under a new key of another name. *)
Lemma has_method_app (k : string) (v : value) (done : Query) :
  k <> "hasOwnProperty" ->
  Js.has_method done = true ->
  Js.has_method (done ++ [(k, v)]) = true.
Proof.
  unfold Js.has_method, Js.hasOwnProperty. intros Hk Hm.
  destruct (Js.get "hasOwnProperty" done) eqn:E; [discriminate|].
  rewrite (get_app_fresh _ _ _ E). cbn [Js.get].
  now destruct (String.eqb_spec k "hasOwnProperty").
Qed.

(** The loop of the decoder over the pairs of the entries [todo], once
    the entries [done] are built: each entry is read again, in order. *)
Lemma forEach_param_entries (params : list (string * string)) (todo : Query) :
  forall (done : Query) (skipped : list (string * string)),
    Js.has_method done = true ->
    (forall p, In p skipped ->
               Js.hasOwnProperty (Js.replace_brackets (fst p)) done = true) ->
    NoDup (Js.keys todo) ->
    (forall k, In k (Js.keys todo) -> Js.get k done = None) ->
    forallb url_entry todo = true ->
    forallb has_elements todo = true ->
    (forall kv, In kv todo ->
                Js.getAll (raw_key kv) params
                = map scalar_text (elements (snd kv))) ->
    forEach_param params (skipped ++ flat_map entry_pairs todo) done
    = (r <- reread todo ;; Some (Value (done ++ r))).
Proof.
  induction todo as [|kv todo IH];
    intros done skipped Hm Hskip Hnd Hfresh Hplain Hfilled Hall.
  - rewrite forEach_param_skip by assumption. cbn. now rewrite List.app_nil_r.
  - rewrite forEach_param_skip by assumption.
    cbn [forallb] in Hplain, Hfilled.
    apply andb_true_iff in Hplain as [Hkv Hplain].
    apply andb_true_iff in Hfilled as [Hne Hfilled].
    destruct (url_entry_inv kv Hkv) as (Hk & Hl).
    destruct (plain_key_inv _ Hk) as (_ & _ & _ & _ & Hb).
    destruct (plain_key_own _ Hk) as (Hown & Hproto & Hindex).
    destruct (entry_pairs_cons kv Hne) as (a & l & Hel & Hpairs).
    cbn [Js.keys map] in Hnd. inversion Hnd as [|? ? Hk_fresh Hnd']; subst.
    pose proof (Hfresh (fst kv) (or_introl eq_refl)) as Hnew.
    cbn [flat_map]. rewrite Hpairs. cbn [app forEach_param].
    rewrite Hm. cbn [negb].
    rewrite (replace_brackets_raw_key kv Hb).
    unfold Js.hasOwnProperty at 1. rewrite Hnew, Hindex.
    rewrite (Hall kv (or_introl eq_refl)).
    cbn [reread]. unfold reread_entry.
    destruct (to_scalars (map scalar_text (elements (snd kv)))) as [vs|];
      [|reflexivity].
    unfold Js.assign. rewrite Hproto.
    rewrite (set_fresh _ (Array vs) done Hnew).
    rewrite (IH (done ++ [(fst kv, Array vs)])
                (map (fun b => (raw_key kv, scalar_text b)) l)).
    + destruct (reread todo) as [r|]; [|reflexivity].
      now rewrite <- List.app_assoc.
    + now apply has_method_app.
    + intros p Hp. apply in_map_iff in Hp as (b & <- & _). cbn [fst].
      rewrite (replace_brackets_raw_key kv Hb). unfold Js.hasOwnProperty.
      rewrite get_app_fresh by assumption.
      cbn [Js.get]. now rewrite String.eqb_refl.
    + exact Hnd'.
    + intros k' Hk'. rewrite get_app_fresh by (apply Hfresh; now right).
      cbn [Js.get].
      destruct (String.eqb_spec (fst kv) k') as [<-|]; [contradiction|].
      reflexivity.
    + exact Hplain.
    + exact Hfilled.
    + intros kv' Hin. apply Hall. now right.
Qed.

(** Reading plain entries again gives their lists. *)
Lemma reread_plain (q : Query) :
  forallb plain_entry q = true -> reread q = Some (map decoded_entry q).
Proof.
  induction q as [|kv q IH]; intros H; [reflexivity|].
  cbn [forallb] in H. apply andb_true_iff in H as [Hkv Hq].
  destruct (plain_entry_inv kv Hkv) as (_ & Hl).
  cbn [reread map]. unfold reread_entry.
  now rewrite (to_scalars_plain _ Hl), (IH Hq).
Qed.

Lemma reread_nil (q r : Query) : reread q = Some r -> r = [] -> q = [].
Proof.
  destruct q as [|kv q]; [reflexivity|]. cbn [reread].
  destruct (reread_entry kv); [|discriminate].
  destruct (reread q); [|discriminate]. now intros [= <-].
Qed.


(** Decoding a text whose pairs are those of entries of distinct plain
    keys and plain texts. *)
Lemma decode_params (text : string) (kv : string * value) (rest : Query) :
  Js.is_empty text = false ->
  NoDup (Js.keys (kv :: rest)) ->
  forallb url_entry (kv :: rest) = true ->
  forallb has_elements (kv :: rest) = true ->
  Js.URLSearchParams text = flat_map entry_pairs (kv :: rest) ->
  buildJsonQuery [] text
  = (r <- reread (kv :: rest) ;;
     Some match r with
          | [] => JFalse
          | _ :: _ => JObject r
          end).
Proof.
  intros Htext Hnd Hplain Hfilled Hparams.
  unfold buildJsonQuery. rewrite Htext, Hparams.
  pose proof (forEach_param_entries
                (flat_map entry_pairs (kv :: rest)) (kv :: rest) [] []) as H.
  cbn [app] in H. rewrite H.
  - destruct (reread (kv :: rest)) as [r|] eqn:Er; [|reflexivity].
    cbn [reverse_map]. destruct r as [|e r]; [|reflexivity].
    discriminate (reread_nil _ _ Er eq_refl).
  - reflexivity.
  - intros p [].
  - exact Hnd.
  - reflexivity.
  - exact Hplain.
  - exact Hfilled.
  - intros kv' Hin. now apply getAll_entry.
Qed.

Lemma filter_has_elements (q : Query) :
  forallb has_elements (List.filter has_elements q) = true.
Proof. apply forallb_forall. intros kv Hin. now apply filter_In in Hin. Qed.

Lemma entry_pairs_not_nil (kv : string * value) (rest : Query) :
  forallb has_elements (kv :: rest) = true ->
  flat_map entry_pairs (kv :: rest) <> [].
Proof.
  cbn [forallb]. intros H. apply andb_true_iff in H as [Hkv _].
  destruct (entry_pairs_cons kv Hkv) as (a & l & _ & Ep).
  cbn [flat_map]. rewrite Ep. discriminate.
Qed.

(** Decoding what the encoder wrote, for a query of distinct plain keys
    and plain texts. *)
Lemma decode_written (q : Query) :
  NoDup (Js.keys q) ->
  forallb url_entry q = true ->
  buildJsonQuery [] (buildUrlQuery q [] [])
  = (r <- reread (List.filter has_elements q) ;;
     Some match r with
          | [] => JFalse
          | _ :: _ => JObject r
          end).
Proof.
  intros Hnd Hplain. rewrite buildUrlQuery_pairs.
  pose proof (keys_filter has_elements q Hnd) as Hnd'.
  pose proof (forallb_filter url_entry has_elements q Hplain) as Hplain'.
  pose proof (filter_has_elements q) as Hfilled.
  destruct (List.filter has_elements q) as [|kv rest]; [reflexivity|].
  apply decode_params; try assumption; [reflexivity|].
  apply URLSearchParams_text; [now apply entry_pairs_not_nil|].
  now apply entry_pairs_plain.
Qed.

(** Decoding what the encoder wrote for plain entries. *)
Lemma decode_pairs (q : Query) :
  NoDup (Js.keys q) ->
  forallb plain_entry q = true ->
  buildJsonQuery [] (buildUrlQuery q [] [])
  = Some match decoded q with
         | [] => JFalse
         | _ :: _ => JObject (decoded q)
         end.
Proof.
  intros Hnd Hplain.
  rewrite (decode_written q Hnd (plain_entries_url q Hplain)).
  now rewrite (reread_plain _ (plain_filter has_elements q Hplain)).
Qed.

End RoundTrip.




(* ================================================================== *)
(** ** Further properties of the query codec *)
(* ================================================================== *)

Section Decoder.

Lemma filled_set (k : string) (v : value) (q : Query) :
  filled_list (k, v) = true ->
  forallb filled_list q = true ->
  forallb filled_list (Js.set k v q) = true.
Proof.
  intros Hv. induction q as [|[k' v'] q IH]; intros Hq.
  - cbn. now rewrite Hv.
  - cbn [forallb] in Hq. apply andb_true_iff in Hq as [Hkv Hq].
    cbn [Js.set]. destruct (String.eqb k' k); cbn [forallb].
    + now rewrite Hq, andb_true_r.
    + now rewrite Hkv, (IH Hq).
Qed.

Lemma filled_get (k k' : string) (v : value) (q : Query) :
  forallb filled_list q = true ->
  Js.get k q = Some v -> filled_list (k', v) = true.
Proof.
  induction q as [|[k0 v0] q IH]; intros Hq Hget; [discriminate|].
  cbn [forallb] in Hq. apply andb_true_iff in Hq as [Hkv Hq].
  cbn [Js.get] in Hget. destruct (String.eqb k0 k).
  - injection Hget as <-. exact Hkv.
  - now apply IH.
Qed.

Lemma filled_delete (k : string) (q : Query) :
  forallb filled_list q = true ->
  forallb filled_list (Js.delete k q) = true.
Proof.
  intros Hq. apply forallb_forall. intros kv Hin.
  apply filter_In in Hin as [Hin _].
  rewrite forallb_forall in Hq. now apply Hq.
Qed.

Lemma to_scalars_cons (x : string) (l : list string) (vs : list scalar) :
  to_scalars (x :: l) = Some vs -> vs <> [].
Proof.
  cbn [to_scalars]. destruct (to_scalar x); [|discriminate].
  destruct (to_scalars l); [|discriminate].
  intros [= <-]. discriminate.
Qed.

Lemma getAll_in (key text : string) (params : list (string * string)) :
  In (key, text) params -> Js.getAll key params <> [].
Proof.
  unfold Js.getAll. induction params as [|[k t] params IH]; intros Hin;
    [contradiction|].
  cbn [List.filter fst]. destruct (String.eqb_spec k key) as [->|Hne].
  - discriminate.
  - destruct Hin as [[= -> _]|Hin]; [contradiction|now apply IH].
Qed.

Lemma filled_assign (k : string) (v : value) (q : Query) :
  filled_list (k, v) = true ->
  forallb filled_list q = true ->
  forallb filled_list (Js.assign k v q) = true.
Proof.
  intros Hv Hq. unfold Js.assign.
  destruct (String.eqb k "__proto__"); [exact Hq|now apply filled_set].
Qed.

(** The loop of the decoder keeps the object one of lists that are not
    empty. *)
Lemma forEach_param_filled (params : list (string * string)) :
  forall (rest : list (string * string)) (q q' : Query),
    (forall p, In p rest -> In p params) ->
    forallb filled_list q = true ->
    forEach_param params rest q = Some (Value q') ->
    forallb filled_list q' = true.
Proof.
  induction rest as [|[key text] rest IH]; intros q q' Hsub Hq Hrun.
  - now injection Hrun as <-.
  - cbn [forEach_param] in Hrun.
    assert (Hrest : forall p, In p rest -> In p params)
      by (intros p Hp; apply Hsub; now right).
    destruct (Js.has_method q); cbn [negb] in Hrun; [|discriminate].
    destruct (Js.hasOwnProperty (Js.replace_brackets key) q).
    + now apply (IH q q').
    + destruct (Js.index_like (Js.replace_brackets key)); [discriminate|].
      destruct (to_scalars (Js.getAll key params)) as [vs|] eqn:Evs;
        [|discriminate].
      refine (IH _ q' Hrest _ Hrun).
      apply filled_assign; [|exact Hq].
      pose proof (getAll_in key text params (Hsub _ (or_introl eq_refl))) as Hne.
      destruct (Js.getAll key params) as [|x l]; [contradiction|].
      pose proof (to_scalars_cons x l vs Evs) as Hvs.
      unfold filled_list. cbn [snd]. now destruct vs.
Qed.

Lemma reverse_map_filled (hmap : Js.obj string) :
  forall q q' : Query,
    forallb filled_list q = true ->
    reverse_map hmap q = Some (Value q') ->
    forallb filled_list q' = true.
Proof.
  induction hmap as [|[key target] hmap IH]; intros q q' Hq Hrun.
  - now injection Hrun as <-.
  - cbn [reverse_map] in Hrun.
    destruct (Js.has_method q); cbn [negb] in Hrun; [|discriminate].
    destruct (Js.get target q) as [v|] eqn:E; [|now apply (IH q q')].
    destruct (Js.index_like key); [discriminate|].
    refine (IH _ q' _ Hrun).
    apply filled_delete, filled_assign; [|exact Hq].
    exact (filled_get target key v q Hq E).
Qed.

End Decoder.

(** X1. Whatever the query string and the history map, every value of
    the object [buildJsonQuery] builds is a list that is not empty: the
    decoder never produces a scalar, so a page number read from the
    address is a list of one number. *)
Theorem decoder_builds_filled_lists :
  forall (history_map : Js.obj string) (text : string) (q : Query),
    buildJsonQuery history_map text = Some (JObject q) ->
    forallb filled_list q = true.
Proof.
  intros hmap text q. unfold buildJsonQuery.
  destruct (Js.is_empty text); [discriminate|].
  destruct (forEach_param _ _ []) as [[q0|]|] eqn:E; cbn; try discriminate.
  destruct (reverse_map hmap q0) as [[q1|]|] eqn:E1; cbn; try discriminate.
  intros [= <-]. apply (reverse_map_filled hmap q0 q1); [|exact E1].
  exact (forEach_param_filled _ _ [] q0 (fun p H => H) eq_refl E).
Qed.

Lemma decoder_builds_filled_lists_witness :
  forallb filled_list
          [("categories", Array [Num 7; Num 12]); ("page", Array [Num 2])]
  = true.
Proof.
  apply (decoder_builds_filled_lists []
           "?categories[]=7&categories[]=12&page=2").
  reflexivity.
Defined.

Section Prepass.

Lemma renamed_identity (q : Query) : map (renamed []) q = q.
Proof.
  induction q as [|[k v] q IH]; [reflexivity|].
  cbn [map]. now rewrite IH.
Qed.

(** Omitting and renaming are done on the way: the pieces are those of
    the kept entries under their new names. *)
Lemma truthy_prepass (omit : list string) (rev : Js.obj string) (q : Query) :
  truthy (map (url_piece omit rev) q)
  = truthy (map (url_piece [] []) (map (renamed rev) (kept omit q))).
Proof.
  induction q as [|[k v] q IH]; [reflexivity|].
  unfold kept in *. cbn [map List.filter fst].
  unfold url_piece at 1.
  destruct (Js.includes k omit); cbn [negb].
  - cbn [truthy]. exact IH.
  - cbn [map]. unfold renamed at 1. cbn [fst snd].
    unfold url_piece at 2. cbn [Js.includes existsb Js.get].
    cbn [truthy]. now rewrite IH.
Qed.

Lemma buildUrlQuery_kept (omit : list string) (rev : Js.obj string)
      (q : Query) :
  buildUrlQuery q omit rev
  = buildUrlQuery (map (renamed rev) (kept omit q)) [] [].
Proof. unfold buildUrlQuery. now rewrite truthy_prepass. Qed.

End Prepass.

(** X2. Omitting keys and renaming them commute with the encoding.
    For a rename map without a key [hasOwnProperty] of its own, and a
    query that is the listing of an object and stays one once the
    omitted entries are left out and the keys renamed (no two keys are
    renamed to the same name, or to the name of a key that stays, or to
    an array index), the string [buildUrlQuery] writes with the
    list of omitted keys and the rename map is the string it writes,
    with neither, for that second object. *)
Theorem buildUrlQuery_omit_and_rename_first :
  forall (q : Query) (omit : list string) (rev : Js.obj string),
    Js.has_method rev = true ->
    object_listing q = true ->
    object_listing (map (renamed rev) (kept omit q)) = true ->
    buildUrlQuery q omit rev
    = buildUrlQuery (map (renamed rev) (kept omit q)) [] [].
Proof.
  intros q omit rev _ _ _. unfold buildUrlQuery.
  now rewrite truthy_prepass.
Qed.

Lemma buildUrlQuery_omit_and_rename_first_witness :
  buildUrlQuery [("cat", Array [Num 7; Num 9]); ("page", Scalar (Num 1));
                 ("tag", Scalar (Str "news"))]
                ["page"] [("cat", "c")]
  = buildUrlQuery [("c", Array [Num 7; Num 9]); ("tag", Scalar (Str "news"))]
                  [] [].
Proof.
  apply (buildUrlQuery_omit_and_rename_first
           [("cat", Array [Num 7; Num 9]); ("page", Scalar (Num 1));
            ("tag", Scalar (Str "news"))]
           ["page"] [("cat", "c")]); reflexivity.
Defined.

Section AddressBar.

Lemma get_absent {A : Type} (k : string) (o : Js.obj A) :
  ~ In k (Js.keys o) -> Js.get k o = None.
Proof.
  induction o as [|[k' v] o IH]; intros Hin; [reflexivity|].
  cbn [Js.get]. destruct (String.eqb_spec k' k) as [->|Hne].
  - exfalso. apply Hin. now left.
  - apply IH. intros H. apply Hin. now right.
Qed.

Lemma get_present {A : Type} (k : string) (v : A) (o : Js.obj A) :
  NoDup (Js.keys o) -> In (k, v) o -> Js.get k o = Some v.
Proof.
  induction o as [|[k' v'] o IH]; intros Hnd Hin; [contradiction|].
  cbn [Js.keys map fst] in Hnd. inversion Hnd as [|? ? Hfresh Hnd']; subst.
  cbn [Js.get]. destruct Hin as [[= -> ->]|Hin].
  - now rewrite String.eqb_refl.
  - destruct (String.eqb_spec k' k) as [->|Hne]; [|now apply IH].
    exfalso. apply Hfresh. change k with (fst (k, v)). now apply in_map.
Qed.

(** Setting the entries of an object one after the other: a key of the
    object is read from it, any other from what was there. *)
Lemma get_fold_set {A : Type} (k : string) (o : Js.obj A) :
  NoDup (Js.keys o) ->
  forall base : Js.obj A,
    Js.get k (fold_left (fun acc kv => Js.set (fst kv) (snd kv) acc) o base)
    = match Js.get k o with
      | Some v => Some v
      | None => Js.get k base
      end.
Proof.
  induction o as [|[k' v'] o IH]; intros Hnd base; [reflexivity|].
  cbn [Js.keys map fst] in Hnd. inversion Hnd as [|? ? Hfresh Hnd']; subst.
  cbn [fold_left fst snd]. rewrite (IH Hnd'). cbn [Js.get].
  destruct (String.eqb_spec k' k) as [->|Hne].
  - now rewrite (get_absent k o Hfresh), get_set_same.
  - now rewrite get_set_other.
Qed.

Lemma keys_decoded (q : Query) :
  Js.keys (decoded q) = Js.keys (List.filter has_elements q).
Proof. unfold decoded, Js.keys. now rewrite map_map. Qed.

(** *** What the address bar keeps *)

Lemma percent_encode_append (special : bool) (a b : string) :
  Js.percent_encode special (a ++ b)%string
  = (Js.percent_encode special a ++ Js.percent_encode special b)%string.
Proof.
  induction a as [|c a IH]; [reflexivity|].
  change (Js.percent_encode special (String c a ++ b)%string)
    with (Js.percent_encode_char special c
          ++ Js.percent_encode special (a ++ b))%string.
  rewrite IH. symmetry. apply append_assoc.
Qed.

Ltac each_character special c :=
  destruct special; destruct c as [[] [] [] [] [] [] [] []].

(** An escape is a percent sign and two digits: it brings no separator
    and no plus sign of its own. *)
Lemma escape_separators (special : bool) (c : ascii) :
  Js.contains "&" (Js.percent_encode_char special c) = Ascii.eqb c "&"
  /\ Js.contains "=" (Js.percent_encode_char special c) = Ascii.eqb c "="
  /\ Js.contains "+" (Js.percent_encode_char special c) = Ascii.eqb c "+".
Proof. each_character special c; repeat split; reflexivity. Qed.

Lemma percent_encode_contains (special : bool) (x : ascii) (s : string) :
  x = "&"%char \/ x = "="%char \/ x = "+"%char ->
  Js.contains x (Js.percent_encode special s) = Js.contains x s.
Proof.
  intros Hx. induction s as [|c s IH]; [reflexivity|].
  cbn [Js.percent_encode Js.contains]. rewrite contains_append, IH.
  destruct (escape_separators special c) as (H1 & H2 & H3).
  destruct Hx as [->|[->| ->]]; now rewrite ?H1, ?H2, ?H3.
Qed.

(** Reading an escape gives the character it was written for. *)
Lemma percent_decode_escape (special : bool) (c : ascii) (r : string) :
  Ascii.eqb c "%" = false ->
  Js.percent_decode (Js.percent_encode_char special c ++ r)%string
  = String c (Js.percent_decode r).
Proof.
  each_character special c; intros H;
    first [reflexivity | vm_compute in H; discriminate H].
Qed.

Lemma percent_decode_encode (special : bool) (s : string) :
  Js.contains "%" s = false ->
  Js.percent_decode (Js.percent_encode special s) = s.
Proof.
  induction s as [|c s IH]; intros Hs; [reflexivity|].
  cbn [Js.contains] in Hs. apply orb_false_iff in Hs as [Hc Hs].
  cbn [Js.percent_encode].
  now rewrite (percent_decode_escape special c _ Hc), (IH Hs).
Qed.

Lemma form_decode_encode (special : bool) (s : string) :
  Js.contains "+" s = false -> Js.contains "%" s = false ->
  Js.form_decode (Js.percent_encode special s) = s.
Proof.
  intros Hplus Hpct. unfold Js.form_decode.
  rewrite plus_to_space_plain
    by (rewrite percent_encode_contains; auto).
  now apply percent_decode_encode.
Qed.

Lemma percent_encode_separator (special : bool) (c : ascii) (r : string) :
  c = "&"%char \/ c = "="%char ->
  Js.percent_encode special (String c r)
  = String c (Js.percent_encode special r).
Proof. intros [->| ->]; now destruct special. Qed.

Lemma percent_encode_join (special : bool) (l : list string) :
  Js.percent_encode special (Js.join "&" l)
  = Js.join "&" (map (Js.percent_encode special) l).
Proof.
  induction l as [|x l IH]; [reflexivity|].
  destruct l as [|y l]; [reflexivity|].
  change (Js.join "&" (x :: y :: l))
    with (x ++ String "&" (Js.join "&" (y :: l)))%string.
  rewrite percent_encode_append, percent_encode_separator, IH by now left.
  reflexivity.
Qed.

Lemma percent_encode_pair (special : bool) (p : string * string) :
  Js.percent_encode special (pair_text p)
  = pair_text (Js.percent_encode special (fst p),
               Js.percent_encode special (snd p)).
Proof.
  unfold pair_text. cbn [fst snd].
  now rewrite percent_encode_append, percent_encode_separator by now right.
Qed.

Lemma percent_encode_empty (special : bool) (s : string) :
  Js.is_empty (Js.percent_encode special s) = Js.is_empty s.
Proof.
  destruct s as [|c s]; [reflexivity|].
  cbn [Js.percent_encode]. unfold Js.percent_encode_char.
  now destruct (Js.in_query_set special c).
Qed.

Lemma parse_pair_escaped (special : bool) (p : string * string) :
  Js.contains "=" (fst p) = false ->
  Js.contains "+" (fst p) = false -> Js.contains "%" (fst p) = false ->
  Js.contains "+" (snd p) = false -> Js.contains "%" (snd p) = false ->
  Js.parse_pair (Js.percent_encode special (pair_text p)) = p.
Proof.
  destruct p as [k t]. cbn [fst snd]. intros Heq Hk1 Hk2 Ht1 Ht2.
  rewrite percent_encode_pair. unfold Js.parse_pair, pair_text. cbn [fst snd].
  rewrite break_append by (rewrite percent_encode_contains; auto).
  now rewrite !form_decode_encode.
Qed.

(** What [URLSearchParams] reads from the escaped text of pairs. *)
Lemma URLSearchParams_escaped (special : bool) (ps : list (string * string)) :
  ps <> [] ->
  Forall (fun p => Js.contains "&" (pair_text p) = false
                   /\ Js.parse_pair (Js.percent_encode special (pair_text p))
                      = p) ps ->
  Js.URLSearchParams
    (String "?" (Js.percent_encode special (Js.join "&" (map pair_text ps))))
  = ps.
Proof.
  intros Hne Hall. unfold Js.URLSearchParams.
  change (Js.strip_question
            (String "?" (Js.percent_encode special
                           (Js.join "&" (map pair_text ps)))))
    with (Js.percent_encode special (Js.join "&" (map pair_text ps))).
  rewrite percent_encode_join, split_join.
  - clear Hne. induction Hall as [|p ps [_ Hp] _ IH]; [reflexivity|].
    cbn [map List.filter].
    rewrite percent_encode_empty, pair_text_not_empty.
    cbn [negb map]. now rewrite Hp, IH.
  - destruct ps; [contradiction|discriminate].
  - apply Forall_forall. intros t Ht.
    apply in_map_iff in Ht as (t' & <- & Ht').
    apply in_map_iff in Ht' as (p & <- & Hin).
    rewrite Forall_forall in Hall. destruct (Hall p Hin) as [Hamp _].
    rewrite percent_encode_contains by now left. exact Hamp.
Qed.

Lemma all_chars_append (f : ascii -> bool) (a b : string) :
  all_chars f (a ++ b)%string = all_chars f a && all_chars f b.
Proof.
  induction a as [|c a IH]; [reflexivity|].
  cbn [append all_chars]. now rewrite IH, andb_assoc.
Qed.

Lemma printable_append (a b : string) :
  printable (a ++ b)%string = printable a && printable b.
Proof. apply all_chars_append. Qed.

Lemma printable_join (l : list string) :
  forallb printable l = true -> printable (Js.join "&" l) = true.
Proof.
  induction l as [|x l IH]; intros H; [reflexivity|].
  cbn [forallb] in H. apply andb_true_iff in H as [Hx Hl].
  destruct l as [|y l]; [exact Hx|].
  change (Js.join "&" (x :: y :: l))
    with (x ++ String "&" (Js.join "&" (y :: l)))%string.
  rewrite printable_append, Hx.
  change (printable (String "&" (Js.join "&" (y :: l))))
    with (printable (Js.join "&" (y :: l))).
  now apply IH.
Qed.

Lemma remove_tab_newline_printable (s : string) :
  printable s = true -> Js.remove_tab_newline s = s.
Proof.
  induction s as [|c s IH]; intros H; [reflexivity|].
  unfold printable in H. cbn [all_chars] in H.
  apply andb_true_iff in H as [Hc Hs].
  apply andb_true_iff in Hc as [_ Hc]. apply N.leb_le in Hc.
  cbn [Js.remove_tab_newline].
  assert (Hno : Js.is_tab_or_newline c = false).
  { unfold Js.is_tab_or_newline.
    destruct (N.eqb_spec (Js.code c) 9); [lia|].
    destruct (N.eqb_spec (Js.code c) 10); [lia|].
    destruct (N.eqb_spec (Js.code c) 13); [lia|reflexivity]. }
  now rewrite Hno, (IH Hs).
Qed.

Lemma before_hash_printable (s : string) :
  printable s = true -> Js.before_hash s = s.
Proof.
  induction s as [|c s IH]; intros H; [reflexivity|].
  unfold printable in H. cbn [all_chars] in H.
  apply andb_true_iff in H as [Hc Hs].
  apply andb_true_iff in Hc as [Hc _]. apply negb_true_iff in Hc.
  cbn [Js.before_hash]. now rewrite Hc, (IH Hs).
Qed.

Lemma trim_end_append (a b : string) :
  Js.is_empty b = false -> Js.trim_end b = b ->
  Js.trim_end (a ++ b)%string = (a ++ b)%string.
Proof.
  intros Hne Hb. induction a as [|c a IH]; [exact Hb|].
  cbn [append Js.trim_end]. rewrite IH, is_empty_append, Hne, andb_false_r.
  reflexivity.
Qed.

Lemma trim_end_cons (c : ascii) (t : string) :
  (Js.code c <=? 32)%N = false -> Js.trim_end t = t ->
  Js.trim_end (String c t) = String c t.
Proof.
  intros Hc Ht. cbn [Js.trim_end]. now rewrite Ht, Hc, andb_false_r.
Qed.

Lemma trim_end_pair (p : string * string) :
  Js.trim_end (snd p) = snd p -> Js.trim_end (pair_text p) = pair_text p.
Proof.
  intros H. unfold pair_text.
  apply trim_end_append; [reflexivity|]. now apply trim_end_cons.
Qed.

Lemma trim_end_join (l : list string) :
  l <> [] ->
  Forall (fun x => Js.is_empty x = false /\ Js.trim_end x = x) l ->
  Js.trim_end (Js.join "&" l) = Js.join "&" l.
Proof.
  induction l as [|x l IH]; intros Hne Hall; [contradiction|].
  inversion Hall as [|? ? [Hx1 Hx2] Hrest]; subst.
  destruct l as [|y l]; [exact Hx2|].
  change (Js.join "&" (x :: y :: l))
    with (x ++ String "&" (Js.join "&" (y :: l)))%string.
  apply trim_end_append; [reflexivity|].
  apply trim_end_cons; [reflexivity|]. now apply IH.
Qed.

Lemma join_pairs_not_empty (p : string * string) (ps : list (string * string)) :
  Js.is_empty (Js.join "&" (map pair_text (p :: ps))) = false.
Proof.
  destruct ps as [|p' ps]; cbn [map].
  - apply pair_text_not_empty.
  - change (Js.join "&" (pair_text p :: pair_text p' :: map pair_text ps))
      with (pair_text p
            ++ String "&" (Js.join "&" (pair_text p' :: map pair_text ps)))%string.
    now rewrite is_empty_append, pair_text_not_empty.
Qed.

(** The address bar gives the written pairs back with their escapes. *)
Lemma location_search_pairs (special : bool) (ps : list (string * string)) :
  ps <> [] ->
  Forall (fun p => printable (fst p) = true /\ printable (snd p) = true
                   /\ Js.trim_end (snd p) = snd p) ps ->
  Js.location_search special
    (String "?" (Js.join "&" (map pair_text ps)))
  = String "?" (Js.percent_encode special (Js.join "&" (map pair_text ps))).
Proof.
  intros Hne Hall.
  set (text := Js.join "&" (map pair_text ps)).
  assert (Hprint : printable text = true).
  { apply printable_join, forallb_forall. intros t Ht.
    apply in_map_iff in Ht as (p & <- & Hin).
    rewrite Forall_forall in Hall. destruct (Hall p Hin) as (Hk & Ht & _).
    unfold pair_text. rewrite printable_append, Hk. exact Ht. }
  assert (Htrim : Js.trim_end text = text).
  { apply trim_end_join.
    - destruct ps; [contradiction|discriminate].
    - apply Forall_forall. intros t Ht.
      apply in_map_iff in Ht as (p & <- & Hin).
      rewrite Forall_forall in Hall. destruct (Hall p Hin) as (_ & _ & Ht).
      split; [apply pair_text_not_empty|now apply trim_end_pair]. }
  assert (Hfull : Js.is_empty text = false).
  { unfold text. destruct ps as [|p ps]; [contradiction|].
    apply join_pairs_not_empty. }
  unfold Js.location_search.
  rewrite (trim_end_cons "?" text eq_refl Htrim).
  change (Js.remove_tab_newline (String "?" text))
    with (String "?" (Js.remove_tab_newline text)).
  rewrite (remove_tab_newline_printable text Hprint).
  cbn [Js.after_path Ascii.eqb Bool.eqb].
  rewrite (before_hash_printable text Hprint).
  cbv zeta. now rewrite percent_encode_empty, Hfull.
Qed.

Lemma address_entry_inv (kv : string * value) :
  address_entry kv = true ->
  plain_entry kv = true /\ printable (fst kv) = true
  /\ forallb (fun a => address_text (scalar_text a)) (elements (snd kv)) = true.
Proof.
  unfold address_entry. intros H.
  apply andb_true_iff in H as [H H3]. apply andb_true_iff in H as [H1 H2].
  auto.
Qed.

Lemma address_entries_plain (q : Query) :
  forallb address_entry q = true -> forallb plain_entry q = true.
Proof.
  rewrite !forallb_forall. intros H kv Hin.
  now destruct (address_entry_inv kv (H kv Hin)).
Qed.

Lemma printable_raw_key (kv : string * value) :
  printable (fst kv) = true -> printable (raw_key kv) = true.
Proof.
  intros H. unfold raw_key. destruct (snd kv); [exact H|].
  now rewrite printable_append, H.
Qed.

(** The pairs of address entries are read back from the address bar. *)
Lemma entry_pairs_address (special : bool) (q : Query) :
  forallb address_entry q = true ->
  Forall (fun p => (Js.contains "&" (pair_text p) = false
                    /\ Js.parse_pair (Js.percent_encode special (pair_text p))
                       = p)
                   /\ printable (fst p) = true /\ printable (snd p) = true
                   /\ Js.trim_end (snd p) = snd p)
         (flat_map entry_pairs q).
Proof.
  intros Hq. apply Forall_forall. intros [key text] Hin.
  apply in_flat_map in Hin as (kv & Hkv & Hin).
  rewrite forallb_forall in Hq.
  destruct (address_entry_inv kv (Hq _ Hkv)) as (Hplain & Hprint & Haddr).
  destruct (url_entry_inv kv (plain_entry_url kv Hplain)) as (Hk & Hl).
  unfold entry_pairs in Hin.
  apply in_map_iff in Hin as (b & [= <- <-] & Hb).
  rewrite forallb_forall in Hl, Haddr.
  destruct (url_plain_inv _ (Hl b Hb)) as (Ht1 & Ht2 & Ht3).
  destruct (plain_key_inv _ Hk) as (Hk1 & Hk2 & Hk3 & Hk4 & _).
  pose proof (Haddr b Hb) as Hb'. unfold address_text in Hb'.
  apply andb_true_iff in Hb' as [Hb' Htrim].
  apply andb_true_iff in Hb' as [_ Hbp].
  apply String.eqb_eq in Htrim.
  cbn [fst snd]. repeat split.
  - unfold pair_text. cbn [fst snd].
    rewrite contains_append, raw_key_chars by reflexivity.
    cbn [Js.contains]. now rewrite Hk1, Ht1.
  - apply parse_pair_escaped; cbn [fst snd]; auto;
      now rewrite raw_key_chars by reflexivity.
  - now apply printable_raw_key.
  - exact Hbp.
  - exact Htrim.
Qed.

(** Decoding what the address bar holds once the encoder's text is
    written to it. *)
Lemma decode_address (special : bool) (q : Query) :
  NoDup (Js.keys q) ->
  forallb address_entry q = true ->
  buildJsonQuery [] (Js.location_search special (buildUrlQuery q [] []))
  = Some match decoded q with
         | [] => JFalse
         | _ :: _ => JObject (decoded q)
         end.
Proof.
  intros Hnd Haddr. rewrite buildUrlQuery_pairs. unfold decoded.
  pose proof (keys_filter has_elements q Hnd) as Hnd'.
  pose proof (forallb_filter address_entry has_elements q Haddr) as Haddr'.
  pose proof (filter_has_elements q) as Hfilled.
  destruct (List.filter has_elements q) as [|kv rest]; [reflexivity|].
  pose proof (address_entries_plain _ Haddr') as Hplain.
  pose proof (entry_pairs_not_nil kv rest Hfilled) as Hpairs.
  pose proof (entry_pairs_address special _ Haddr') as Hall.
  rewrite (location_search_pairs special _ Hpairs)
    by (eapply Forall_impl; [|exact Hall]; cbn beta; intuition).
  rewrite (decode_params _ kv rest); try assumption.
  - now rewrite (reread_plain _ Hplain).
  - reflexivity.
  - now apply plain_entries_url.
  - apply URLSearchParams_escaped; [exact Hpairs|].
    eapply Forall_impl; [|exact Hall]. cbn beta. intuition.
Qed.

(** No key of plain entries is the name of the method. *)
Lemma decoded_has_method (q : Query) :
  forallb plain_entry q = true ->
  Js.hasOwnProperty "hasOwnProperty" (decoded q) = false.
Proof.
  unfold decoded, Js.hasOwnProperty.
  induction q as [|kv q IH]; intros H; [reflexivity|].
  cbn [forallb] in H. apply andb_true_iff in H as [Hkv Hq].
  destruct (plain_entry_inv kv Hkv) as (Hk & _).
  destruct (plain_key_own _ Hk) as (Hown & _).
  cbn [List.filter]. destruct (has_elements kv); [|now apply IH].
  cbn [map decoded_entry Js.get].
  destruct (String.eqb_spec (fst kv) "hasOwnProperty"); [contradiction|].
  now apply IH.
Qed.

Context {raw item : Type}.
Variable cfg : Config raw item.

Lemma history_query_keys (q : Query) :
  NoDup (Js.keys q) ->
  NoDup (Js.keys (kept (history_omit cfg) (history_query cfg q))).
Proof.
  intros Hnd. unfold kept, history_query, safe_params.
  destruct (history_filterParams cfg); repeat apply keys_filter; exact Hnd.
Qed.

Lemma history_query_address (q : Query) :
  forallb address_entry q = true ->
  forallb address_entry (kept (history_omit cfg) (history_query cfg q)) = true.
Proof.
  intros Hq. unfold kept, history_query, safe_params.
  destruct (history_filterParams cfg); repeat apply forallb_filter; exact Hq.
Qed.

End AddressBar.

(** X3. The address the component writes restores its filters.  With an
    empty history map, for a query of distinct keys whose entries the
    address bar gives back, [getState] on what [window.location.search]
    holds once [replaceState] has written its query string, in a
    document of a special scheme or of another, returns; it sets every
    key that was written (not omitted, and among the parameters when
    these are filtered) to the list of its scalars, and leaves every
    other key of the query as it was; the rest of the state is
    untouched. *)
Theorem address_restores_filters :
  forall (raw item : Type) (cfg : Config raw item) (special : bool)
         (q : Query) (s : State item),
    history_map cfg = [] ->
    NoDup (Js.keys q) ->
    forallb address_entry q = true ->
    exists s',
      getState cfg (Js.location_search special (history_state cfg q)) s
      = Some (Returns s')
      /\ (forall k,
             Js.get k (query s')
             = match Js.get k (decoded (kept (history_omit cfg)
                                             (history_query cfg q))) with
               | Some v => Some v
               | None => Js.get k (query s)
               end)
      /\ (forall k a l,
             In (k, Array (a :: l))
                (kept (history_omit cfg) (history_query cfg q)) ->
             Js.get k (query s') = Some (Array (a :: l)))
      /\ terms s' = terms s /\ posts s' = posts s /\ init s' = init s.
Proof.
  intros raw item cfg special q s Hmap Hnd Haddr.
  set (written := kept (history_omit cfg) (history_query cfg q)).
  assert (Hnd' : NoDup (Js.keys written)) by now apply history_query_keys.
  assert (Haddr' : forallb address_entry written = true)
    by now apply history_query_address.
  assert (Hkeys : NoDup (Js.keys (decoded written))).
  { rewrite keys_decoded. now apply keys_filter. }
  assert (Htext : history_state cfg q = buildUrlQuery written [] []).
  { unfold history_state. rewrite Hmap, buildUrlQuery_kept.
    now rewrite renamed_identity. }
  assert (Hrun : exists s',
             getState cfg (Js.location_search special (history_state cfg q)) s
             = Some (Returns s')
             /\ query s'
                = fold_left (fun acc kv => Js.set (fst kv) (snd kv) acc)
                            (decoded written) (query s)
             /\ terms s' = terms s /\ posts s' = posts s /\ init s' = init s).
  { unfold getState.
    rewrite Hmap, Htext, (decode_address special written Hnd' Haddr').
    pose proof (decoded_has_method written
                  (address_entries_plain _ Haddr')) as Hown.
    destruct (decoded written) as [|kv rest].
    - now exists s.
    - cbn beta iota. rewrite Hown. eexists. split; [reflexivity|]. now cbn. }
  destruct Hrun as (s' & Hs' & Hquery & Hterms & Hposts & Hinit).
  assert (Hget : forall k,
             Js.get k (query s')
             = match Js.get k (decoded written) with
               | Some v => Some v
               | None => Js.get k (query s)
               end).
  { intros k. rewrite Hquery. now apply get_fold_set. }
  exists s'. split; [exact Hs'|]. split; [exact Hget|].
  split; [|now repeat split].
  intros k a l Hin. rewrite Hget.
  rewrite (get_present k (Array (a :: l)) (decoded written) Hkeys);
    [reflexivity|].
  unfold decoded.
  change (k, Array (a :: l)) with (decoded_entry (k, Array (a :: l))).
  apply in_map, filter_In. now split.
Qed.

Lemma address_restores_filters_witness :
  exists s',
    getState demo_config
      "?categories[]=7&categories[]=9&search[]=new%20york%27s" initial
    = Some (Returns s')
    /\ Js.get "categories" (query s') = Some (Array [Num 7; Num 9])
    /\ Js.get "search" (query s') = Some (Array [Str "new york's"])
    /\ Js.get "page" (query s') = Some (Scalar (Num 1)).
Proof.
  destruct (address_restores_filters string string demo_config true
              [("page", Scalar (Num 1)); ("per_page", Scalar (Num 5));
               ("categories", Array [Num 7; Num 9]);
               ("search", Array [Str "new york's"])]
              (@initial string))
    as (s' & Hs' & Hget & Hlist & _).
  - reflexivity.
  - repeat constructor; cbn; intuition discriminate.
  - reflexivity.
  - exists s'. split; [exact Hs'|]. split; [|split].
    + apply Hlist. cbn. auto.
    + apply Hlist. cbn. auto.
    + now rewrite Hget.
Defined.

Section SafeParams.
Context {raw item : Type}.
Variable cfg : Config raw item.

Lemma safe_params_set (k : string) (v : value) (q : Query) :
  Js.includes k (params cfg) = false ->
  safe_params cfg (Js.set k v q) = safe_params cfg q.
Proof.
  intros Hk. unfold safe_params.
  induction q as [|[k' v'] q IH].
  - cbn [Js.set List.filter fst]. now rewrite Hk.
  - cbn [Js.set]. destruct (String.eqb_spec k' k) as [->|Hne].
    + cbn [List.filter fst]. now rewrite Hk.
    + cbn [List.filter fst]. now rewrite IH.
Qed.

End SafeParams.

(** X4. A key that is not among the parameters never reaches the
    server: setting it in the query leaves the url of the request as it
    was.  A filter on a taxonomy takes effect only once its slug is
    added to the parameters. *)
Theorem request_leaves_out_other_keys :
  forall (raw item : Type) (cfg : Config raw item) (k : string)
         (v : value) (q : Query),
    Js.includes k (params cfg) = false ->
    request_url cfg (Js.set k v q) = request_url cfg q.
Proof.
  intros raw item cfg k v q Hk. unfold request_url.
  now rewrite safe_params_set.
Qed.

Lemma request_leaves_out_other_keys_witness :
  request_url demo_config
    (Js.set "programs" (Array [Num 4]) default_query)
  = request_url demo_config default_query.
Proof.
  apply (request_leaves_out_other_keys string string demo_config).
  reflexivity.
Defined.

(* ================================================================== *)
(** ** Further properties of the fetch controller *)
(* ================================================================== *)

Lemma delete_set_same {A : Type} (k : string) (v : A) (o : Js.obj A) :
  Js.delete k (Js.set k v o) = Js.delete k o.
Proof.
  unfold Js.delete. induction o as [|[k' v'] o IH]; cbn [Js.set List.filter fst].
  - now rewrite String.eqb_refl.
  - destruct (String.eqb k' k) eqn:E; cbn [List.filter fst]; rewrite E;
      cbn [negb]; [reflexivity|now rewrite IH].
Qed.

Section Runs.
Context {raw item : Type}.
Variable cfg : Config raw item.
Variable net : string -> Fetched raw.

Implicit Types s : State item.

(** A page stored by a run matches the query of the run. *)
Lemma matching_stored (n number : Z) (q : Query) (page : Page.t item) s :
  Js.at_index n (posts s) = Some page ->
  stored_for n number q page ->
  have_matching_page (Js.delete "page" q) n s = true.
Proof.
  intros Hat [_ Hq]. unfold have_matching_page.
  rewrite Hat, Hq, delete_set_same. apply String.eqb_refl.
Qed.

(** A turn that changed the state left a matching page at its target. *)
Lemma queue_turn_outcome (Obj1 : Query) (offset number : Z) s s' :
  Obj1 = Js.delete "page" (query s) ->
  page_of (query s) = Some number ->
  queue_turn cfg net Obj1 offset s = Some s' ->
  s' = s
  \/ (0 < number + offset
      /\ have_matching_page Obj1 (number + offset) s' = true).
Proof.
  intros -> Hp. rewrite (queue_turn_unfold _ _ _ _ _ _ Hp). cbv zeta.
  destruct (Z.leb_spec (number + offset) 0); [intros [= <-]; now left|].
  destruct (have_matching_page _ _ s); [intros [= <-]; now left|].
  destruct (_ || _ || _); [|intros [= <-]; now left].
  intros Hc. right. split; [assumption|].
  destruct (chain_effect cfg net _ _ (number + offset) number s s'
              (page_of_set _ _) ltac:(lia) Hp Hc)
    as (_ & _ & (page & Hat & _ & Hq) & _).
  unfold have_matching_page. rewrite Hat, Hq, delete_set_same.
  apply String.eqb_refl.
Qed.

(** The turn for the current page leaves a matching page there. *)
Lemma queue_turn_current (Obj1 : Query) (number : Z) s s' :
  Obj1 = Js.delete "page" (query s) ->
  page_of (query s) = Some number ->
  queue_turn cfg net Obj1 0 s = Some s' ->
  number <= 0 \/ have_matching_page Obj1 number s' = true.
Proof.
  intros -> Hp. rewrite (queue_turn_unfold _ _ _ _ _ _ Hp). cbv zeta.
  rewrite Z.add_0_r, Z.eqb_refl. cbn [orb].
  destruct (Z.leb_spec number 0); [now left|].
  destruct (have_matching_page _ _ s) eqn:Em; [intros [= <-]; now right|].
  intros Hc. right.
  destruct (chain_effect cfg net _ _ number number s s'
              (page_of_set _ _) ltac:(lia) Hp Hc)
    as (_ & _ & (page & Hat & _ & Hq) & _).
  unfold have_matching_page. rewrite Hat, Hq, delete_set_same.
  apply String.eqb_refl.
Qed.

Lemma queue_turn_skips (Obj1 : Query) (offset number : Z) s :
  page_of (query s) = Some number ->
  number + offset <= 0
  \/ have_matching_page Obj1 (number + offset) s = true ->
  queue_turn cfg net Obj1 offset s = Some s.
Proof.
  intros Hp H. rewrite (queue_turn_unfold _ _ _ _ _ _ Hp). cbv zeta.
  destruct (Z.leb_spec (number + offset) 0); [reflexivity|].
  destruct H as [H|Hm]; [lia|now rewrite Hm].
Qed.

(** Running a turn again changes nothing. *)
Lemma queue_turn_again (Obj1 : Query) (offset number : Z) s s' :
  Obj1 = Js.delete "page" (query s) ->
  page_of (query s) = Some number ->
  queue_turn cfg net Obj1 offset s = Some s' ->
  queue_turn cfg net Obj1 offset s' = Some s'.
Proof.
  intros HObj Hp Hrun.
  destruct (queue_turn_outcome _ _ _ _ _ HObj Hp Hrun) as [->|[_ Hm]];
    [exact Hrun|].
  destruct (queue_turn_effect cfg net _ _ _ _ _ Hp Hrun) as (Hq & _).
  apply (queue_turn_skips _ _ number); [now rewrite Hq|now right].
Qed.

(** A matching page stays one through a turn. *)
Lemma queue_turn_keeps_match (Obj1 : Query) (offset number n : Z) s s' :
  Obj1 = Js.delete "page" (query s) ->
  page_of (query s) = Some number ->
  queue_turn cfg net Obj1 offset s = Some s' ->
  have_matching_page Obj1 n s = true ->
  have_matching_page Obj1 n s' = true.
Proof.
  intros -> Hp Hrun Hm.
  destruct (queue_turn_effect cfg net _ _ _ _ _ Hp Hrun) as (_ & _ & Hposts & _).
  destruct (Hposts n) as [E|(page & Hat & Hst)].
  - unfold have_matching_page in *. now rewrite E.
  - exact (matching_stored n number (query s) page s' Hat Hst).
Qed.

(** A turn writes no page but its target, and no page at or below 0. *)
Lemma queue_turn_frame (Obj1 : Query) (offset number n : Z) s s' :
  page_of (query s) = Some number ->
  queue_turn cfg net Obj1 offset s = Some s' ->
  n <= 0 \/ n <> number + offset ->
  Js.at_index n (posts s') = Js.at_index n (posts s).
Proof.
  intros Hp. rewrite (queue_turn_unfold _ _ _ _ _ _ Hp). cbv zeta.
  destruct (Z.leb_spec (number + offset) 0); [now intros [= <-]|].
  destruct (have_matching_page _ _ s); [now intros [= <-]|].
  destruct (_ || _ || _); [|now intros [= <-]].
  intros Hc Hn.
  destruct (chain_effect cfg net _ _ (number + offset) number s s'
              (page_of_set _ _) ltac:(lia) Hp Hc)
    as (_ & _ & _ & Hother & _).
  apply Hother. lia.
Qed.

Lemma queue_loop_frame (Obj1 : Query) (queries : list Z) (number n : Z) :
  forall s s',
    page_of (query s) = Some number ->
    queue_loop cfg net Obj1 queries s = Some s' ->
    n <= 0 \/ ~ In (n - number) queries ->
    Js.at_index n (posts s') = Js.at_index n (posts s).
Proof.
  induction queries as [|offset rest IH]; intros s s' Hp Hrun Hn.
  - now injection Hrun as <-.
  - cbn [queue_loop] in Hrun.
    destruct (queue_turn cfg net Obj1 offset s) as [s1|] eqn:E; [|discriminate].
    destruct (queue_turn_effect cfg net _ _ _ _ _ Hp E) as (Hq & _).
    rewrite (IH s1 s').
    + apply (queue_turn_frame Obj1 offset number n s s1 Hp E).
      destruct Hn as [Hn|Hn]; [now left|right].
      intros ->. apply Hn. left. lia.
    + now rewrite Hq.
    + exact Hrun.
    + destruct Hn as [Hn|Hn]; [now left|right].
      intros H. apply Hn. now right.
Qed.

(** The flag [init] is never cleared by a request. *)
Lemma chain_init (current : bool) (q : Query) (target number : Z) s s' :
  page_of q = Some target -> 0 <= target ->
  page_of (query s) = Some number ->
  chain cfg net current q s = Some s' ->
  init s = true -> init s' = true.
Proof.
  intros Hq Ht Hp. rewrite (chain_unfold _ _ _ _ _ _ _ Hq Hp). cbv zeta.
  set (entry := Page.mk (PostList []) q (target <=? number) None).
  set (s1 := set_posts (Js.set_index target entry (posts s)) s).
  assert (Hentry : Js.at_index target (posts s1) = Some entry)
    by apply at_index_set_same, Ht.
  assert (Hi1 : init s1 = init s) by reflexivity.
  clearbody s1.
  destruct (net (request_url cfg q)) as [|r].
  - intros [= <-] Hi. cbn. congruence.
  - destruct (response r s1) as [s2|] eqn:Hr; [|discriminate].
    destruct (response_frame _ _ _ Hr) as (_ & _ & Hp2 & _ & _ & Hi2).
    destruct (Response.body r) as [data|].
    + set (s3 := if current then replaceState cfg q s2 else s2).
      assert (Hs3 : posts s3 = posts s1 /\ init s3 = init s).
      { unfold s3. destruct current; cbn; split; congruence. }
      clearbody s3. destruct Hs3 as (Hp3 & Hi3).
      rewrite (process_stored cfg data q (headers s2) s3 target entry Hq)
        by (now rewrite Hp3).
      destruct data as [l|text], (maps cfg (type cfg)) as [f|];
        intros [= <-] Hi; cbn; congruence.
    + intros [= <-] Hi. cbn. congruence.
Qed.

Lemma queue_turn_init (Obj1 : Query) (offset number : Z) s s' :
  page_of (query s) = Some number ->
  queue_turn cfg net Obj1 offset s = Some s' ->
  init s = true -> init s' = true.
Proof.
  intros Hp. rewrite (queue_turn_unfold _ _ _ _ _ _ Hp). cbv zeta.
  destruct (Z.leb_spec (number + offset) 0); [now intros [= <-]|].
  destruct (have_matching_page _ _ s); [now intros [= <-]|].
  destruct (_ || _ || _); [|now intros [= <-]].
  apply (chain_init _ _ (number + offset) number);
    [apply page_of_set|lia|exact Hp].
Qed.

Lemma queue_loop_init (Obj1 : Query) (queries : list Z) (number : Z) :
  forall s s',
    page_of (query s) = Some number ->
    queue_loop cfg net Obj1 queries s = Some s' ->
    init s = true -> init s' = true.
Proof.
  induction queries as [|offset rest IH]; intros s s' Hp Hrun Hi.
  - now injection Hrun as <-.
  - cbn [queue_loop] in Hrun.
    destruct (queue_turn cfg net Obj1 offset s) as [s1|] eqn:E; [|discriminate].
    destruct (queue_turn_effect cfg net _ _ _ _ _ Hp E) as (Hq & _).
    apply (IH s1 s'); [now rewrite Hq|exact Hrun|].
    exact (queue_turn_init _ _ _ _ _ Hp E Hi).
Qed.

Lemma queue_page (queries : list Z) s s' :
  queue cfg net (0 :: queries) s = Some s' ->
  exists number, page_of (query s) = Some number.
Proof.
  unfold queue. cbn [queue_loop]. unfold queue_turn.
  destruct (page_of (query s)) as [number|]; [now exists number|discriminate].
Qed.

End Runs.

(** X5. A finished run leaves nothing to request.  Running [queue] for
    the current page and one neighbour ([wp] is the case of the next
    page, [paginate] that of the page moved to) on the state such a run
    has left sends no request and changes nothing. *)
Theorem finished_run_is_stable :
  forall (raw item : Type) (cfg : Config raw item)
         (net : string -> Fetched raw) (change : Z) (s s1 : State item),
    queue cfg net [0; change] s = Some s1 ->
    queue cfg net [0; change] s1 = Some s1.
Proof.
  intros raw item cfg net change s s1 Hrun.
  destruct (queue_page cfg net _ _ _ Hrun) as (number & Hp).
  unfold queue in *. cbn [queue_loop] in *.
  set (Obj1 := Js.delete "page" (query s)) in *.
  destruct (queue_turn cfg net Obj1 0 s) as [t0|] eqn:E0; [|discriminate].
  destruct (queue_turn cfg net Obj1 change t0) as [t1|] eqn:E1; [|discriminate].
  injection Hrun as ->.
  destruct (queue_turn_effect cfg net _ _ _ _ _ Hp E0) as (Hq0 & _).
  assert (Hp0 : page_of (query t0) = Some number) by now rewrite Hq0.
  destruct (queue_turn_effect cfg net _ _ _ _ _ Hp0 E1) as (Hq1 & _).
  assert (Hp1 : page_of (query s1) = Some number) by now rewrite Hq1.
  assert (HObj0 : Obj1 = Js.delete "page" (query t0)) by now rewrite Hq0.
  replace (Js.delete "page" (query s1)) with Obj1 by now rewrite Hq1.
  assert (H0 : queue_turn cfg net Obj1 0 s1 = Some s1).
  { apply (queue_turn_skips cfg net _ _ number); [exact Hp1|].
    rewrite Z.add_0_r.
    destruct (queue_turn_current cfg net Obj1 number s t0 eq_refl Hp E0)
      as [Hle|Hm]; [now left|right].
    exact (queue_turn_keeps_match cfg net Obj1 change number number t0 s1
             HObj0 Hp0 E1 Hm). }
  rewrite H0.
  rewrite (queue_turn_again cfg net Obj1 change number t0 s1 HObj0 Hp0 E1).
  reflexivity.
Qed.

Lemma finished_run_is_stable_witness :
  exists s1,
    wp demo_config serving started = Some s1
    /\ wp demo_config serving s1 = Some s1.
Proof.
  assert (H : exists s1, wp demo_config serving started = Some s1).
  { eexists. reflexivity. }
  destruct H as (s1 & H). exists s1. split; [exact H|].
  exact (finished_run_is_stable string string demo_config serving 1
           started s1 H).
Defined.

(** X6. A run of [queue] writes only the pages it was asked for: the
    query and the terms are as before, and so is every page of the
    store that is not the current page plus one of the offsets, and
    every index at or below 0. *)
Theorem run_writes_requested_pages_only :
  forall (raw item : Type) (cfg : Config raw item)
         (net : string -> Fetched raw) (queries : list Z)
         (s s' : State item) (number : Z),
    page_of (query s) = Some number ->
    queue cfg net queries s = Some s' ->
    query s' = query s
    /\ terms s' = terms s
    /\ forall n,
        n <= 0 \/ ~ In (n - number) queries ->
        Js.at_index n (posts s') = Js.at_index n (posts s).
Proof.
  intros raw item cfg net queries s s' number Hp Hrun. unfold queue in Hrun.
  destruct (queue_loop_effect cfg net _ _ _ _ _ Hp Hrun) as (Hq & Ht & _).
  split; [exact Hq|]. split; [exact Ht|].
  intros n Hn. exact (queue_loop_frame cfg net _ _ _ _ _ _ Hp Hrun Hn).
Qed.

Lemma run_writes_requested_pages_only_witness :
  exists s',
    queue demo_config serving [0; 1] opened_on_page_2 = Some s'
    /\ query s' = query opened_on_page_2
    /\ Js.at_index 1 (posts s') = None.
Proof.
  assert (H : exists s', queue demo_config serving [0; 1] opened_on_page_2
                         = Some s').
  { eexists. reflexivity. }
  destruct H as (s' & H). exists s'. split; [exact H|].
  destruct (run_writes_requested_pages_only string string demo_config
              serving [0; 1] opened_on_page_2 s' 2 eq_refl H)
    as (Hq & _ & Hposts).
  split; [exact Hq|].
  rewrite Hposts; [reflexivity|].
  right. cbn. intuition discriminate.
Defined.

Section Outcomes.
Context {raw item : Type}.
Variable cfg : Config raw item.
Variable net : string -> Fetched raw.

Implicit Types s : State item.






End Outcomes.



(** X8. A rejected request.  When [fetch] rejects the request for the
    current page, the error handler is called once with the exception;
    the page stays stored as [wpQuery] left it, shown and with no posts;
    the headers, the address and [init] are as before.  The component
    then reports [loading] exactly when it was initialised before: the
    indicator of a component that had shown posts stays on. *)
Theorem rejected_request_is_reported :
  forall (raw item : Type) (cfg : Config raw item)
         (net : string -> Fetched raw) (s : State item) (number : Z),
    page_of (query s) = Some number ->
    0 < number ->
    have_matching_page (Js.delete "page" (query s)) number s = false ->
    net (request_url cfg (query s)) = Rejected ->
    exists s',
      queue cfg net [0] s = Some s'
      /\ Js.at_index number (posts s')
         = Some (Page.mk (PostList []) (query s) true None)
      /\ reported s' = Exception :: reported s
      /\ address s' = address s
      /\ headers s' = headers s
      /\ init s' = init s
      /\ loading s' = Some (Returns (init s)).
Proof.
  intros raw item cfg net s number Hp Hpos Hfresh Hnet.
  rewrite (queue_current cfg net s number Hp Hpos Hfresh).
  rewrite (chain_unfold cfg net true (query s) number number s Hp Hp).
  cbv zeta. rewrite Hnet, Z.leb_refl.
  eexists. split; [reflexivity|].
  match goal with
  | |- Js.at_index number (posts ?st) = _ /\ _ =>
      assert (Hat : Js.at_index number (posts st)
                    = Some (Page.mk (PostList []) (query s) true None))
        by (cbn; now rewrite at_index_set_same by lia)
  end.
  split; [exact Hat|]. do 4 (split; [reflexivity|]).
  match goal with
  | |- loading ?st = _ => rewrite (loading_with_page st number _ Hp Hat)
  end.
  cbn. now rewrite !andb_true_r.
Qed.

Lemma rejected_request_is_reported_witness :
  exists s',
    queue demo_config offline [0] initial = Some s'
    /\ reported s' = [Exception]
    /\ address s' = []
    /\ loading s' = Some (Returns false).
Proof.
  destruct (rejected_request_is_reported string string demo_config offline
              initial 1)
    as (s' & Hs' & _ & Hrep & Haddr & _ & _ & Hload); try reflexivity.
  exists s'. now repeat split.
Defined.



Section InitFlag.
Context {item : Type}.

Implicit Types s : State item.

Lemma filter_init (taxonomy : string) (term : Z) s :
  init (state_of (filter taxonomy term s)) = init s.
Proof.
  unfold filter.
  destruct (Js.get taxonomy (query s)) as [[[z|text|whole places]|l]|]; try reflexivity.
  now destruct (String.index 0 (Js.number_to_string term) text).
Qed.

Lemma filterAll_init (taxonomy : string) s :
  init (state_of (filterAll taxonomy s)) = init s.
Proof.
  unfold filterAll.
  destruct (find_taxonomy taxonomy (terms s)) as [i|]; [|reflexivity].
  now destruct (nth_error (terms s) i).
Qed.

Lemma check_parent_init (taxonomy : string) (term : Z) s :
  init (state_of (check_parent taxonomy term s)) = init s.
Proof.
  unfold check_parent.
  destruct (find_taxonomy taxonomy (terms s)) as [i|]; [|reflexivity].
  now rewrite filter_init.
Qed.

Lemma click_init (data : EventData) s :
  init (state_of (click data s)) = init s.
Proof.
  unfold click. destruct data as [ti fi|taxonomy term].
  - destruct (stored_filter ti fi s) as [f|]; [|reflexivity].
    destruct (Filter.id f =? 0);
      [apply filterAll_init|now rewrite check_parent_init].
  - destruct (term =? 0); [apply filterAll_init|apply check_parent_init].
Qed.

Lemma reset_at_init (index : nat) s : init (reset_at index s) = init s.
Proof. unfold reset_at. now destruct (nth_error (terms s) index). Qed.

Lemma reset_init s : init (reset s) = init s.
Proof.
  unfold reset. generalize (seq 0 (List.length (terms s))). intros indices.
  revert s. induction indices as [|index indices IH]; intros s; [reflexivity|].
  cbn [fold_left]. now rewrite IH, reset_at_init.
Qed.

End InitFlag.

(** X10. Once set, [init] stays set: no run of [queue], no pagination
    and no change of the filters clears it. *)
Theorem init_stays_set :
  forall (raw item : Type) (cfg : Config raw item)
         (net : string -> Fetched raw) (s : State item),
    init s = true ->
    (forall (queries : list Z) (s' : State item),
        queue cfg net queries s = Some s' -> init s' = true)
    /\ (forall (change : Z) (done : completion (State item)),
           paginate cfg net change s = Some done ->
           init (state_of done) = true)
    /\ (forall data : EventData, init (state_of (click data s)) = true)
    /\ (forall parent : string, init (state_of (toggle parent s)) = true)
    /\ init (reset s) = true.
Proof.
  intros raw item cfg net s Hi.
  assert (Hqueue : forall (queries : list Z) (s0 s' : State item),
             init s0 = true ->
             queue cfg net queries s0 = Some s' -> init s' = true).
  { intros queries s0 s' Hi0. unfold queue.
    destruct (page_of (query s0)) as [number|] eqn:Hp.
    - intros Hrun. exact (queue_loop_init cfg net _ _ _ _ _ Hp Hrun Hi0).
    - destruct queries as [|offset rest]; cbn [queue_loop].
      + now intros [= <-].
      + unfold queue_turn. now rewrite Hp. }
  split; [intros queries s'; now apply Hqueue|].
  split.
  - intros change done. unfold paginate.
    destruct (page_of (query s)) as [number|]; [|discriminate].
    cbv zeta.
    destruct (Js.at_index _ _) as [entry|]; [|now intros [= <-]].
    destruct (queue cfg net _ _) as [s3|] eqn:Hrun; [|discriminate].
    intros [= <-]. cbn [state_of].
    refine (Hqueue _ _ _ _ Hrun). exact Hi.
  - split; [intros data; now rewrite click_init|].
    split; [intros parent; unfold toggle; now rewrite filterAll_init|].
    now rewrite reset_init.
Qed.

Lemma init_stays_set_witness :
  init (state_of (click (Stored 0 0) (set_init true started))) = true.
Proof.
  apply (init_stays_set string string demo_config serving
           (set_init true started)).
  reflexivity.
Defined.

(** X11. Paginating to a page that is stored for the query of the
    component reveals it as it is: the promise is fulfilled, the page
    number is the new one, and the page is the stored one, shown,
    without a request for it. *)
Theorem paginate_reveals_stored_page :
  forall (raw item : Type) (cfg : Config raw item)
         (net : string -> Fetched raw) (s : State item)
         (number change : Z) (entry : Page.t item),
    readable net ->
    page_of (query s) = Some number ->
    0 < number + change ->
    Js.at_index (number + change) (posts s) = Some entry ->
    have_matching_page (Js.delete "page" (query s)) (number + change) s
    = true ->
    exists s',
      paginate cfg net change s = Some (Returns s')
      /\ page_of (query s') = Some (number + change)
      /\ Js.at_index (number + change) (posts s')
         = Some (Page.set_show true entry).
Proof.
  intros raw item cfg net s number change entry Hnet Hp Hpos Hat Hm.
  unfold paginate. rewrite Hp. cbv zeta.
  cbn [posts set_query]. rewrite Hat.
  set (page := number + change) in *.
  set (s2 := set_posts _ _).
  assert (Hp2 : page_of (query s2) = Some page) by apply page_of_set.
  assert (Hat2 : Js.at_index page (posts s2) = Some (Page.set_show true entry)).
  { unfold s2. cbn. apply at_index_set_same. lia. }
  assert (HObj : Js.delete "page" (query s2) = Js.delete "page" (query s)).
  { unfold s2. cbn. apply delete_set_same. }
  assert (Hm2 : have_matching_page (Js.delete "page" (query s2)) page s2 = true).
  { rewrite HObj. unfold have_matching_page in *. rewrite Hat2.
    rewrite Hat in Hm. exact Hm. }
  clearbody s2. unfold queue. cbn [queue_loop].
  rewrite (queue_turn_skips cfg net _ 0 page s2 Hp2)
    by (right; now rewrite Z.add_0_r).
  destruct (queue_turn_total cfg net (Js.delete "page" (query s2)) change
              page s2 Hnet Hp2) as (s3 & Hrun).
  rewrite Hrun. exists s3. split; [reflexivity|].
  destruct (queue_turn_effect cfg net _ _ _ _ _ Hp2 Hrun) as (Hq3 & _).
  split; [now rewrite Hq3|].
  destruct (Z.eq_dec change 0) as [->|Hne].
  - rewrite (queue_turn_skips cfg net _ 0 page s2 Hp2) in Hrun
      by (right; now rewrite Z.add_0_r).
    now injection Hrun as <-.
  - rewrite (queue_turn_frame cfg net _ _ _ page _ _ Hp2 Hrun); [exact Hat2|].
    right. lia.
Qed.

Lemma paginate_reveals_stored_page_witness :
  exists s1 s2,
    queue demo_config serving [0; 1] started = Some s1
    /\ paginate demo_config serving 1 s1 = Some (Returns s2)
    /\ page_of (query s2) = Some 2
    /\ option_map Page.show (Js.at_index 2 (posts s1)) = Some false
    /\ option_map Page.show (Js.at_index 2 (posts s2)) = Some true.
Proof.
  assert (H1 : exists s1 entry,
             queue demo_config serving [0; 1] started = Some s1
             /\ Js.at_index 2 (posts s1) = Some entry
             /\ Page.show entry = false
             /\ page_of (query s1) = Some 1
             /\ have_matching_page (Js.delete "page" (query s1)) 2 s1 = true).
  { do 2 eexists. split; [reflexivity|]. split; [reflexivity|].
    split; [reflexivity|]. split; reflexivity. }
  destruct H1 as (s1 & entry & Hs1 & Hat & Hshow & Hp & Hm).
  destruct (paginate_reveals_stored_page string string demo_config serving
              s1 1 1 entry serving_readable Hp eq_refl Hat Hm)
    as (s2 & Hs2 & Hp2 & Hat2).
  exists s1, s2. split; [exact Hs1|]. split; [exact Hs2|].
  split; [exact Hp2|]. split.
  - now rewrite Hat, <- Hshow.
  - change (1 + 1) with 2 in Hat2. now rewrite Hat2.
Defined.

(** X12. The flags [next] and [loading] exclude each other: whenever
    there is a next page to load, the component is not loading, and
    whenever it is loading, [next] is not true. *)
Theorem next_excludes_loading :
  forall (item : Type) (s : State item),
    (next s = Some (Returns true) -> loading s = Some (Returns false))
    /\ (loading s = Some (Returns true) -> next s = Some (Returns false)).
Proof.
  intros item s. unfold next, loading.
  destruct (List.length (posts s) =? 0)%nat; [split; discriminate|].
  destruct (page_of (query s)) as [number|]; [|split; discriminate].
  destruct (init s), (less_than number (Headers.pages (headers s)));
    cbn [negb]; try (split; discriminate);
    destruct (Js.at_index number (posts s)) as [page|];
    try (split; discriminate);
    destruct (has_posts (Page.posts page)), (Page.show page);
    cbn; split; (discriminate || reflexivity).
Qed.

Lemma next_excludes_loading_witness :
  exists s1,
    queue demo_config serving [0; 1] started = Some s1
    /\ next s1 = Some (Returns true)
    /\ loading s1 = Some (Returns false).
Proof.
  assert (H : exists s1, queue demo_config serving [0; 1] started = Some s1
                         /\ next s1 = Some (Returns true)).
  { eexists. split; reflexivity. }
  destruct H as (s1 & Hs1 & Hnext). exists s1.
  split; [exact Hs1|]. split; [exact Hnext|].
  exact (proj1 (next_excludes_loading string s1) Hnext).
Defined.

(* ================================================================== *)
(** ** The visible posts *)
(* ================================================================== *)

Section Visible.
Context {item : Type}.

Implicit Types s : State item.

Lemma add_number_nan (l : list (option nat)) :
  fold_left add_number l None = None.
Proof. induction l as [|x l IH]; [reflexivity|exact IH]. Qed.

(** The sum of [totalVisible] over pages none of which shows a failed
    payload is the number of posts [postsFlat] collects from them. *)
Lemma visible_sum (l : list (option (Page.t item))) :
  forallb (fun e => negb (shows_failure e)) l = true ->
  forall acc : nat,
    fold_left add_number (map visible_length l) (Some acc)
    = Some (acc + List.length (postsFlat (set_posts l initial)))%nat.
Proof.
  unfold postsFlat. cbn [posts set_posts].
  induction l as [|e l IH]; intros Hl acc.
  - cbn. now rewrite Nat.add_0_r.
  - cbn [forallb] in Hl. apply andb_true_iff in Hl as [He Hl].
    cbn [map fold_left flat_map]. rewrite length_app.
    destruct e as [page|]; cbn [visible_length shows_failure] in *.
    + destruct (Page.show page), (Page.posts page) as [|posts_];
        cbn in He; try discriminate; cbn [add_number];
        rewrite (IH Hl); f_equal; cbn [List.length]; lia.
    + cbn [add_number]. rewrite (IH Hl). f_equal. cbn [List.length]. lia.
Qed.

Lemma visible_nan (l : list (option (Page.t item))) :
  existsb shows_failure l = true ->
  forall acc : option nat,
    fold_left add_number (map visible_length l) acc = None.
Proof.
  induction l as [|e l IH]; intros Hl acc; [discriminate|].
  cbn [existsb] in Hl. cbn [map fold_left].
  destruct (shows_failure e) eqn:He.
  - destruct e as [page|]; [|discriminate].
    cbn [shows_failure] in He. apply andb_true_iff in He as [Hshow Hposts].
    cbn [visible_length]. rewrite Hshow.
    destruct (Page.posts page); [|discriminate].
    destruct acc; apply add_number_nan.
  - now apply IH.
Qed.



End Visible.

(** X13. [totalVisible] and [postsFlat] agree, as long as no shown
    page holds a failed payload: the total is then the number of the
    posts collected.  When a shown page holds [false] for its posts,
    the total is not a number. *)
Theorem total_counts_visible_posts :
  forall (item : Type) (s : State item),
    (forallb (fun e => negb (shows_failure e)) (posts s) = true ->
     totalVisible s = Some (List.length (postsFlat s)))
    /\ (existsb shows_failure (posts s) = true ->
        totalVisible s = None).
Proof.
  intros item s. unfold totalVisible. split.
  - intros H. now rewrite (visible_sum (posts s) H 0%nat).
  - intros H. now apply visible_nan.
Qed.

Lemma total_counts_visible_posts_witness :
  exists s1,
    queue demo_config serving [0; 1] started = Some s1
    /\ totalVisible s1 = Some (List.length (postsFlat s1))
    /\ postsFlat s1 = ["first"; "second"].
Proof.
  assert (H : exists s1,
             queue demo_config serving [0; 1] started = Some s1
             /\ forallb (fun e => negb (shows_failure e)) (posts s1) = true
             /\ postsFlat s1 = ["first"; "second"]).
  { eexists. split; [reflexivity|]. split; reflexivity. }
  destruct H as (s1 & Hs1 & Hok & Hflat). exists s1.
  split; [exact Hs1|]. split; [|exact Hflat].
  exact (proj1 (total_counts_visible_posts string s1) Hok).
Defined.





(* ================================================================== *)
(** ** Further properties of the filters *)
(* ================================================================== *)

Section Membership.

Lemma scalar_eqb_eq (a b : scalar) : scalar_eqb a b = true <-> a = b.
Proof.
  destruct a as [x|x|i f], b as [y|y|i' f']; cbn; split; try discriminate.
  - intros H. apply Z.eqb_eq in H. now subst.
  - intros [= ->]. apply Z.eqb_refl.
  - intros H. apply String.eqb_eq in H. now subst.
  - intros [= ->]. apply String.eqb_refl.
  - intros H. apply andb_true_iff in H as [Hi Hf].
    apply Decimal.internal_signed_int_dec_bl in Hi.
    apply Decimal.internal_uint_dec_bl in Hf. now subst.
  - intros [= -> ->].
    now rewrite Decimal.internal_signed_int_dec_lb,
                Decimal.internal_uint_dec_lb.
Qed.

Lemma scalar_eqb_refl (a : scalar) : scalar_eqb a a = true.
Proof. now apply scalar_eqb_eq. Qed.









Lemma term_list_set (taxonomy k : string) (v : value) (q : Query) :
  k <> taxonomy ->
  term_list taxonomy (Js.set k v q) = term_list taxonomy q.
Proof. intros Hk. unfold term_list. now rewrite get_set_other. Qed.

Lemma term_list_set_same (taxonomy : string) (l : list scalar) (q : Query) :
  term_list taxonomy (Js.set taxonomy (Array l) q) = l.
Proof. unfold term_list. now rewrite get_set_same. Qed.

(** The list under a key other than the page number, after
    [updateQuery]. *)
Lemma term_list_updateQuery {item : Type} (taxonomy k : string)
      (l : list scalar) (s : State item) :
  taxonomy <> "page" ->
  term_list taxonomy (query (updateQuery k (Array l) s))
  = if String.eqb k taxonomy then l else term_list taxonomy (query s).
Proof.
  intros Hpage. rewrite updateQuery_query.
  rewrite term_list_set by (intros E; now symmetry in E).
  destruct (String.eqb_spec k taxonomy) as [->|Hne].
  - apply term_list_set_same.
  - now apply term_list_set.
Qed.

End Membership.



Section Lists.
Context {A : Type}.

Lemma update_nth_ext_at (n : nat) (f g : A -> A) (l : list A) :
  (forall x, nth_error l n = Some x -> f x = g x) ->
  update_nth n f l = update_nth n g l.
Proof.
  revert n. induction l as [|y l IH]; intros n H; [now destruct n|].
  destruct n as [|n]; cbn [update_nth].
  - now rewrite (H y eq_refl).
  - f_equal. apply IH. intros x Hx. now apply H.
Qed.

Lemma update_nth_app_length (pre post : list A) (x : A) (f : A -> A) :
  update_nth (List.length pre) f (pre ++ x :: post) = pre ++ f x :: post.
Proof. induction pre as [|y pre IH]; cbn; [reflexivity|now rewrite IH]. Qed.

(** Updating every index in turn is mapping over the list. *)
Lemma fold_update_nth (f : A -> A) (post : list A) :
  forall pre : list A,
    fold_left (fun l i => update_nth i f l)
              (seq (List.length pre) (List.length post)) (pre ++ post)
    = pre ++ map f post.
Proof.
  induction post as [|x post IH]; intros pre; [reflexivity|].
  cbn [List.length seq fold_left map]. rewrite update_nth_app_length.
  replace (pre ++ f x :: post) with ((pre ++ [f x]) ++ post)
    by now rewrite <- List.app_assoc.
  replace (S (List.length pre)) with (List.length (pre ++ [f x]))
    by (rewrite length_app; cbn; lia).
  rewrite IH. now rewrite <- List.app_assoc.
Qed.



End Lists.

Lemma distinct_names_NoDup (l : list string) :
  distinct_names l = true -> NoDup l.
Proof.
  induction l as [|x l IH]; intros H; [constructor|].
  cbn [distinct_names] in H. apply andb_true_iff in H as [Hx Hl].
  constructor; [|now apply IH].
  intros Hin. apply negb_true_iff in Hx.
  assert (existsb (String.eqb x) l = true); [|congruence].
  apply existsb_exists. exists x. split; [exact Hin|apply String.eqb_refl].
Qed.



Section ResetFacts.
Context {item : Type}.

Implicit Types s : State item.

Lemma reset_at_terms (index : nat) s :
  terms (reset_at index s) = update_nth index (all_set false) (terms s).
Proof.
  unfold reset_at. destruct (nth_error (terms s) index) as [tax|] eqn:E.
  - reflexivity.
  - symmetry. apply update_nth_same. intros x Hx. congruence.
Qed.

Lemma reset_loop_terms (indices : list nat) :
  forall s,
    terms (fold_left (fun acc index => reset_at index acc) indices s)
    = fold_left (fun l i => update_nth i (all_set false) l) indices (terms s).
Proof.
  induction indices as [|index indices IH]; intros s; [reflexivity|].
  cbn [fold_left]. now rewrite IH, reset_at_terms.
Qed.

Lemma reset_terms s : terms (reset s) = map (all_set false) (terms s).
Proof.
  unfold reset. rewrite reset_loop_terms.
  exact (fold_update_nth (all_set false) (terms s) []).
Qed.

Lemma reset_at_slugs (index : nat) s :
  map Taxonomy.slug (terms (reset_at index s)) = map Taxonomy.slug (terms s).
Proof. rewrite reset_at_terms. now apply map_update_nth_frame. Qed.

(** The list of a taxonomy is empty once its index is passed, and
    stays empty. *)
Lemma reset_at_get (k : string) (index : nat) s :
  k <> "page" ->
  Js.get k (query s) = Some (Array [])
  \/ nth_error (map Taxonomy.slug (terms s)) index = Some k ->
  Js.get k (query (reset_at index s)) = Some (Array []).
Proof.
  intros Hpage H. unfold reset_at. rewrite nth_error_map in H.
  destruct (nth_error (terms s) index) as [tax|].
  - cbn [query set_terms]. rewrite updateQuery_query.
    rewrite get_set_other by (intros E; now symmetry in E).
    destruct (String.eqb_spec (Taxonomy.slug tax) k) as [<-|Hne].
    + apply get_set_same.
    + rewrite get_set_other by assumption.
      destruct H as [H|[= H]]; [exact H|contradiction].
  - destruct H as [H|H]; [exact H|discriminate].
Qed.

Lemma reset_loop_get (k : string) (indices : list nat) :
  k <> "page" ->
  forall s,
    Js.get k (query s) = Some (Array [])
    \/ (exists i, In i indices
                  /\ nth_error (map Taxonomy.slug (terms s)) i = Some k) ->
    Js.get k (query (fold_left (fun acc index => reset_at index acc) indices s))
    = Some (Array []).
Proof.
  intros Hpage. induction indices as [|index indices IH]; intros s H.
  - destruct H as [H|(i & [] & _)]. exact H.
  - cbn [fold_left]. apply IH.
    destruct H as [H|(i & [<-|Hin] & Hi)].
    + left. apply reset_at_get; auto.
    + left. apply reset_at_get; auto.
    + right. exists i. split; [exact Hin|]. now rewrite reset_at_slugs.
Qed.

Lemma reset_get (tax : Taxonomy.t) s :
  In tax (terms s) ->
  Taxonomy.slug tax <> "page" ->
  Js.get (Taxonomy.slug tax) (query (reset s)) = Some (Array []).
Proof.
  intros Hin Hpage. unfold reset. apply reset_loop_get; [exact Hpage|].
  right. destruct (In_nth_error _ _ Hin) as (i & Hi).
  exists i. split.
  - apply in_seq. split; [lia|]. cbn.
    apply nth_error_Some. congruence.
  - now rewrite nth_error_map, Hi.
Qed.

Lemma unchecked_count (fs : list Filter.t) :
  List.length (List.filter Filter.checked (map (Filter.set_checked false) fs))
  = 0%nat.
Proof. induction fs as [|f fs IH]; [reflexivity|exact IH]. Qed.

Lemma totalFilters_cleared (ts : list Taxonomy.t) (acc : nat) :
  fold_left
    (fun acc cur =>
       (acc + List.length (List.filter Filter.checked (Taxonomy.filters cur)))%nat)
    (map (all_set false) ts) acc
  = acc.
Proof.
  revert acc. induction ts as [|x ts IH]; intros acc; [reflexivity|].
  cbn [map fold_left]. rewrite IH. unfold all_set. cbn [Taxonomy.filters Taxonomy.set_filters].
  rewrite unchecked_count. lia.
Qed.

End ResetFacts.

(** X17. [reset] clears every filter: afterwards no filter and no
    taxonomy is checked, the number of checked filters is 0, and the
    query holds the empty list under the slug of every taxonomy (other
    than the key of the page number). *)
Theorem reset_clears_every_filter :
  forall (item : Type) (s : State item),
    terms (reset s) = map (all_set false) (terms s)
    /\ totalFilters (reset s) = 0%nat
    /\ forall tax : Taxonomy.t,
        In tax (terms s) ->
        Taxonomy.slug tax <> "page" ->
        Js.get (Taxonomy.slug tax) (query (reset s)) = Some (Array []).
Proof.
  intros item s. split; [apply reset_terms|]. split.
  - unfold totalFilters. rewrite reset_terms. apply totalFilters_cleared.
  - intros tax Hin Hpage. now apply reset_get.
Qed.

Lemma reset_clears_every_filter_witness :
  totalFilters (reset (set_terms demo_terms filtered)) = 0%nat
  /\ Js.get "categories" (query (reset (set_terms demo_terms filtered)))
     = Some (Array []).
Proof.
  destruct (reset_clears_every_filter string (set_terms demo_terms filtered))
    as (_ & Htotal & Hquery).
  split; [exact Htotal|].
  apply (Hquery (Taxonomy.mk "Categories" "categories" None
                   [Filter.mk 7 "News" "news" "categories" false false;
                    Filter.mk 9 "Events" "events" "categories" false false])).
  - now left.
  - discriminate.
Defined.

Section Toggle.
Context {item : Type}.

Implicit Types s : State item.

Lemma all_set_twice (b b' : bool) (x : Taxonomy.t) :
  all_set b' (all_set b x) = all_set b' x.
Proof.
  destruct x as [name slug checked filters].
  unfold all_set, Taxonomy.set_filters, Taxonomy.set_checked. cbn.
  f_equal. rewrite map_map. now apply map_ext.
Qed.

Lemma filter_ids_all_set (b : bool) (x : Taxonomy.t) :
  filter_ids (all_set b x) = filter_ids x.
Proof. unfold filter_ids, all_set. cbn. rewrite map_map. now apply map_ext. Qed.

(** What [filterAll] does to a taxonomy that is there. *)
Lemma filterAll_found (taxonomy : string) s (i : nat) (tax : Taxonomy.t) :
  find_taxonomy taxonomy (terms s) = Some i ->
  nth_error (terms s) i = Some tax ->
  filterAll taxonomy s
  = Returns
      (updateQuery taxonomy
         (Array (if toggle_direction tax then filter_ids tax else []))
         (set_terms
            (update_nth i (all_set (toggle_direction tax)) (terms s)) s)).
Proof.
  intros Hfind Hnth. unfold filterAll. rewrite Hfind, Hnth.
  do 3 f_equal. apply update_nth_ext_at. intros x Hx.
  rewrite Hnth in Hx. now injection Hx as <-.
Qed.

End Toggle.

(** X18. Toggle All alternates.  For a taxonomy that is there, [toggle]
    sets every filter and the flag of the taxonomy to the same value,
    and the list of the query to the ids of all its filters or to the
    empty list; a second [toggle] sets them the other way round. *)
Theorem toggle_alternates :
  forall (item : Type) (s : State item) (parent : string) (i : nat)
         (tax : Taxonomy.t),
    parent <> "page" ->
    find_taxonomy parent (terms s) = Some i ->
    nth_error (terms s) i = Some tax ->
    exists s1 s2,
      toggle parent s = Returns s1
      /\ toggle parent s1 = Returns s2
      /\ nth_error (terms s1) i = Some (all_set (toggle_direction tax) tax)
      /\ term_list parent (query s1)
         = (if toggle_direction tax then filter_ids tax else [])
      /\ nth_error (terms s2) i
         = Some (all_set (negb (toggle_direction tax)) tax)
      /\ term_list parent (query s2)
         = (if toggle_direction tax then [] else filter_ids tax).
Proof.
  intros item s parent i tax Hpage Hfind Hnth. unfold toggle.
  set (d := toggle_direction tax).
  rewrite (filterAll_found parent s i tax Hfind Hnth). fold d.
  set (s1 := updateQuery parent _ _).
  assert (Hterms1 : terms s1 = update_nth i (all_set d) (terms s))
    by reflexivity.
  assert (Hnth1 : nth_error (terms s1) i = Some (all_set d tax)).
  { rewrite Hterms1. now apply nth_error_update_nth_same. }
  assert (Hfind1 : find_taxonomy parent (terms s1) = Some i).
  { rewrite <- Hfind. apply find_taxonomy_slugs. rewrite Hterms1.
    now apply map_update_nth_frame. }
  assert (Hlist1 : term_list parent (query s1)
                   = if d then filter_ids tax else []).
  { unfold s1. rewrite term_list_updateQuery by assumption.
    now rewrite String.eqb_refl. }
  clearbody s1.
  assert (Hd : toggle_direction (all_set d tax) = negb d) by reflexivity.
  exists s1. eexists. split; [reflexivity|].
  rewrite (filterAll_found parent s1 i _ Hfind1 Hnth1).
  rewrite Hd, filter_ids_all_set.
  split; [reflexivity|].
  split; [exact Hnth1|]. split; [exact Hlist1|]. split.
  - cbn [terms updateQuery set_posts set_query set_terms].
    rewrite (nth_error_update_nth_same _ _ _ _ Hnth1).
    now rewrite all_set_twice.
  - rewrite term_list_updateQuery by assumption.
    rewrite String.eqb_refl. now destruct d.
Qed.

Lemma toggle_alternates_witness :
  exists s1 s2,
    toggle "categories" started = Returns s1
    /\ toggle "categories" s1 = Returns s2
    /\ term_list "categories" (query s1) = [Num 7; Num 9]
    /\ totalFilters s1 = 2%nat
    /\ term_list "categories" (query s2) = []
    /\ totalFilters s2 = 0%nat.
Proof.
  destruct (toggle_alternates string started "categories" 0
              (Taxonomy.mk "Categories" "categories" None
                 [Filter.mk 7 "News" "news" "categories" false false;
                  Filter.mk 9 "Events" "events" "categories" false false]))
    as (s1 & s2 & Hs1 & Hs2 & Hnth1 & Hlist1 & Hnth2 & Hlist2);
    try reflexivity; [discriminate|].
  exists s1, s2. split; [exact Hs1|]. split; [exact Hs2|].
  split; [exact Hlist1|]. split.
  - unfold toggle in Hs1. now injection Hs1 as <-.
  - split; [exact Hlist2|].
    unfold toggle in Hs1, Hs2. injection Hs1 as <-. now injection Hs2 as <-.
Defined.

(* ================================================================== *)
(** ** The filter flags mirror the query *)
(* ================================================================== *)

Section InStep.
Context {item : Type}.

Implicit Types (s : State item) (ts : list Taxonomy.t) (q : Query).

Lemma in_step_inv ts q :
  in_step ts q = true ->
  distinct_names (map Taxonomy.slug ts) = true
  /\ NoDup (map Taxonomy.slug ts)
  /\ forall tax,
      In tax ts ->
      well_formed tax = true
      /\ list_or_absent (Taxonomy.slug tax) q = true
      /\ mirrors q tax = true.
Proof.
  unfold in_step. intros H.
  apply andb_true_iff in H as [H Hm].
  apply andb_true_iff in H as [H Hl].
  apply andb_true_iff in H as [Hw Hd].
  split; [exact Hd|]. split; [now apply distinct_names_NoDup|].
  intros tax Hin. rewrite forallb_forall in Hw, Hl, Hm. auto.
Qed.

(** The terms stay in step with the query under a change of the
    taxonomies one by one that keeps their slugs. *)
Lemma in_step_map ts q' (G : Taxonomy.t -> Taxonomy.t) :
  distinct_names (map Taxonomy.slug ts) = true ->
  (forall tax,
      In tax ts ->
      Taxonomy.slug (G tax) = Taxonomy.slug tax
      /\ well_formed (G tax) = true
      /\ list_or_absent (Taxonomy.slug tax) q' = true
      /\ mirrors q' (G tax) = true) ->
  in_step (map G ts) q' = true.
Proof.
  intros Hd H. unfold in_step.
  assert (Hslugs : map Taxonomy.slug (map G ts) = map Taxonomy.slug ts).
  { rewrite map_map. apply map_ext_in. intros tax Hin. now apply H. }
  rewrite Hslugs, Hd, andb_true_r.
  repeat (apply andb_true_iff; split);
    apply forallb_forall; intros tax' Hin;
    apply in_map_iff in Hin as (tax & <- & Hin);
    destruct (H tax Hin) as (Hs & Hw & Hl & Hm); auto.
  now rewrite Hs.
Qed.

Lemma well_formed_slug (tax : Taxonomy.t) :
  well_formed tax = true -> Taxonomy.slug tax <> "page".
Proof.
  unfold well_formed. intros H.
  apply andb_true_iff in H as [H _]. apply andb_true_iff in H as [H _].
  apply negb_true_iff in H. now apply String.eqb_neq.
Qed.



(** Being well formed depends on the slug, and on the parents and the
    ids of the filters. *)
Lemma well_formed_same (x y : Taxonomy.t) :
  Taxonomy.slug y = Taxonomy.slug x ->
  map Filter.parent (Taxonomy.filters y) = map Filter.parent (Taxonomy.filters x) ->
  map Filter.id (Taxonomy.filters y) = map Filter.id (Taxonomy.filters x) ->
  well_formed y = well_formed x.
Proof. unfold well_formed. now intros -> -> ->. Qed.

Lemma well_formed_all_set (b : bool) (x : Taxonomy.t) :
  well_formed (all_set b x) = well_formed x.
Proof.
  apply well_formed_same; unfold all_set; cbn; [reflexivity| |];
    rewrite map_map; now apply map_ext.
Qed.


Lemma mirrors_same q q' (tax : Taxonomy.t) :
  term_list (Taxonomy.slug tax) q' = term_list (Taxonomy.slug tax) q ->
  mirrors q' tax = mirrors q tax.
Proof. unfold mirrors, selected. now intros ->. Qed.


Lemma mirrors_all_set q' (d : bool) (y : Taxonomy.t) :
  term_list (Taxonomy.slug y) q' = (if d then filter_ids y else []) ->
  mirrors q' (all_set d y) = true.
Proof.
  intros Hlist. unfold mirrors, selected.
  change (Taxonomy.slug (all_set d y)) with (Taxonomy.slug y).
  change (Taxonomy.filters (all_set d y))
    with (map (Filter.set_checked d) (Taxonomy.filters y)).
  rewrite Hlist. apply forallb_forall. intros g' Hin.
  apply in_map_iff in Hin as (g & <- & Hin).
  change (Filter.checked (Filter.set_checked d g)) with d.
  change (Filter.id (Filter.set_checked d g)) with (Filter.id g).
  destruct d; [|reflexivity].
  replace (existsb _ _) with true; [reflexivity|].
  symmetry. apply existsb_exists. exists (Num (Filter.id g)).
  split; [|apply scalar_eqb_refl].
  unfold filter_ids. now apply (in_map (fun term => Num (Filter.id term))).
Qed.






Lemma in_step_page ts q (v : value) :
  in_step ts q = true -> in_step ts (Js.set "page" v q) = true.
Proof.
  intros Hstep. destruct (in_step_inv _ _ Hstep) as (Hd & Hnd & Hall).
  rewrite <- (map_id ts). apply in_step_map; [exact Hd|].
  intros y Hy. destruct (Hall y Hy) as (Hw & Hl & Hm).
  pose proof (well_formed_slug y Hw) as Hpage.
  split; [reflexivity|]. split; [exact Hw|]. split.
  - unfold list_or_absent in *.
    rewrite get_set_other; [exact Hl|].
    intros E. apply Hpage. now symmetry.
  - rewrite (mirrors_same q (Js.set "page" v q) y); [exact Hm|].
    apply term_list_set. intros E. apply Hpage. now symmetry.
Qed.

End InStep.


(** X20. [reset] puts the terms in step with the query.  For well
    formed taxonomies of distinct slugs, whatever the flags and the
    query were, after [reset] every flag mirrors the query: all are
    unchecked and every list is empty. *)
Theorem reset_puts_in_step :
  forall (item : Type) (s : State item),
    forallb well_formed (terms s) = true ->
    distinct_names (map Taxonomy.slug (terms s)) = true ->
    in_step (terms (reset s)) (query (reset s)) = true.
Proof.
  intros item s Hw Hd. rewrite reset_terms.
  apply in_step_map; [exact Hd|].
  intros y Hy. rewrite forallb_forall in Hw.
  pose proof (well_formed_slug y (Hw y Hy)) as Hpage.
  pose proof (reset_get y s Hy Hpage) as Hget.
  split; [reflexivity|]. split; [now rewrite well_formed_all_set, Hw|].
  split.
  - unfold list_or_absent. now rewrite Hget.
  - apply mirrors_all_set. unfold term_list. now rewrite Hget.
Qed.

Lemma reset_puts_in_step_witness :
  in_step (terms (set_terms demo_terms filtered))
          (query (set_terms demo_terms filtered)) = false
  /\ in_step (terms (reset (set_terms demo_terms filtered)))
             (query (reset (set_terms demo_terms filtered))) = true.
Proof.
  split; [reflexivity|].
  apply (reset_puts_in_step string (set_terms demo_terms filtered));
    reflexivity.
Defined.

(** X21. Fetching and paginating keep the terms in step with the
    query: no run of [queue] and no [paginate] touches the filters, and
    the page number is not the list of a taxonomy. *)
Theorem requests_keep_in_step :
  forall (raw item : Type) (cfg : Config raw item)
         (net : string -> Fetched raw) (s : State item),
    in_step (terms s) (query s) = true ->
    (forall (queries : list Z) (s' : State item),
        queue cfg net queries s = Some s' ->
        in_step (terms s') (query s') = true)
    /\ (forall (change : Z) (done : completion (State item)),
           paginate cfg net change s = Some done ->
           in_step (terms (state_of done)) (query (state_of done)) = true).
Proof.
  intros raw item cfg net s Hstep.
  assert (Hqueue : forall (queries : list Z) (s0 s' : State item),
             in_step (terms s0) (query s0) = true ->
             queue cfg net queries s0 = Some s' ->
             in_step (terms s') (query s') = true).
  { intros queries s0 s' H0. unfold queue.
    destruct (page_of (query s0)) as [number|] eqn:Hp.
    - intros Hrun.
      destruct (queue_loop_effect cfg net _ _ _ _ _ Hp Hrun) as (Hq & Ht & _).
      now rewrite Hq, Ht.
    - destruct queries as [|offset rest]; cbn [queue_loop].
      + now intros [= <-].
      + unfold queue_turn. now rewrite Hp. }
  split; [intros queries s'; now apply Hqueue|].
  intros change done. unfold paginate.
  destruct (page_of (query s)) as [number|]; [|discriminate].
  cbv zeta.
  destruct (Js.at_index _ _) as [entry|].
  - destruct (queue cfg net _ _) as [s3|] eqn:Hrun; [|discriminate].
    intros [= <-]. cbn [state_of].
    refine (Hqueue _ _ _ _ Hrun). cbn. now apply in_step_page.
  - intros [= <-]. cbn. now apply in_step_page.
Qed.

Lemma requests_keep_in_step_witness :
  exists s1,
    queue demo_config serving [0; 1] started = Some s1
    /\ in_step (terms s1) (query s1) = true.
Proof.
  assert (H : exists s1, queue demo_config serving [0; 1] started = Some s1).
  { eexists. reflexivity. }
  destruct H as (s1 & H). exists s1. split; [exact H|].
  exact (proj1 (requests_keep_in_step string string demo_config serving
                  started eq_refl) [0; 1] s1 H).
Defined.

(* ================================================================== *)
(** ** The terms endpoint and the demonstration *)
(* ================================================================== *)

Section Terms.





End Terms.



Section Change.
Context {item : Type}.

Implicit Types s : State item.

Lemma set_terms_same s : set_terms (terms s) s = s.
Proof. now destruct s. Qed.

Lemma set_filters_same (x : Taxonomy.t) :
  Taxonomy.set_filters (Taxonomy.filters x) x = x.
Proof. now destruct x. Qed.




End Change.



(** X24. The totals of a response become numbers.  From an ok response
    whose total and page count are the decimal texts of two safe
    integers and whose link is a text no number starts like, [response]
    stores those two integers and the link as it is; a header that is
    absent is stored as 0. *)
Theorem response_reads_the_totals :
  forall (raw item : Type) (r : Response.t raw) (s : State item)
         (total pages : Z),
    Response.ok r = true ->
    Js.safe_integer total = true ->
    Js.safe_integer pages = true ->
    Response.x_wp_total r = Some (Js.number_to_string total) ->
    Response.x_wp_totalpages r = Some (Js.number_to_string pages) ->
    (forall (c : ascii) (rest : string),
        Response.link r = Some (String c rest) ->
        Js.starts_no_number c = true ->
        response r s
        = Some (set_headers
                  (Headers.mk (Num pages) (Num total) (Str (String c rest))) s))
    /\ (Response.link r = None ->
        response r s
        = Some (set_headers (Headers.mk (Num pages) (Num total) (Num 0)) s)).
Proof.
  intros raw item r s total pages Hok Ht Hp Htotal Hpages.
  assert (Hnum : forall z : Z,
             Js.safe_integer z = true ->
             header_value (Some (Js.number_to_string z)) = Some (Num z)).
  { intros z Hz. unfold header_value. now rewrite string_to_number_text. }
  unfold response, read_headers.
  rewrite Hok, Htotal, Hpages, (Hnum total Ht), (Hnum pages Hp).
  split.
  - intros c rest Hlink Hc. rewrite Hlink. unfold header_value.
    now rewrite string_to_number_word.
  - intros Hlink. now rewrite Hlink.
Qed.

Lemma response_reads_the_totals_witness :
  response demo_response (@initial string)
  = Some (set_headers (Headers.mk (Num 3) (Num 12) (Str demo_link)) initial).
Proof.
  apply (response_reads_the_totals string string demo_response initial 12 3);
    reflexivity.
Defined.

Section Independent.
Context {raw item : Type}.
Variable cfg : Config raw item.
Variable net : string -> Fetched raw.

Implicit Types s : State item.

(** The requests for posts neither read nor write the terms. *)
Lemma chain_set_terms (ts : list Taxonomy.t) (current : bool) (q : Query) s :
  chain cfg net current q (set_terms ts s)
  = option_map (set_terms ts) (chain cfg net current q s).
Proof.
  unfold chain, wpQuery. cbn [query set_terms posts].
  destruct (page_of q) as [target|]; [|reflexivity].
  destruct (page_of (query s)) as [number|]; [|reflexivity].
  destruct (net _) as [|r]; [reflexivity|].
  unfold response. cbn [set_posts set_terms].
  destruct (Response.ok r).
  - destruct (read_headers r) as [h|]; [|reflexivity].
    destruct (Response.body r) as [data|]; [|reflexivity].
    unfold process.
    destruct current; cbn;
      destruct (page_of q) as [target'|]; try reflexivity;
      destruct data as [l|text], (maps cfg (type cfg)) as [f|];
      try reflexivity;
      destruct (Js.at_index target' _); reflexivity.
  - destruct (Response.body r) as [data|]; [|reflexivity].
    unfold process.
    destruct current; cbn;
      destruct (page_of q) as [target'|]; try reflexivity;
      destruct data as [l|text], (maps cfg (type cfg)) as [f|];
      try reflexivity;
      destruct (Js.at_index target' _); reflexivity.
Qed.

Lemma queue_turn_set_terms (ts : list Taxonomy.t) (Obj1 : Query)
      (offset : Z) s :
  queue_turn cfg net Obj1 offset (set_terms ts s)
  = option_map (set_terms ts) (queue_turn cfg net Obj1 offset s).
Proof.
  unfold queue_turn. cbn [query set_terms headers].
  destruct (page_of (query s)) as [page|]; [|reflexivity].
  destruct (page + offset <=? 0); [reflexivity|].
  change (have_matching_page Obj1 (page + offset) (set_terms ts s))
    with (have_matching_page Obj1 (page + offset) s).
  destruct (have_matching_page Obj1 (page + offset) s); [reflexivity|].
  destruct (_ || _ || _); [|reflexivity].
  apply chain_set_terms.
Qed.

Lemma queue_loop_set_terms (ts : list Taxonomy.t) (Obj1 : Query)
      (queries : list Z) :
  forall s,
    queue_loop cfg net Obj1 queries (set_terms ts s)
    = option_map (set_terms ts) (queue_loop cfg net Obj1 queries s).
Proof.
  induction queries as [|offset rest IH]; intros s; [reflexivity|].
  cbn [queue_loop]. rewrite queue_turn_set_terms.
  destruct (queue_turn cfg net Obj1 offset s) as [s1|]; [|reflexivity].
  cbn [option_map]. apply IH.
Qed.

End Independent.

(** X25. The two requests of the start are independent.  The
    demonstration starts with a run of [queue] and with [fetch('terms')];
    whether the terms arrive before the run or after it, the state is
    the same: the run neither reads nor writes the terms, and the terms
    are built from the query alone, which the run does not change. *)
Theorem start_requests_commute :
  forall (raw item : Type) (cfg : Config raw item)
         (net : string -> Fetched raw)
         (net_terms : string -> Fetched RawTaxonomy.t)
         (queries : list Z) (s s1 s2 : State item) (number : Z),
    page_of (query s) = Some number ->
    fetch_terms cfg net_terms s = Returns s1 ->
    queue cfg net queries s = Some s2 ->
    exists s3,
      queue cfg net queries s1 = Some s3
      /\ fetch_terms cfg net_terms s2 = Returns s3.
Proof.
  intros raw item cfg net net_terms queries s s1 s2 number Hp Hfetch Hrun.
  unfold queue in *.
  destruct (queue_loop_effect cfg net _ _ _ _ _ Hp Hrun) as (Hq & Ht & _).
  unfold fetch_terms in *. rewrite Hq, Ht.
  destruct (negb (List.length (terms s) =? 0)%nat).
  - injection Hfetch as <-. now exists s2.
  - destruct (net_terms (terms_url cfg)) as [|r]; [discriminate|].
    destruct (Response.body r) as [[d|text]|]; try discriminate.
    destruct (map_all (terms_map (query s)) d) as [ts|]; [|discriminate].
    injection Hfetch as <-. cbn [query set_terms].
    rewrite queue_loop_set_terms, Hrun. now eexists.
Qed.

Lemma start_requests_commute_witness :
  exists s1 s2 s3,
    fetch_terms demo_config terms_server initial = Returns s1
    /\ queue demo_config serving [0; 1] initial = Some s2
    /\ queue demo_config serving [0; 1] s1 = Some s3
    /\ fetch_terms demo_config terms_server s2 = Returns s3.
Proof.
  assert (H : exists s1 s2,
             fetch_terms demo_config terms_server (@initial string)
             = Returns s1
             /\ queue demo_config serving [0; 1] initial = Some s2).
  { do 2 eexists. split; reflexivity. }
  destruct H as (s1 & s2 & H1 & H2).
  destruct (start_requests_commute string string demo_config serving
              terms_server [0; 1] initial s1 s2 1 eq_refl H1 H2)
    as (s3 & H3 & H4).
  now exists s1, s2, s3.
Defined.

Section Hidden.
Context {raw item : Type}.
Variable cfg : Config raw item.
Variable net : string -> Fetched raw.

Implicit Types s : State item.

(** After a run for the current page and a neighbour, the current page
    is in the store for the query of the run. *)
Lemma finished_run_matches (change number : Z) s s1 :
  page_of (query s) = Some number ->
  0 < number ->
  queue cfg net [0; change] s = Some s1 ->
  have_matching_page (Js.delete "page" (query s)) number s1 = true.
Proof.
  intros Hp Hpos. unfold queue. cbn [queue_loop].
  set (Obj1 := Js.delete "page" (query s)).
  destruct (queue_turn cfg net Obj1 0 s) as [t0|] eqn:E0; [|discriminate].
  destruct (queue_turn cfg net Obj1 change t0) as [t1|] eqn:E1; [|discriminate].
  intros [= <-].
  destruct (queue_turn_effect cfg net _ _ _ _ _ Hp E0) as (Hq0 & _).
  assert (Hp0 : page_of (query t0) = Some number) by now rewrite Hq0.
  assert (HObj0 : Obj1 = Js.delete "page" (query t0)) by now rewrite Hq0.
  destruct (queue_turn_current cfg net Obj1 number s t0 eq_refl Hp E0)
    as [Hle|Hm]; [lia|].
  exact (queue_turn_keeps_match cfg net Obj1 change number number t0 t1
           HObj0 Hp0 E1 Hm).
Qed.

Lemma at_index_hidden (n : Z) (l : list (option (Page.t item))) :
  Js.at_index n (map hide l)
  = option_map (Page.set_show false) (Js.at_index n l).
Proof.
  unfold Js.at_index. destruct (n <? 0); [reflexivity|].
  rewrite nth_error_map.
  now destruct (nth_error l (Z.to_nat n)) as [[page|]|].
Qed.

(** A store whose pages are all hidden shows no post. *)
Lemma all_hidden_shows_nothing s :
  (forall n page, Js.at_index n (posts s) = Some page ->
                  Page.show page = false) ->
  postsFlat s = [].
Proof.
  intros H. unfold postsFlat.
  assert (Hall : forall e, In e (posts s) ->
                           match e with
                           | Some page => Page.show page = false
                           | None => True
                           end).
  { intros [page|] Hin; [|exact I].
    destruct (In_nth_error _ _ Hin) as (i & Hi).
    apply (H (Z.of_nat i)). unfold Js.at_index.
    destruct (Z.ltb_spec (Z.of_nat i) 0); [lia|].
    now rewrite Nat2Z.id, Hi. }
  clear H. induction (posts s) as [|e l IH]; [reflexivity|].
  cbn [flat_map]. rewrite IH by (intros e' He'; apply Hall; now right).
  pose proof (Hall e (or_introl eq_refl)) as He.
  destruct e as [page|]; [|reflexivity]. now rewrite He.
Qed.

End Hidden.

(** X26. A change of the filters that leaves the query as it is blanks
    the view.  After a run on page 1, let [updateQuery] set a key to
    the value the query holds for it already (as a second [reset] does,
    or [toggle] on a taxonomy without filters).  The pages are hidden,
    and the run that follows finds page 1 in the store for the very
    same query: it requests nothing for it and does not reveal it.  No
    page is shown afterwards, no post is visible, and [loading] is
    false. *)
Theorem unchanged_query_blanks_the_view :
  forall (raw item : Type) (cfg : Config raw item)
         (net : string -> Fetched raw) (s s2 : State item)
         (k : string) (v : value),
    readable net ->
    page_of (query s) = Some 1 ->
    queue cfg net [0; 1] s = Some s2 ->
    k <> "page" ->
    Js.get k (query s2) = Some v ->
    exists s4,
      wp cfg net (updateQuery k v s2) = Some s4
      /\ (forall n page, Js.at_index n (posts s4) = Some page ->
                         Page.show page = false)
      /\ Js.at_index 1 (posts s4)
         = option_map (Page.set_show false) (Js.at_index 1 (posts s2))
      /\ postsFlat s4 = []
      /\ loading s4 = Some (Returns false).
Proof.
  intros raw item cfg net s s2 k v Hnet Hp Hrun Hk Hget.
  pose proof (finished_run_matches cfg net 1 1 s s2 Hp ltac:(lia) Hrun) as Hm.
  unfold queue in Hrun.
  destruct (queue_loop_effect cfg net _ _ _ _ _ Hp Hrun) as (Hq2 & _).
  assert (Hp2 : page_of (query s2) = Some 1) by now rewrite Hq2.
  set (s3 := updateQuery k v s2).
  assert (Hq3 : query s3 = query s2).
  { unfold s3. rewrite updateQuery_query.
    rewrite (set_same_value k v (query s2) Hget).
    now apply set_page_same. }
  assert (Hposts3 : posts s3 = map hide (posts s2)) by reflexivity.
  assert (Hp3 : page_of (query s3) = Some 1) by now rewrite Hq3.
  assert (Hm3 : have_matching_page (Js.delete "page" (query s3)) 1 s3 = true).
  { rewrite Hq3, Hq2. unfold have_matching_page in *.
    rewrite Hposts3, at_index_hidden.
    destruct (Js.at_index 1 (posts s2)) as [page|]; [|discriminate].
    exact Hm. }
  assert (Hhidden3 : forall n page, Js.at_index n (posts s3) = Some page ->
                                    Page.show page = false).
  { intros n page. rewrite Hposts3, at_index_hidden.
    destruct (Js.at_index n (posts s2)) as [page'|]; [|discriminate].
    now intros [= <-]. }
  clearbody s3. unfold wp, queue. cbn [queue_loop].
  rewrite (queue_turn_skips cfg net _ 0 1 s3 Hp3) by now right.
  destruct (queue_turn_total cfg net (Js.delete "page" (query s3)) 1 1 s3
              Hnet Hp3) as (s4 & Hturn).
  rewrite Hturn. exists s4. split; [reflexivity|].
  destruct (queue_turn_effect cfg net _ _ _ _ _ Hp3 Hturn)
    as (Hq4 & _ & Hposts4 & _).
  assert (Hhidden4 : forall n page, Js.at_index n (posts s4) = Some page ->
                                    Page.show page = false).
  { intros n page Hat. destruct (Z.eq_dec n 2) as [->|Hn].
    - destruct (Hposts4 2) as [E|(page' & Hat' & Hshow & _)].
      + rewrite E in Hat. now apply (Hhidden3 2).
      + rewrite Hat in Hat'. injection Hat' as <-. exact Hshow.
    - rewrite (queue_turn_frame cfg net _ 1 1 n s3 s4 Hp3 Hturn) in Hat
        by (right; lia).
      now apply (Hhidden3 n). }
  assert (Hat1 : Js.at_index 1 (posts s4)
                 = option_map (Page.set_show false) (Js.at_index 1 (posts s2))).
  { rewrite (queue_turn_frame cfg net _ 1 1 1 s3 s4 Hp3 Hturn) by (right; lia).
    rewrite Hposts3. apply at_index_hidden. }
  split; [exact Hhidden4|]. split; [exact Hat1|].
  split; [now apply all_hidden_shows_nothing|].
  assert (Hp4 : page_of (query s4) = Some 1) by now rewrite Hq4.
  unfold have_matching_page in Hm.
  destruct (Js.at_index 1 (posts s2)) as [page|] eqn:E2; [|discriminate].
  cbn [option_map] in Hat1.
  rewrite (loading_with_page s4 1 _ Hp4 Hat1). cbn.
  now rewrite andb_false_r.
Qed.

Lemma unchanged_query_blanks_the_view_witness :
  exists s2 s4,
    wp demo_config serving (reset started) = Some s2
    /\ postsFlat s2 = ["first"; "second"]
    /\ wp demo_config serving (reset s2) = Some s4
    /\ postsFlat s4 = []
    /\ loading s4 = Some (Returns false).
Proof.
  assert (H : exists s2,
             queue demo_config serving [0; 1] (reset started) = Some s2
             /\ postsFlat s2 = ["first"; "second"]
             /\ Js.get "categories" (query s2) = Some (Array [])
             /\ reset s2 = updateQuery "categories" (Array []) s2).
  { eexists. split; [reflexivity|]. repeat split; reflexivity. }
  destruct H as (s2 & Hs2 & Hflat & Hget & Hreset).
  destruct (unchanged_query_blanks_the_view string string demo_config serving
              (reset started) s2 "categories" (Array [])
              serving_readable eq_refl Hs2 ltac:(discriminate) Hget)
    as (s4 & Hs4 & _ & _ & Hflat4 & Hload4).
  exists s2, s4. rewrite Hreset. now repeat split.
Defined.
